(** * Export pipeline of the PDF viewer: [src/lib/utils/exportHandlers.ts]

    A shallow embedding of the export handlers (source resolution,
    annotation merging, tiered compression, PNG archive export) and the
    properties of the specification that concern them.

    Conventions of the embedding.

    - An [async] function is a computation in the monad [Run]: it yields
      the list of observable events it caused, in program order, and a
      completion, which is either a normal return or a thrown error
      (a rejected promise).  Every [await] in the source is sequential,
      so no interleaving is modelled.
    - Collaborators (the page viewer, the Tauri host, pdf-lib, JSZip, the
      network, the file sink) are oracles: each call is recorded as an
      event and its completion is read off the oracle.  Each loop below
      queries a given page at most once per method, so an oracle indexed
      by the page number covers a stateful collaborator as well.
    - JavaScript numbers that hold page counts and percentages are [Z];
      the quotient [page / totalPages * 80] is computed in [Q].  IEEE
      doubles are not modelled: division, multiplication and [Math.round]
      are monotone on doubles as they are on rationals, which is all the
      ordering properties below rely on.
    - Strings are sequences of 8-bit code units with ASCII case folding. *)

From Stdlib Require Import ZArith QArith Qround Qabs Lqa Lia.
From Stdlib Require Import Strings.Byte Strings.Ascii.
From stdpp Require Import gmap strings list pretty sorting.

Local Open Scope string_scope.
Local Open Scope list_scope.
Local Open Scope Z_scope.

(** ** Data *)

(** [Uint8Array] *)
Definition Bytes : Type := list Byte.byte.

(** [ToUint8] of a JavaScript integer, as [new Uint8Array(number[])] applies
    it to every element. *)
Definition ToUint8 (n : Z) : Byte.byte :=
  default Byte.x00 (Byte.of_N (Z.to_N (n mod 256))).

Definition Uint8Array_of (ns : list Z) : Bytes := ToUint8 <$> ns.

(** [Array.from(uint8Array)] *)
Definition Array_from (bs : Bytes) : list Z := (λ b, Z.of_N (Byte.to_N b)) <$> bs.

(** A canvas, characterised by what [toBlob(cb, 'image/png')] hands to its
    callback: the PNG bytes of the blob, or [null]. *)
Record HTMLCanvasElement := mkCanvas {
  canvasId : nat;
  toBlob_png : option Bytes
}.

(** Handle to a document loaded by pdf-lib. *)
Inductive PDFDocument := pdfDocument (handle : nat).

(** Errors that can reach a caller. *)
Inductive Error :=
| FetchFailed (statusText : string)   (* `Failed to fetch PDF: ${statusText}` *)
| CanvasToBlobFailed                  (* 'Canvas toBlob failed' *)
| PageRenderFailed (page : Z)         (* `Could not render page ${page} to canvas` *)
| EmptyZip                            (* 'No pages could be rendered ...' *)
| Rejected (reason : string).         (* raised by a collaborator *)

Inductive Completion (A : Type) :=
| Normal (a : A)
| Throw (e : Error).
Arguments Normal {A} a.
Arguments Throw {A} e.

Inductive Warning :=
| TauriCompressionFailed (error : Error)
| PdfLibFallbackFailed (error : Error)
| SkippingPage (page : Z).

(** Observable events: calls to collaborators and to the caller's
    progress callback. *)
Inductive Event :=
| CallFetch (url : string)
| CallPageHasAnnotations (page : Z)
| CallGetMergedCanvasForPage (page : Z)
| CallInvokeCompressPdf (content : list Z) (quality : Z)
| CallPdfLibLoad (pdfBytes : Bytes)
| CallPdfLibSave (doc : PDFDocument)
| CallGenerateAsync (files : gmap string Bytes)
| CallExportFile (data : Bytes) (filename mime : string)
| OnProgress (percent : Z)
| ConsoleWarn (w : Warning).

(** ** The monad of asynchronous computations *)

Definition Run (A : Type) : Type := list Event * Completion A.

Definition events {A} (r : Run A) : list Event := r.1.
Definition completion {A} (r : Run A) : Completion A := r.2.

#[global] Instance Run_ret : MRet Run := λ A a, ([], Normal a).

#[global] Instance Run_bind : MBind Run := λ A B f m,
  match m with
  | (t, Normal a) => let '(t', r) := f a in (t ++ t', r)
  | (t, Throw e) => (t, Throw e)
  end.

Definition throw {A} (e : Error) : Run A := ([], Throw e).

(** [await collaborator(...)]: the call is recorded, the oracle decides how
    it completes. *)
Definition await {A} (call : Event) (c : Completion A) : Run A := ([call], c).

Definition emit (ev : Event) : Run unit := ([ev], Normal tt).

(** [try { body } catch (error) { handler }] *)
Definition try_catch {A} (body : Run A) (handler : Error → Run A) : Run A :=
  match body with
  | (t, Normal a) => (t, Normal a)
  | (t, Throw e) => let '(t', r) := handler e in (t ++ t', r)
  end.

(** ** Collaborators *)

Record PdfViewer := {
  pageHasAnnotations : Z → Completion bool;
  getMergedCanvasForPage : Z → Completion (option HTMLCanvasElement)
}.

Record Response := {
  ok : bool;
  statusText : string;
  response_arrayBuffer : Completion Bytes
}.

Record File := {
  name : string;
  file_arrayBuffer : Completion Bytes
}.

Record Platform := {
  (* tauriUtils *)
  isTauri : bool;
  (* invoke('compress_pdf', { content, quality }) *)
  invoke_compress_pdf : list Z → Z → Completion (list Z);
  (* PDFDocument.load(bytes, { ignoreEncryption: true }) *)
  PDFDocument_load : Bytes → Completion PDFDocument;
  (* doc.save({ useObjectStreams: true }) *)
  PDFDocument_save : PDFDocument → Completion Bytes;
  (* fetch(url) *)
  fetch : string → Completion Response;
  (* new URL(url).pathname *)
  URL_pathname : string → Completion string;
  (* zip.generateAsync({ type: 'uint8array', compression: 'DEFLATE', ... }) *)
  JSZip_generateAsync : gmap string Bytes → Completion Bytes;
  (* PDFExporter.exportFile(data, filename, mime) *)
  PDFExporter_exportFile : Bytes → string → string → Completion bool
}.

(** ** compressPdfBytes *)

Definition compressPdfBytes (P : Platform) (pdfBytes : Bytes) (quality : option Z)
  : Run Bytes :=
  let quality := default 75 quality in
  native ←
    (if isTauri P then
       try_catch
         (let content := Array_from pdfBytes in
          compressed ← await (CallInvokeCompressPdf content quality)
                             (invoke_compress_pdf P content quality);
          mret (Some (Uint8Array_of compressed)))
         (λ error, emit (ConsoleWarn (TauriCompressionFailed error));; mret None)
     else mret None);
  match native with
  | Some compressed => mret compressed
  | None =>
      try_catch
        (doc ← await (CallPdfLibLoad pdfBytes) (PDFDocument_load P pdfBytes);
         await (CallPdfLibSave doc) (PDFDocument_save P doc))
        (λ error, emit (ConsoleWarn (PdfLibFallbackFailed error));; mret pdfBytes)
  end.

(** ** Strings *)

(** [String.prototype.toLowerCase], on ASCII letters. *)
Definition toLowerCase_ascii (c : ascii) : ascii :=
  let n := nat_of_ascii c in
  if ((65 <=? n) && (n <=? 90))%nat then ascii_of_nat (n + 32) else c.

Fixpoint toLowerCase (s : string) : string :=
  match s with
  | EmptyString => EmptyString
  | String c rest => String (toLowerCase_ascii c) (toLowerCase rest)
  end.

(** [s.endsWith(suffix)] *)
Fixpoint endsWith (s suffix : string) : bool :=
  if String.eqb s suffix then true
  else match s with
       | EmptyString => false
       | String _ rest => endsWith rest suffix
       end.

(** [s.split(sep)] for a one-character separator; the result is never
    empty. *)
Fixpoint split (sep : ascii) (s : string) : list string :=
  match s with
  | EmptyString => [EmptyString]
  | String c rest =>
      if Ascii.eqb c sep then EmptyString :: split sep rest
      else match split sep rest with
           | seg :: segs => String c seg :: segs
           | [] => [String c EmptyString]
           end
  end.

(** The whole of [s] is matched by [\.pdf] under the [i] flag. *)
Definition is_dot_pdf (s : string) : bool := String.eqb (toLowerCase s) ".pdf".

(** [s.replace(/\.pdf$/i, '')]: the first position from which the rest of
    the string is [.pdf] in any letter case is where the string is cut. *)
Fixpoint replace_pdf_suffix (s : string) : string :=
  if is_dot_pdf s then EmptyString
  else match s with
       | EmptyString => EmptyString
       | String c rest => String c (replace_pdf_suffix rest)
       end.

(** ** getPdfBytesAndName *)

Definition defaultFilenameExtractor (P : Platform) (url : string) : string :=
  match URL_pathname P url with
  | Normal pathname =>
      let filename :=
        match last (split "/" pathname) with
        | Some (String c seg) => String c seg
        | _ => "document.pdf"
        end in
      if endsWith (toLowerCase filename) ".pdf" then filename else filename +:+ ".pdf"
  | Throw _ => "document.pdf"
  end.

(** [currentFile: File | string] *)
Inductive CurrentFile :=
| IsFile (file : File)
| IsString (url : string).

Record PdfBytesAndName := {
  pdfBytes : Bytes;
  originalName : string
}.

(** A promise of an object at hand settles without a call to a
    collaborator. *)
Definition settle {A} (c : Completion A) : Run A := ([], c).

Definition getPdfBytesAndName (P : Platform) (currentFile : CurrentFile)
    (filenameExtractor : option (string → string)) : Run PdfBytesAndName :=
  match currentFile with
  | IsString url =>
      response ← await (CallFetch url) (fetch P url);
      if negb (ok response) then throw (FetchFailed (statusText response))
      else
        bytes ← settle (response_arrayBuffer response);
        let extractor := default (defaultFilenameExtractor P) filenameExtractor in
        mret {| pdfBytes := bytes;
                originalName := replace_pdf_suffix (extractor url) |}
  | IsFile file =>
      bytes ← settle (file_arrayBuffer file);
      mret {| pdfBytes := bytes;
              originalName := replace_pdf_suffix (name file) |}
  end.

(** ** buildAnnotatedPdfExporter *)

(** Modelled from the spec: the [PDFExporter] class of [./pdfExport], which
    is imported by the handlers but is not among the sources.  Per the
    specification it is "an accumulator that owns the original document
    bytes and a mapping from page number to merged canvas (keys unique,
    one entry per page needing an overlay)". *)
Record PDFExporter := {
  originalPDF : option Bytes;
  pageCanvases : gmap Z HTMLCanvasElement
}.

Definition new_PDFExporter : PDFExporter :=
  {| originalPDF := None; pageCanvases := ∅ |}.

Definition setOriginalPDF (bytes : Bytes) (exporter : PDFExporter) : PDFExporter :=
  {| originalPDF := Some bytes; pageCanvases := pageCanvases exporter |}.

Definition setPageCanvas (pageNumber : Z) (canvas : HTMLCanvasElement)
    (exporter : PDFExporter) : PDFExporter :=
  {| originalPDF := originalPDF exporter;
     pageCanvases := <[pageNumber := canvas]> (pageCanvases exporter) |}.

(** [options?: { captureAllPages?: boolean }] *)
Record BuildOptions := {
  captureAllPages : option bool
}.

(** The body of [for (let pageNumber = 1; pageNumber <= totalPages;
    pageNumber++)], over the page numbers still to visit. *)
Fixpoint capturePages (pdfViewer : PdfViewer) (captureAll : bool)
    (pageNumbers : list Z) (exporter : PDFExporter) : Run PDFExporter :=
  match pageNumbers with
  | [] => mret exporter
  | pageNumber :: rest =>
      hasAnnotations ← await (CallPageHasAnnotations pageNumber)
                             (pageHasAnnotations pdfViewer pageNumber);
      exporter ←
        (if hasAnnotations || captureAll then
           mergedCanvas ← await (CallGetMergedCanvasForPage pageNumber)
                                (getMergedCanvasForPage pdfViewer pageNumber);
           match mergedCanvas with
           | Some canvas => mret (setPageCanvas pageNumber canvas exporter)
           | None => mret exporter
           end
         else mret exporter);
      capturePages pdfViewer captureAll rest exporter
  end.

(** [options?.captureAllPages ?? false] *)
Definition captureAllPagesOf (options : option BuildOptions) : bool :=
  default false (options ≫= captureAllPages).

Definition buildAnnotatedPdfExporter (bytes : Bytes) (pdfViewer : PdfViewer)
    (totalPages : Z) (options : option BuildOptions) : Run PDFExporter :=
  let exporter := setOriginalPDF bytes new_PDFExporter in
  let captureAll := captureAllPagesOf options in
  capturePages pdfViewer captureAll (seqZ 1 totalPages) exporter.

(** ** PNG export *)

(** [canvasToPngBlob] followed by [blob.arrayBuffer()]: a blob is
    identified with its bytes. *)
Definition canvasToPngBlob (canvas : HTMLCanvasElement) : Run Bytes :=
  match toBlob_png canvas with
  | Some blob => mret blob
  | None => throw CanvasToBlobFailed
  end.

Definition exportCurrentPageAsPng (P : Platform) (pdfViewer : PdfViewer)
    (currentPage : Z) (baseName : string) : Run bool :=
  canvas ← await (CallGetMergedCanvasForPage currentPage)
                 (getMergedCanvasForPage pdfViewer currentPage);
  match canvas with
  | None => throw (PageRenderFailed currentPage)
  | Some canvas =>
      blob ← canvasToPngBlob canvas;
      let filename := baseName +:+ "_page" +:+ pretty currentPage +:+ ".png" in
      await (CallExportFile blob filename "image/png")
            (PDFExporter_exportFile P blob filename "image/png")
  end.

(** [Math.round]: the nearest integer, halves towards plus infinity. *)
Definition Math_round (x : Q) : Z := Qfloor (x + (1 # 2)).

(** [Math.round((page / totalPages) * 80)] *)
Definition pagePercent (page totalPages : Z) : Z :=
  Math_round ((inject_Z page / inject_Z totalPages) * inject_Z 80).

(** [`page${page}.png`] *)
Definition pageEntryName (page : Z) : string := "page" +:+ pretty page +:+ ".png".

Arguments pagePercent : simpl never.
Arguments pageEntryName : simpl never.

(** [if (onProgress) onProgress(percent)], for a callback that returns;
    the flag says whether the caller passed the optional callback.  The
    call of a callback that may throw is [Callback.reportProgress]. *)
Definition reportProgress (onProgress : bool) (percent : Z) : Run unit :=
  if onProgress then emit (OnProgress percent) else mret tt.

(** The body of [for (let page = 1; page <= totalPages; page++)], over the
    page numbers still to visit; [zip] is the set of files of the JSZip
    object, where [zip.file(name, data)] adds or replaces an entry. *)
Fixpoint zipPages (pdfViewer : PdfViewer) (totalPages : Z) (onProgress : bool)
    (pages : list Z) (zip : gmap string Bytes) (filesAdded : Z)
  : Run (gmap string Bytes * Z) :=
  match pages with
  | [] => mret (zip, filesAdded)
  | page :: rest =>
      canvas ← await (CallGetMergedCanvasForPage page)
                     (getMergedCanvasForPage pdfViewer page);
      match canvas with
      | None =>
          emit (ConsoleWarn (SkippingPage page));;
          zipPages pdfViewer totalPages onProgress rest zip filesAdded
      | Some canvas =>
          arrayBuffer ← canvasToPngBlob canvas;
          let zip := <[pageEntryName page := arrayBuffer]> zip in
          let filesAdded := filesAdded + 1 in
          reportProgress onProgress (pagePercent page totalPages);;
          zipPages pdfViewer totalPages onProgress rest zip filesAdded
      end
  end.

(** The dynamic [import('jszip')] is taken to succeed, and the caller's
    progress callback to return; [new JSZip()] is the empty file set. *)
Definition exportAllPagesAsPngZip (P : Platform) (pdfViewer : PdfViewer)
    (totalPages : Z) (baseName : string) (onProgress : bool) : Run bool :=
  '(zip, filesAdded) ← zipPages pdfViewer totalPages onProgress
                                (seqZ 1 totalPages) ∅ 0;
  if filesAdded =? 0 then throw EmptyZip
  else
    zipBytes ← await (CallGenerateAsync zip) (JSZip_generateAsync P zip);
    reportProgress onProgress 95;;
    let filename := baseName +:+ "_pages.zip" in
    saved ← await (CallExportFile zipBytes filename "application/zip")
                  (PDFExporter_exportFile P zipBytes filename "application/zip");
    (if saved && onProgress then emit (OnProgress 100) else mret tt);;
    mret (M := Run) saved.

(** ** Observations on a run *)

(** The values passed to the progress callback, in order. *)
Definition progressReports (t : list Event) : list Z :=
  omap (λ ev, match ev with OnProgress percent => Some percent | _ => None end) t.

(** The file sets handed to [generateAsync]: the archives produced. *)
Definition archives (t : list Event) : list (gmap string Bytes) :=
  omap (λ ev, match ev with CallGenerateAsync files => Some files | _ => None end) t.

(** The calls made to the file sink. *)
Definition exportFileCalls (t : list Event) : list (Bytes * string * string) :=
  omap (λ ev, match ev with
              | CallExportFile data filename mime => Some (data, filename, mime)
              | _ => None
              end) t.

(** The PNG bytes of a page: its merged canvas exists and encodes. *)
Definition renderedPng (pdfViewer : PdfViewer) (page : Z) : option Bytes :=
  match getMergedCanvasForPage pdfViewer page with
  | Normal (Some canvas) => toBlob_png canvas
  | _ => None
  end.

Definition renders (pdfViewer : PdfViewer) (page : Z) : bool :=
  bool_decide (is_Some (renderedPng pdfViewer page)).

(** The page fails to render: the viewer returns [null] for it. *)
Definition page_skipped (pdfViewer : PdfViewer) (page : Z) : Prop :=
  getMergedCanvasForPage pdfViewer page = Normal None.

(** The page renders: the viewer returns a canvas and the canvas encodes. *)
Definition page_rendered (pdfViewer : PdfViewer) (page : Z) : Prop :=
  ∃ canvas png, getMergedCanvasForPage pdfViewer page = Normal (Some canvas) ∧
                toBlob_png canvas = Some png.

(** Neither the viewer nor the encoder throws on the page. *)
Definition page_settles (pdfViewer : PdfViewer) (page : Z) : Prop :=
  page_skipped pdfViewer page ∨ page_rendered pdfViewer page.

(** What one iteration of the archive loop does when the page settles. *)
Definition iterationEvents (pdfViewer : PdfViewer) (totalPages : Z) (onProgress : bool)
    (page : Z) : list Event :=
  CallGetMergedCanvasForPage page ::
  match renderedPng pdfViewer page with
  | Some _ => if onProgress then [OnProgress (pagePercent page totalPages)] else []
  | None => [ConsoleWarn (SkippingPage page)]
  end.

Definition addPage (pdfViewer : PdfViewer) (zip : gmap string Bytes) (page : Z)
  : gmap string Bytes :=
  match renderedPng pdfViewer page with
  | Some png => <[pageEntryName page := png]> zip
  | None => zip
  end.

(** The file sink was called and answered [saved]. *)
Definition sinkReports (P : Platform) (t : list Event) (saved : bool) : Prop :=
  ∃ data filename mime,
    (data, filename, mime) ∈ exportFileCalls t ∧
    PDFExporter_exportFile P data filename mime = Normal saved.

(** What the progress sequence of a run owes the caller: it never
    decreases, it ends at 100 exactly when the sink reported a save, and a
    cancelled save returns [false] with 95 as the last value. *)
Definition progressContract (P : Platform) (run : Run bool) : Prop :=
  let reports := progressReports (events run) in
  StronglySorted Z.le reports ∧
  (last reports = Some 100 ↔ sinkReports P (events run) true) ∧
  (sinkReports P (events run) false →
     completion run = Normal false ∧ last reports = Some 95).

(** The canvas the viewer returns for a page, if any. *)
Definition mergedCanvas (pdfViewer : PdfViewer) (page : Z) : option HTMLCanvasElement :=
  match getMergedCanvasForPage pdfViewer page with
  | Normal canvas => canvas
  | Throw _ => None
  end.

(** The exporter after a page whose canvas was requested. *)
Definition captured (pdfViewer : PdfViewer) (exporter : PDFExporter) (page : Z)
  : PDFExporter :=
  match mergedCanvas pdfViewer page with
  | Some canvas => setPageCanvas page canvas exporter
  | None => exporter
  end.

(** The page is one whose canvas the loop asks for. *)
Definition needsCapture (pdfViewer : PdfViewer) (captureAll : bool) (page : Z) : Prop :=
  captureAll = true ∨ pageHasAnnotations pdfViewer page = Normal true.


(** ** Sample collaborators *)

Definition sampleCanvas (page : Z) : HTMLCanvasElement :=
  mkCanvas (Z.to_nat page) (Some [ToUint8 page]).

(** A viewer that has no canvas for the pages in [missing] and reports
    annotations on the pages in [annotated]. *)
Definition sampleViewer (missing annotated : list Z) : PdfViewer :=
  {| pageHasAnnotations := λ page, Normal (bool_decide (page ∈ annotated));
     getMergedCanvasForPage := λ page,
       Normal (if bool_decide (page ∈ missing) then None else Some (sampleCanvas page)) |}.

(** A browser without native host, where pdf-lib rejects every document,
    two URLs parse, every fetch succeeds with an empty body, and the save
    dialog answers [saved]. *)
Definition samplePlatform (saved : bool) : Platform :=
  {| isTauri := false;
     invoke_compress_pdf := λ _ _, Throw (Rejected "no host");
     PDFDocument_load := λ _, Throw (Rejected "not a PDF");
     PDFDocument_save := λ _, Throw (Rejected "not a PDF");
     fetch := λ _, Normal {| ok := true; statusText := "OK";
                              response_arrayBuffer := Normal [] |};
     URL_pathname := λ url,
       if String.eqb url "https://x/y/report.PDF" then Normal "/y/report.PDF"
       else if String.eqb url "https://x/y/" then Normal "/y/"
       else Throw (Rejected "Invalid URL");
     JSZip_generateAsync := λ _, Normal [];
     PDFExporter_exportFile := λ _ _ _, Normal saved |}.

(** Five pages of which pages 2 and 4 fail to render. *)
Definition fivePageRun (saved : bool) : Run bool :=
  exportAllPagesAsPngZip (samplePlatform saved) (sampleViewer [2; 4] []) 5 "doc" true.

(** A native host whose compression command fails, with a pdf-lib that
    loads the document but cannot save it. *)
Definition failingHostPlatform : Platform :=
  {| isTauri := true;
     invoke_compress_pdf := λ _ _, Throw (Rejected "compress_pdf failed");
     PDFDocument_load := λ _, Normal (pdfDocument 0);
     PDFDocument_save := λ _, Throw (Rejected "save failed");
     fetch := λ _, Throw (Rejected "offline");
     URL_pathname := λ _, Throw (Rejected "Invalid URL");
     JSZip_generateAsync := λ _, Normal [];
     PDFExporter_exportFile := λ _ _ _, Normal true |}.

(** Two unannotated pages, exported with [{ captureAllPages: true }]. *)
Definition captureAllRun : Run PDFExporter :=
  buildAnnotatedPdfExporter [] (sampleViewer [] []) 2
    (Some {| captureAllPages := Some true |}).

(** The file name a source resolves to, before the suffix is stripped. *)
Definition sourceName (P : Platform) (currentFile : CurrentFile)
    (filenameExtractor : option (string → string)) : string :=
  match currentFile with
  | IsFile file => name file
  | IsString url => default (defaultFilenameExtractor P) filenameExtractor url
  end.

(** The weakest reading of "extension-free": appending [.pdf] to the name
    does not double a [.pdf] extension. *)
Definition pdfExtensionFree (s : string) : Prop :=
  endsWith (toLowerCase s) ".pdf" = false.

(** The fetch of [url] succeeds with body [bytes]. *)
Definition fetched (P : Platform) (url : string) (bytes : Bytes) : Prop :=
  ∃ response, fetch P url = Normal response ∧ ok response = true ∧
              response_arrayBuffer response = Normal bytes.

(** An in-memory file whose name carries the suffix twice. *)
Definition scanFile : File :=
  {| name := "scan.pdf.pdf"; file_arrayBuffer := Normal [] |}.

(** ** Further observations on a run *)

(** The pages whose merged canvas was requested, in order. *)
Definition canvasRequests (t : list Event) : list Z :=
  omap (λ ev, match ev with CallGetMergedCanvasForPage page => Some page | _ => None end) t.

(** The pages whose annotations were queried, in order. *)
Definition annotationQueries (t : list Event) : list Z :=
  omap (λ ev, match ev with CallPageHasAnnotations page => Some page | _ => None end) t.

(** The warnings written to the console, in order. *)
Definition warnings (t : list Event) : list Warning :=
  omap (λ ev, match ev with ConsoleWarn w => Some w | _ => None end) t.

Definition isProgress (ev : Event) : bool :=
  match ev with OnProgress _ => true | _ => false end.

(** A trace with the calls to the progress callback left out. *)
Definition withoutProgress (t : list Event) : list Event :=
  filter (λ ev, isProgress ev = false) t.

(** The events [t], then the run [r]. *)
Definition prepend {A} (t : list Event) (r : Run A) : Run A := (t ++ r.1, r.2).


(** The calls one iteration of the annotation loop makes. *)
Definition captureEvents (pdfViewer : PdfViewer) (captureAll : bool) (page : Z)
  : list Event :=
  CallPageHasAnnotations page ::
  match pageHasAnnotations pdfViewer page with
  | Normal hasAnnotations =>
      if hasAnnotations || captureAll then [CallGetMergedCanvasForPage page] else []
  | Throw _ => []
  end.

(** The error with which an iteration of the annotation loop aborts, if it
    does. *)
Definition captureFailure (pdfViewer : PdfViewer) (captureAll : bool) (page : Z)
  : option Error :=
  match pageHasAnnotations pdfViewer page with
  | Throw e => Some e
  | Normal hasAnnotations =>
      if hasAnnotations || captureAll then
        match getMergedCanvasForPage pdfViewer page with
        | Throw e => Some e
        | Normal _ => None
        end
      else None
  end.

(** The page is one the annotation loop captures. *)
Definition wantsCapture (pdfViewer : PdfViewer) (captureAll : bool) (page : Z) : bool :=
  match pageHasAnnotations pdfViewer page with
  | Normal hasAnnotations => hasAnnotations || captureAll
  | Throw _ => false
  end.

(** The exporter after one settled iteration of the annotation loop. *)
Definition capturedIf (pdfViewer : PdfViewer) (captureAll : bool)
    (exporter : PDFExporter) (page : Z) : PDFExporter :=
  if wantsCapture pdfViewer captureAll page then captured pdfViewer exporter page
  else exporter.

(** A native host whose compression command hands its content back. *)
Definition echoHostPlatform : Platform :=
  {| isTauri := true;
     invoke_compress_pdf := λ content _, Normal content;
     PDFDocument_load := λ _, Throw (Rejected "not a PDF");
     PDFDocument_save := λ _, Throw (Rejected "not a PDF");
     fetch := λ _, Normal {| ok := false; statusText := "Not Found";
                              response_arrayBuffer := Normal [] |};
     URL_pathname := λ url,
       if String.eqb url "https://x/files/notes" then Normal "/files/notes"
       else Throw (Rejected "Invalid URL");
     JSZip_generateAsync := λ _, Throw (Rejected "out of memory");
     PDFExporter_exportFile := λ _ _ _, Normal true |}.

(** A viewer whose annotation store rejects the query for page 2. *)
Definition rejectingViewer : PdfViewer :=
  {| pageHasAnnotations := λ page,
       if bool_decide (page = 2) then Throw (Rejected "store closed") else Normal true;
     getMergedCanvasForPage := λ page, Normal (Some (sampleCanvas page)) |}.


(** ** A progress callback that may throw

    [exportAllPagesAsPngZip] calls [onProgress] outside any [try], so a
    callback that throws ends the export with its error.  The model above
    keeps only whether a callback was passed and takes it to return; here
    the callback is given by its completion for each value it is called
    with. *)

Module Callback.

(** [if (onProgress) onProgress(percent)] *)
Definition reportProgress (onProgress : option (Z → Completion unit)) (percent : Z)
  : Run unit :=
  match onProgress with
  | Some callback => await (OnProgress percent) (callback percent)
  | None => mret tt
  end.

Fixpoint zipPages (pdfViewer : PdfViewer) (totalPages : Z)
    (onProgress : option (Z → Completion unit))
    (pages : list Z) (zip : gmap string Bytes) (filesAdded : Z)
  : Run (gmap string Bytes * Z) :=
  match pages with
  | [] => mret (zip, filesAdded)
  | page :: rest =>
      canvas ← await (CallGetMergedCanvasForPage page)
                     (getMergedCanvasForPage pdfViewer page);
      match canvas with
      | None =>
          emit (ConsoleWarn (SkippingPage page));;
          zipPages pdfViewer totalPages onProgress rest zip filesAdded
      | Some canvas =>
          arrayBuffer ← canvasToPngBlob canvas;
          let zip := <[pageEntryName page := arrayBuffer]> zip in
          let filesAdded := filesAdded + 1 in
          reportProgress onProgress (pagePercent page totalPages);;
          zipPages pdfViewer totalPages onProgress rest zip filesAdded
      end
  end.

Definition exportAllPagesAsPngZip (P : Platform) (pdfViewer : PdfViewer)
    (totalPages : Z) (baseName : string) (onProgress : option (Z → Completion unit))
  : Run bool :=
  '(zip, filesAdded) ← zipPages pdfViewer totalPages onProgress
                                (seqZ 1 totalPages) ∅ 0;
  if filesAdded =? 0 then throw EmptyZip
  else
    zipBytes ← await (CallGenerateAsync zip) (JSZip_generateAsync P zip);
    reportProgress onProgress 95;;
    let filename := baseName +:+ "_pages.zip" in
    saved ← await (CallExportFile zipBytes filename "application/zip")
                  (PDFExporter_exportFile P zipBytes filename "application/zip");
    (if saved : bool then reportProgress onProgress 100 else mret tt);;
    mret (M := Run) saved.

(** The first of the values [reports] on which the callback throws, and
    what it throws. *)
Fixpoint firstThrow (callback : Z → Completion unit) (reports : list Z)
  : option (Z * Error) :=
  match reports with
  | [] => None
  | percent :: rest =>
      match callback percent with
      | Throw e => Some (percent, e)
      | Normal _ => firstThrow callback rest
      end
  end.

(** What a run [reporting] to the callback owes the same run without
    callback, [silent]: they differ by the reports only, or [reporting] ends
    with the first report on which the callback throws, until where it did
    what [silent] does. *)
Definition follows {A} (callback : Z → Completion unit) (reporting silent : Run A) : Prop :=
  (firstThrow callback (progressReports (events reporting)) = None ∧
   completion reporting = completion silent ∧
   withoutProgress (events reporting) = events silent) ∨
  (∃ t percent e,
     events reporting = t ++ [OnProgress percent] ∧
     firstThrow callback (progressReports t) = None ∧
     callback percent = Throw e ∧
     completion reporting = Throw e ∧
     withoutProgress t `prefix_of` events silent).

End Callback.

(** A listener that fails when it is told 48 percent. *)
Definition failingListener (percent : Z) : Completion unit :=
  if percent =? 48 then Throw (Rejected "listener failed") else Normal tt.

(** ** Touch gestures: [GestureTracker] and [PanInertia]

    Pointer coordinates and velocities are JavaScript numbers; they are
    modelled as rationals, so rounding of doubles is not.  [Math.sqrt] is a
    parameter of the one function that uses it.  [PanInertia.addSample] is
    left out: what its blend of two doubles returns depends on that
    rounding. *)

Module Gesture.

Record PointerEvent := {
  pointerId : Z;
  clientX : Q;
  clientY : Q
}.

Record Point2D := {
  x : Q;
  y : Q
}.

(** [Map.prototype.set] on a [Map<number, PointerEvent>]: the entries are
    kept in insertion order; setting a key that is present replaces its
    value where it stands, setting a new key appends an entry. *)
Fixpoint map_set (key : Z) (value : PointerEvent) (entries : list (Z * PointerEvent))
  : list (Z * PointerEvent) :=
  match entries with
  | [] => [(key, value)]
  | (key', value') :: rest =>
      if decide (key' = key) then (key, value) :: rest
      else (key', value') :: map_set key value rest
  end.

(** [Map.prototype.delete] *)
Fixpoint map_delete (key : Z) (entries : list (Z * PointerEvent))
  : list (Z * PointerEvent) :=
  match entries with
  | [] => []
  | (key', value') :: rest =>
      if decide (key' = key) then rest else (key', value') :: map_delete key rest
  end.

Record GestureTracker := {
  activePointers : list (Z * PointerEvent)
}.

(** [new GestureTracker()] *)
Definition new : GestureTracker := {| activePointers := [] |}.

Definition track (e : PointerEvent) (this : GestureTracker) : GestureTracker :=
  {| activePointers := map_set (pointerId e) e (activePointers this) |}.

Definition untrack (e : PointerEvent) (this : GestureTracker) : GestureTracker :=
  {| activePointers := map_delete (pointerId e) (activePointers this) |}.

Definition count (this : GestureTracker) : nat := length (activePointers this).

(** [firstTwo]: the first two values of the map's iterator; the source
    asserts that they exist, its callers check the size first. *)
Definition firstTwo (this : GestureTracker) : option (PointerEvent * PointerEvent) :=
  match activePointers this with
  | (_, a) :: (_, b) :: _ => Some (a, b)
  | _ => None
  end.

Definition getPinchDistance (Math_sqrt : Q → Q) (this : GestureTracker) : Q :=
  if (count this <? 2)%nat then 0%Q
  else match firstTwo this with
       | Some (a, b) =>
           let dx := (clientX a - clientX b)%Q in
           let dy := (clientY a - clientY b)%Q in
           Math_sqrt (dx * dx + dy * dy)%Q
       | None => 0%Q
       end.

Definition getPinchMidpoint (this : GestureTracker) : Point2D :=
  if (count this <? 2)%nat then {| x := 0; y := 0 |}
  else match firstTwo this with
       | Some (a, b) =>
           {| x := (clientX a + clientX b) / 2; y := (clientY a + clientY b) / 2 |}
       | None => {| x := 0; y := 0 |}
       end.

Definition getFirstPointer (this : GestureTracker) : option Point2D :=
  match activePointers this with
  | (_, e) :: _ => Some {| x := clientX e; y := clientY e |}
  | [] => None
  end.

Definition reset (this : GestureTracker) : GestureTracker := {| activePointers := [] |}.

(** The ids of the tracked pointers, in the order of the map. *)
Definition pointerIds (this : GestureTracker) : list Z := (activePointers this).*1.

(** [Map.prototype.get] *)
Fixpoint map_get (key : Z) (entries : list (Z * PointerEvent)) : option PointerEvent :=
  match entries with
  | [] => None
  | (key', value') :: rest =>
      if decide (key' = key) then Some value' else map_get key rest
  end.

(** The event last tracked for a pointer id, if the pointer is tracked. *)
Definition tracked (id : Z) (this : GestureTracker) : option PointerEvent :=
  map_get id (activePointers this).

End Gesture.

Module Inertia.

Record PanInertia := {
  vx : Q;
  vy : Q;
  rafId : option nat
}.

Definition decay : Q := 92 # 100.
Definition minSpeed : Q := 1 # 2.

(** What the animation does to the outside. *)
Inductive FrameEvent :=
| RequestAnimationFrame (id : nat)
| CancelAnimationFrame (id : nat)
| OnFrame (dx dy : Q).

(** [new PanInertia()] *)
Definition new : PanInertia := {| vx := 0; vy := 0; rafId := None |}.

Definition cancel (this : PanInertia) : PanInertia * list FrameEvent :=
  ({| vx := 0; vy := 0; rafId := None |},
   match rafId this with
   | Some id => [CancelAnimationFrame id]
   | None => []
   end).

(** [a < b] on numbers *)
Definition lt (a b : Q) : bool := negb (Qle_bool b a).

(** The closure [tick] of [start], run by the browser on an animation
    frame; [nextId] is the id [requestAnimationFrame] returns if the
    closure schedules itself again. *)
Definition tick (nextId : nat) (this : PanInertia) : PanInertia * list FrameEvent :=
  let vx' := (vx this * decay)%Q in
  let vy' := (vy this * decay)%Q in
  if lt (Qabs vx') minSpeed && lt (Qabs vy') minSpeed then
    ({| vx := 0; vy := 0; rafId := None |}, [])
  else
    ({| vx := vx'; vy := vy'; rafId := Some nextId |},
     [OnFrame vx' vy'; RequestAnimationFrame nextId]).

(** [start(onFrame)]; [id] is the id of the frame it requests. *)
Definition start (id : nat) (this : PanInertia) : PanInertia * list FrameEvent :=
  let '(this, cancelled) := cancel this in
  ({| vx := vx this; vy := vy this; rafId := Some id |},
   cancelled ++ [RequestAnimationFrame id]).

(** An animation frame: the browser runs the pending callback, if one is
    pending. *)
Definition frame (nextId : nat) (this : PanInertia) : PanInertia * list FrameEvent :=
  match rafId this with
  | Some _ => tick nextId this
  | None => (this, [])
  end.

(** Successive animation frames; [ids] are the ids the browser hands out
    for the frames requested on the way. *)
Fixpoint frames (ids : list nat) (this : PanInertia) : PanInertia * list FrameEvent :=
  match ids with
  | [] => (this, [])
  | nextId :: rest =>
      let '(this, called) := frame nextId this in
      let '(this, later) := frames rest this in
      (this, called ++ later)
  end.

End Inertia.

(** ** Image import: [src/lib/utils/imageImport.ts]

    The import utilities talk to other collaborators than the export
    handlers, so their runs carry their own type of events.  [Trace E] is
    the monad [Run] over events of type [E]. *)

Definition Trace (E A : Type) : Type := list E * Completion A.

#[global] Instance Trace_ret {E} : MRet (Trace E) := λ A a, ([], Normal a).

#[global] Instance Trace_bind {E} : MBind (Trace E) := λ A B f m,
  match m with
  | (t, Normal a) => let '(t', r) := f a in (t ++ t', r)
  | (t, Throw e) => (t, Throw e)
  end.

(** The events of a run, and how it completed. *)
Definition calls {E A} (r : Trace E A) : list E := r.1.
Definition outcome {E A} (r : Trace E A) : Completion A := r.2.

(** [try { body } finally { cleanup }], for a cleanup that cannot throw. *)
Definition try_finally {E A} (body : Trace E A) (cleanup : list E) : Trace E A :=
  (body.1 ++ cleanup, body.2).

(** [new Error(message)], for the errors of the import utilities. *)
Definition new_Error (message : string) : Error := Rejected message.

(** The browser's [File], with the attributes the upload path reads. *)
Module Upload.
Record File := {
  name : string;
  type : string;
  size : Z;
  lastModified : Z;
  arrayBuffer : Completion Bytes
}.
End Upload.

(** The whole of [s] is matched by [\.(png|jpe?g|webp)] under the [i]
    flag. *)
Definition is_image_ext (s : string) : bool :=
  let lower := toLowerCase s in
  String.eqb lower ".png" || String.eqb lower ".jpg" || String.eqb lower ".jpeg" ||
  String.eqb lower ".webp".

(** [s.replace(/\.(png|jpe?g|webp)$/i, '.pdf')] *)
Fixpoint replace_image_suffix (s : string) : string :=
  if is_image_ext s then ".pdf"
  else match s with
       | EmptyString => EmptyString
       | String c rest => String c (replace_image_suffix rest)
       end.

(** [/\.pdf$/i.test(s)] *)
Fixpoint test_pdf_suffix (s : string) : bool :=
  if is_dot_pdf s then true
  else match s with
       | EmptyString => false
       | String _ rest => test_pdf_suffix rest
       end.

Module ImageImport.

(** An image embedded by pdf-lib. *)
Record PDFImage := {
  width : Z;
  height : Z
}.

Record HTMLImageElement := {
  naturalWidth : Z;
  naturalHeight : Z
}.

Inductive Call :=
| PDFDocument_create
| EmbedPng (bytes : Bytes)
| EmbedJpg (bytes : Bytes)
| AddPage (width height : Z)
| DrawImage (x y width height : Z)
| PDFDocument_save
| CreateObjectURL (bytes : Bytes)
| RevokeObjectURL (url : string)
| LoadImage (src : string)
| CreateCanvas (width height : Z)
| GetContext
| CanvasDrawImage
| CanvasToBlob
| Date_now.

Record Env := {
  (* PDFDocument.create() *)
  create : Completion unit;
  (* pdfDoc.embedPng(bytes), pdfDoc.embedJpg(bytes) *)
  embedPng : Bytes → Completion PDFImage;
  embedJpg : Bytes → Completion PDFImage;
  (* pdfDoc.save(), of the document holding the one page with the image *)
  save : PDFImage → Completion Bytes;
  (* typeof window, document and URL are all defined *)
  inBrowser : bool;
  (* URL.createObjectURL(blob) *)
  createObjectURL : Bytes → string;
  (* loadImage(url): the image decodes, or its onerror fires *)
  imageLoads : string → option HTMLImageElement;
  (* canvas.getContext('2d') is not null *)
  hasContext : bool;
  (* canvas.toBlob(cb, 'image/png') after drawing the image *)
  toBlob : HTMLImageElement → option Bytes;
  (* Date.now() *)
  now : Z
}.

Definition await {A} (call : Call) (c : Completion A) : Trace Call A := ([call], c).
Definition emit (call : Call) : Trace Call unit := ([call], Normal tt).
Definition throw {A} (e : Error) : Trace Call A := ([], Throw e).
Definition settle {A} (c : Completion A) : Trace Call A := ([], c).

Definition inferMimeType (name : string) : string :=
  let lower := toLowerCase name in
  if endsWith lower ".png" then "image/png"
  else if endsWith lower ".jpg" || endsWith lower ".jpeg" then "image/jpeg"
  else if endsWith lower ".webp" then "image/webp"
  else "application/octet-stream".

Definition loadImage (env : Env) (src : string) : Trace Call HTMLImageElement :=
  await (LoadImage src)
    (match imageLoads env src with
     | Some img => Normal img
     | None => Throw (new_Error "Failed to load image")
     end).

Definition webpToPng (env : Env) (webpBytes : Bytes) : Trace Call Bytes :=
  if negb (inBrowser env) then
    throw (new_Error "webpToPng can only be executed in a browser environment. Please ensure it is called from UI event handlers or behind client-only checks.")
  else
    let url := createObjectURL env webpBytes in
    emit (CreateObjectURL webpBytes);;
    try_finally
      (img ← loadImage env url;
       emit (CreateCanvas (naturalWidth img) (naturalHeight img));;
       emit GetContext;;
       if negb (hasContext env) then
         throw (new_Error "Failed to get canvas context for WEBP conversion")
       else
         emit CanvasDrawImage;;
         await CanvasToBlob
           (match toBlob env img with
            | Some png => Normal png
            | None => Throw (new_Error "Canvas toBlob failed")
            end))
      [RevokeObjectURL url].

Definition convertImageToPDF (env : Env) (file : Upload.File) : Trace Call Upload.File :=
  bytes ← settle (Upload.arrayBuffer file);
  await PDFDocument_create (create env);;
  let type := if String.eqb (Upload.type file) "" then inferMimeType (Upload.name file)
              else Upload.type file in
  image ←
    (if String.eqb type "image/png" then await (EmbedPng bytes) (embedPng env bytes)
     else if String.eqb type "image/jpeg" then await (EmbedJpg bytes) (embedJpg env bytes)
     else if String.eqb type "image/webp" then
       pngBytes ← webpToPng env bytes;
       await (EmbedPng pngBytes) (embedPng env pngBytes)
     else throw (new_Error ("Unsupported image type: " +:+ type)));
  emit (AddPage (width image) (height image));;
  emit (DrawImage 0 0 (width image) (height image));;
  pdfBytes ← await PDFDocument_save (save env image);
  let pdfFilename := replace_image_suffix (Upload.name file) in
  let pdfFilename := if negb (test_pdf_suffix pdfFilename) then pdfFilename +:+ ".pdf"
                     else pdfFilename in
  emit Date_now;;
  mret {| Upload.name := pdfFilename;
          Upload.type := "application/pdf";
          Upload.size := Z.of_nat (length pdfBytes);
          Upload.lastModified := now env;
          Upload.arrayBuffer := Normal pdfBytes |}.

End ImageImport.

(** A browser in which every image decodes to a 640 by 480 picture and
    pdf-lib saves a four-byte document. *)
Module ImportSample.

Definition env : ImageImport.Env :=
  {| ImageImport.create := Normal tt;
     ImageImport.embedPng := λ _,
       Normal {| ImageImport.width := 640; ImageImport.height := 480 |};
     ImageImport.embedJpg := λ _,
       Normal {| ImageImport.width := 640; ImageImport.height := 480 |};
     ImageImport.save := λ _, Normal [Byte.x25; Byte.x50; Byte.x44; Byte.x46];
     ImageImport.inBrowser := true;
     ImageImport.createObjectURL := λ _, "blob:1";
     ImageImport.imageLoads := λ _,
       Some {| ImageImport.naturalWidth := 640; ImageImport.naturalHeight := 480 |};
     ImageImport.hasContext := true;
     ImageImport.toBlob := λ _, Some [Byte.x89];
     ImageImport.now := 1700000000000 |}.

Definition image (name type : string) : Upload.File :=
  {| Upload.name := name; Upload.type := type; Upload.size := 1;
     Upload.lastModified := 0; Upload.arrayBuffer := Normal [Byte.x89] |}.

(** The file the conversion of an untyped image named Holiday.JPEG
    returns. *)
Definition holidayPdf : Upload.File :=
  {| Upload.name := "Holiday.pdf"; Upload.type := "application/pdf"; Upload.size := 4;
     Upload.lastModified := 1700000000000;
     Upload.arrayBuffer := Normal [Byte.x25; Byte.x50; Byte.x44; Byte.x46] |}.

End ImportSample.

(** ** The PNG export component: [src/lib/components/PngExport.svelte]

    The component's reactive variables are a record that the functions
    pass on.  [console] and [getExportContext] are taken to return; the
    analytics callback of the parent may throw, and is given by its
    completion for each file name.
    The progress callback that [doExport] passes on is its own closure of
    two assignments, which returns. *)

Module PngExport.

Inductive Status := processing | success | error.

Record State := {
  isExporting : bool;
  exportOperation : string;
  exportStatus : Status;
  exportMessage : string;
  exportProgress : Z
}.

(** What [getExportContext()] returns. *)
Record ExportContext := {
  pdfViewer : PdfViewer;
  currentPage : Z;
  totalPages : Z;
  baseName : string
}.

Record Props := {
  getExportContext : option ExportContext;
  (* the optional analytics callback, if the parent passed one *)
  onExportSuccess : option (string → Completion unit)
}.

Record Env := {
  platform : Platform;
  (* forceSaveAllAnnotations() of the drawing store *)
  forceSaveAllAnnotations : Completion unit
}.

Inductive Call :=
| Handler (ev : Event)              (* an event of the export handler called *)
| ForceSaveAllAnnotations
| ConsoleWarn (message : string)
| ConsoleLog (message : string)
| ConsoleError (e : Error)
| OnExportSuccess (filename : string).

(** The state before the first export. *)
Definition initial : State :=
  {| isExporting := false; exportOperation := ""; exportStatus := processing;
     exportMessage := ""; exportProgress := 0 |}.

(** The callback passed to [exportAllPagesAsPngZip]. *)
Definition onProgress (st : State) (percent : Z) : State :=
  {| isExporting := isExporting st;
     exportOperation := exportOperation st;
     exportStatus := exportStatus st;
     exportMessage := "Rendering pages... " +:+ pretty percent +:+ "%";
     exportProgress := percent |}.

(** The [catch] block of [doExport]. *)
Definition failed (st : State) (calls : list Call) (e : Error) : State * list Call :=
  ({| isExporting := isExporting st;
      exportOperation := "Export Failed";
      exportStatus := error;
      exportMessage := "Failed to export as PNG. Please try again.";
      exportProgress := 0 |},
   calls ++ [ConsoleError e]).

Definition doExport (env : Env) (props : Props) (st : State) : State * list Call :=
  match getExportContext props with
  | None => (st, [])
  | Some ctx =>
      let st := {| isExporting := true;
                   exportOperation := exportOperation st;
                   exportStatus := processing;
                   exportMessage := exportMessage st;
                   exportProgress := 5 |} in
      match forceSaveAllAnnotations env with
      | Throw e => failed st [ForceSaveAllAnnotations] e
      | Normal _ =>
          let isSinglePage := totalPages ctx =? 1 in
          let st := {| isExporting := isExporting st;
                       exportOperation :=
                         if isSinglePage then "Exporting PNG" else "Exporting PNGs";
                       exportStatus := exportStatus st;
                       exportMessage :=
                         if isSinglePage then "Rendering page..."
                         else "Rendering " +:+ pretty (totalPages ctx) +:+ " pages...";
                       exportProgress := exportProgress st |} in
          let '(st, run) :=
            if isSinglePage then
              ({| isExporting := isExporting st;
                  exportOperation := exportOperation st;
                  exportStatus := exportStatus st;
                  exportMessage := "Converting to PNG...";
                  exportProgress := 30 |},
               exportCurrentPageAsPng (platform env) (pdfViewer ctx) (currentPage ctx)
                 (baseName ctx))
            else
              let run := exportAllPagesAsPngZip (platform env) (pdfViewer ctx)
                           (totalPages ctx) (baseName ctx) true in
              (foldl onProgress st (progressReports (events run)), run) in
          let calls := ForceSaveAllAnnotations :: (Handler <$> events run) in
          match completion run with
          | Throw e => failed st calls e
          | Normal true =>
              let filename :=
                if isSinglePage
                then baseName ctx +:+ "_page" +:+ pretty (currentPage ctx) +:+ ".png"
                else baseName ctx +:+ "_pages.zip" in
              let st := {| isExporting := isExporting st;
                           exportOperation := "Export Complete";
                           exportStatus := success;
                           exportMessage := filename;
                           exportProgress := 100 |} in
              let calls := calls ++ [ConsoleLog ("PNG export successful: " +:+ filename)] in
              (* onExportSuccess?.(filename), still inside the try *)
              match onExportSuccess props with
              | None => (st, calls)
              | Some callback =>
                  match callback filename with
                  | Normal _ => (st, calls ++ [OnExportSuccess filename])
                  | Throw e => failed st (calls ++ [OnExportSuccess filename]) e
                  end
              end
          | Normal false =>
              ({| isExporting := false;
                  exportOperation := exportOperation st;
                  exportStatus := exportStatus st;
                  exportMessage := exportMessage st;
                  exportProgress := exportProgress st |},
               calls ++ [ConsoleLog "PNG export was cancelled by user"])
          end
      end
  end.

(** [open()], called by the parent to start the export. *)
Definition open (env : Env) (props : Props) (st : State) : State * list Call :=
  match getExportContext props with
  | None => (st, [ConsoleWarn "PngExport: no getExportContext callback provided"])
  | Some _ => if isExporting st then (st, []) else doExport env props st
  end.

(** The calls the export handler made. *)
Definition handlerEvents (calls : list Call) : list Event :=
  omap (λ call, match call with Handler ev => Some ev | _ => None end) calls.

(** The file names reported to the analytics callback. *)
Definition reportedFilenames (calls : list Call) : list string :=
  omap (λ call, match call with OnExportSuccess f => Some f | _ => None end) calls.

End PngExport.

(** A sample export through the component. *)

Module ExportSample.

(** A store that flushes, in the browser of [samplePlatform]. *)
Definition env (saved : bool) : PngExport.Env :=
  {| PngExport.platform := samplePlatform saved;
     PngExport.forceSaveAllAnnotations := Normal tt |}.

(** The document [doc], open at page 1, whose page 2 has no canvas. *)
Definition ctx (totalPages : Z) : PngExport.ExportContext :=
  {| PngExport.pdfViewer := sampleViewer [2] [];
     PngExport.currentPage := 1;
     PngExport.totalPages := totalPages;
     PngExport.baseName := "doc" |}.

Definition props (totalPages : Z) : PngExport.Props :=
  {| PngExport.getExportContext := Some (ctx totalPages);
     PngExport.onExportSuccess := Some (λ _, Normal tt) |}.

(** The same, with an analytics callback that throws. *)
Definition throwingProps (totalPages : Z) : PngExport.Props :=
  {| PngExport.getExportContext := Some (ctx totalPages);
     PngExport.onExportSuccess := Some (λ _, Throw (Rejected "analytics offline")) |}.

End ExportSample.

(** ** The gesture hint: the second component of
    [src/lib/components/PngExport.svelte]

    The component's state is its variable [visible], the browser's
    [localStorage] and the timeouts that are pending.  What happens to it
    is a sequence of runs of the reactive block and of timeouts that fire. *)

Module GestureHint.

Definition STORAGE_KEY : string := "leedpdf_gesture_hint_seen".
Definition DISMISS_MS : Z := 2000.

(** [localStorage]: its items, and whether reading and writing it throw
    (as they do in private browsing or over quota). *)
Record LocalStorage := {
  items : gmap string string;
  readable : bool;
  writable : bool
}.

Definition getItem (storage : LocalStorage) (key : string) : Completion (option string) :=
  if readable storage then Normal (items storage !! key)
  else Throw (Rejected "SecurityError").

Definition setItem (storage : LocalStorage) (key value : string)
  : Completion LocalStorage :=
  if writable storage
  then Normal {| items := <[key := value]> (items storage);
                 readable := readable storage;
                 writable := writable storage |}
  else Throw (Rejected "QuotaExceededError").

Record State := {
  visible : bool;
  localStorage : LocalStorage;
  (* the delays of the pending timeouts *)
  timeouts : list Z
}.

(** The component as mounted. *)
Definition new (storage : LocalStorage) : State :=
  {| visible := false; localStorage := storage; timeouts := [] |}.

Definition tryShow (st : State) : State :=
  if visible st then st
  else
    match getItem (localStorage st) STORAGE_KEY with
    | Throw _ => st
    | Normal item =>
        if bool_decide (item = Some "true") then st
        else {| visible := true;
                localStorage := localStorage st;
                timeouts := timeouts st ++ [DISMISS_MS] |}
    end.

(** The callback passed to [setTimeout], run when the oldest pending
    timeout fires. *)
Definition timeout (st : State) : State :=
  match timeouts st with
  | [] => st
  | _ :: pending =>
      {| visible := false;
         localStorage :=
           match setItem (localStorage st) STORAGE_KEY "true" with
           | Normal storage => storage
           | Throw _ => localStorage st
           end;
         timeouts := pending |}
  end.

(** [['pencil', 'eraser', 'highlight'].includes(tool)] *)
Definition isFreehandTool (tool : string) : bool :=
  bool_decide (tool ∈ ["pencil"; "eraser"; "highlight"]).

(** The reactive block; [maxTouchPoints] is [None] where [navigator] is
    undefined. *)
Definition react (tool : string) (maxTouchPoints : option Z) (st : State) : State :=
  if isFreehandTool tool &&
     match maxTouchPoints with Some n => 0 <? n | None => false end
  then tryShow st else st.

Inductive Action :=
| React (tool : string) (maxTouchPoints : option Z)
| Timeout.

Definition step (st : State) (action : Action) : State :=
  match action with
  | React tool maxTouchPoints => react tool maxTouchPoints st
  | Timeout => timeout st
  end.

Definition run (st : State) (actions : list Action) : State := foldl step st actions.

(** The hint has been marked as seen. *)
Definition seen (st : State) : bool :=
  bool_decide (items (localStorage st) !! STORAGE_KEY = Some "true").

End GestureHint.

(** What every state of the hint satisfies: a timeout is pending exactly
    while the hint shows, the storage keeps its access rights, and a hint
    that is readably marked as seen does not show. *)
Definition GestureHint_invariant (storage : GestureHint.LocalStorage)
    (st : GestureHint.State) : Prop :=
  GestureHint.timeouts st =
    (if GestureHint.visible st then [GestureHint.DISMISS_MS] else []) ∧
  GestureHint.readable (GestureHint.localStorage st) = GestureHint.readable storage ∧
  GestureHint.writable (GestureHint.localStorage st) = GestureHint.writable storage ∧
  (GestureHint.readable storage = false → GestureHint.visible st = false) ∧
  (GestureHint.readable storage = true → GestureHint.seen st = true →
   GestureHint.visible st = false).

(** ** The upload page: [src/lib/components/DropzonePage.svelte]

    The validators, the Markdown converter, the file store and the router
    are imported from modules outside this development and are the fields
    of [Dropzone.Env]; the toasts are recorded by their title. *)

(** [s.includes(needle)] *)
Fixpoint includes (s needle : string) : bool :=
  if String.prefix needle s then true
  else match s with
       | EmptyString => false
       | String _ rest => includes rest needle
       end.

(** [/\.(png|jpe?g|webp)/i.test(s)] *)
Definition test_image_ext (s : string) : bool :=
  let lower := toLowerCase s in
  includes lower ".png" || includes lower ".jpg" || includes lower ".jpeg" ||
  includes lower ".webp".

(** The whole of [s] is matched by [\.(md|markdown|mdown|mkd|mkdn)] under
    the [i] flag. *)
Definition is_markdown_ext (s : string) : bool :=
  let lower := toLowerCase s in
  String.eqb lower ".md" || String.eqb lower ".markdown" || String.eqb lower ".mdown" ||
  String.eqb lower ".mkd" || String.eqb lower ".mkdn".

(** [s.replace(/\.(md|markdown|mdown|mkd|mkdn)$/i, '.pdf')] *)
Fixpoint replace_markdown_suffix (s : string) : string :=
  if is_markdown_ext s then ".pdf"
  else match s with
       | EmptyString => EmptyString
       | String c rest => String c (replace_markdown_suffix rest)
       end.

Module Dropzone.

(** What [storeUploadedFile] resolves to. *)
Record StoreResult := {
  success : bool;
  id : option string;
  error : option string
}.

Inductive Call :=
| ToastError (title : string)
| ToastInfo (title : string)
| ReadMarkdownFile (file : Upload.File)
| ConvertMarkdownToPDF (markdownContent pdfFilename : string)
| Import (call : ImageImport.Call)      (* a call made by convertImageToPDF *)
| StoreUploadedFile (file : Upload.File)
| Goto (url : string)
| ConsoleError (e : Error).

Record Env := {
  (* $lib/constants *)
  MAX_FILE_SIZE : Z;
  (* $lib/utils/pdfUtils *)
  isValidMarkdownFile : Upload.File → bool;
  isValidImageFile : Upload.File → bool;
  isValidPDFFile : Upload.File → bool;
  (* $lib/utils/markdownUtils *)
  readMarkdownFile : Upload.File → Completion string;
  convertMarkdownToPDF : string → string → Completion Upload.File;
  (* what convertImageToPDF runs on *)
  imageImport : ImageImport.Env;
  (* $lib/utils/fileStorageUtils *)
  storeUploadedFile : Upload.File → Completion StoreResult;
  (* $app/navigation *)
  goto : string → Completion unit
}.

(** The component's variables. *)
Record State := {
  dragOver : bool;
  isProcessing : bool
}.

Definition await {A} (call : Call) (c : Completion A) : Trace Call A := ([call], c).
Definition emit (call : Call) : Trace Call unit := ([call], Normal tt).

(** A run of the image import, as part of a run of the page. *)
Definition import {A} (r : Trace ImageImport.Call A) : Trace Call A :=
  (Import <$> r.1, r.2).

(** JavaScript truthiness of an optional string. *)
Definition truthy (s : option string) : bool :=
  match s with
  | Some s => negb (String.eqb s "")
  | None => false
  end.

(** The three tests of the file against the [accept] prop. *)
Definition isImage (env : Env) (accept : string) (file : Upload.File) : bool :=
  let acceptsImages := includes accept "image" || test_image_ext accept in
  acceptsImages && isValidImageFile env file.

Definition isMarkdown (env : Env) (accept : string) (file : Upload.File) : bool :=
  let acceptsMarkdown := includes accept ".md" || includes accept "markdown" in
  acceptsMarkdown && isValidMarkdownFile env file.

Definition isPDF (env : Env) (accept : string) (file : Upload.File) : bool :=
  let acceptsPDF := includes accept ".pdf" in
  acceptsPDF && isValidPDFFile env file.

(** The conversion step of [handleFileUpload]: the file to store. *)
Definition convert (env : Env) (accept : string) (file : Upload.File)
  : Trace Call Upload.File :=
  if isMarkdown env accept file then
    emit (ToastInfo "Converting...");;
    markdownContent ← await (ReadMarkdownFile file) (readMarkdownFile env file);
    let pdfFilename := replace_markdown_suffix (Upload.name file) in
    let pdfFilename := if negb (test_pdf_suffix pdfFilename) then pdfFilename +:+ ".pdf"
                       else pdfFilename in
    await (ConvertMarkdownToPDF markdownContent pdfFilename)
          (convertMarkdownToPDF env markdownContent pdfFilename)
  else if isImage env accept file then
    emit (ToastInfo "Converting...");;
    import (ImageImport.convertImageToPDF (imageImport env) file)
  else mret file.

(** The [try] block of [handleFileUpload]; its value is the state it
    leaves.  The inner [finally] clears [isProcessing] on both exits of the
    navigation; on the throwing one the [catch] below clears it again. *)
Definition process (env : Env) (accept : string) (file : Upload.File) (st : State)
  : Trace Call State :=
  let st := {| dragOver := dragOver st; isProcessing := true |} in
  fileToStore ← convert env accept file;
  if MAX_FILE_SIZE env <? Upload.size fileToStore then
    emit (ToastError "File Too Large");;
    mret {| dragOver := dragOver st; isProcessing := false |}
  else
    result ← await (StoreUploadedFile fileToStore) (storeUploadedFile env fileToStore);
    (if success result && truthy (id result) then
       await (Goto ("/pdf-upload?fileId=" +:+ default "" (id result)))
             (goto env ("/pdf-upload?fileId=" +:+ default "" (id result)))
     else emit (ToastError "Storage Error"));;
    mret {| dragOver := dragOver st; isProcessing := false |}.

Definition handleFileUpload (env : Env) (accept : string) (files : list Upload.File)
    (st : State) : State * list Call :=
  match files with
  | [] => (st, [])
  | file :: _ =>
      let st := {| dragOver := false; isProcessing := isProcessing st |} in
      if negb (isPDF env accept file) && negb (isMarkdown env accept file) &&
         negb (isImage env accept file)
      then (st, [ToastError "Invalid File"])
      else if MAX_FILE_SIZE env <? Upload.size file
      then (st, [ToastError "File Too Large"])
      else
        match process env accept file st with
        | (calls, Normal st) => (st, calls)
        | (calls, Throw e) =>
            ({| dragOver := dragOver st; isProcessing := false |},
             calls ++ [ConsoleError e; ToastError "Upload Error"])
        end
  end.

(** [handleDragOver], [handleDragLeave] and [handleDrop]; [files] is
    [e.dataTransfer?.files]. *)
Definition handleDragOver (st : State) : State :=
  if negb (isProcessing st) then {| dragOver := true; isProcessing := isProcessing st |}
  else st.

Definition handleDragLeave (st : State) : State :=
  {| dragOver := false; isProcessing := isProcessing st |}.

Definition handleDrop (env : Env) (accept : string) (files : option (list Upload.File))
    (st : State) : State * list Call :=
  if isProcessing st then (st, [])
  else
    let st := {| dragOver := false; isProcessing := isProcessing st |} in
    match files with
    | Some files => handleFileUpload env accept files st
    | None => (st, [])
    end.

(** The files handed to the store, the pages navigated to and the error
    toasts shown. *)
Definition stored (calls : list Call) : list Upload.File :=
  omap (λ call, match call with StoreUploadedFile file => Some file | _ => None end) calls.

Definition navigations (calls : list Call) : list string :=
  omap (λ call, match call with Goto url => Some url | _ => None end) calls.

Definition errorToasts (calls : list Call) : list string :=
  omap (λ call, match call with ToastError title => Some title | _ => None end) calls.

End Dropzone.

(** * Properties *)

Definition is_thrown {A} (c : Completion A) : Prop := ∃ e, c = Throw e.

(** The native tier is unavailable, or its host call throws. *)
Definition native_tier_fails (P : Platform) (pdfBytes : Bytes) (quality : Z) : Prop :=
  isTauri P = false ∨ is_thrown (invoke_compress_pdf P (Array_from pdfBytes) quality).

(** The library tier fails: loading throws, or saving the loaded document
    throws. *)
Definition library_tier_fails (P : Platform) (pdfBytes : Bytes) : Prop :=
  is_thrown (PDFDocument_load P pdfBytes) ∨
  ∃ doc, PDFDocument_load P pdfBytes = Normal doc ∧ is_thrown (PDFDocument_save P doc).

(** C1. [compressPdfBytes] never throws: on every platform, for every
    input buffer and every quality (given or defaulted, in particular every
    quality in [1,100]) it completes normally with a byte buffer, also when
    the native tier is unavailable or fails and the library tier fails. *)
Theorem compressPdfBytes_never_throws (P : Platform) (pdfBytes : Bytes) (quality : option Z) :
  ∃ out, completion (compressPdfBytes P pdfBytes quality) = Normal out.
Proof.
  unfold compressPdfBytes, completion, try_catch, await, emit, mbind, mret, Run_bind, Run_ret.
  destruct (isTauri P); simpl.
  - destruct (invoke_compress_pdf P _ _) as [ns|e]; simpl; [eauto|].
    destruct (PDFDocument_load P pdfBytes) as [doc|e1]; simpl; [|eauto].
    destruct (PDFDocument_save P doc); simpl; eauto.
  - destruct (PDFDocument_load P pdfBytes) as [doc|e1]; simpl; [|eauto].
    destruct (PDFDocument_save P doc); simpl; eauto.
Qed.

(** C9. Passthrough: when the native tier is unavailable or throws and the
    library tier fails, [compressPdfBytes] returns the input bytes
    unchanged. *)
Theorem compressPdfBytes_passthrough (P : Platform) (pdfBytes : Bytes) (quality : option Z) :
  native_tier_fails P pdfBytes (default 75 quality) →
  library_tier_fails P pdfBytes →
  completion (compressPdfBytes P pdfBytes quality) = Normal pdfBytes.
Proof.
  intros Hnative Hlibrary.
  unfold compressPdfBytes, completion, try_catch, await, emit, mbind, mret, Run_bind, Run_ret.
  assert (Hskip : isTauri P = false ∨
                  ∃ e, invoke_compress_pdf P (Array_from pdfBytes) (default 75 quality) = Throw e)
    by exact Hnative.
  destruct (isTauri P); simpl.
  - destruct Hskip as [?|[e ->]]; [done|]. simpl.
    destruct Hlibrary as [[e1 ->]|(doc & -> & e1 & ->)]; done.
  - destruct Hlibrary as [[e1 ->]|(doc & -> & e1 & ->)]; done.
Qed.

(** ** The archive loop *)

Lemma page_settles_cases pdfViewer page :
  page_settles pdfViewer page →
  (getMergedCanvasForPage pdfViewer page = Normal None ∧ renderedPng pdfViewer page = None) ∨
  (∃ canvas png, getMergedCanvasForPage pdfViewer page = Normal (Some canvas) ∧
                 toBlob_png canvas = Some png ∧ renderedPng pdfViewer page = Some png).
Proof.
  unfold page_settles, page_skipped, page_rendered, renderedPng.
  intros [H|(canvas & png & H & Hpng)]; rewrite H; [by left|right].
  exists canvas, png. by rewrite Hpng.
Qed.

Lemma renders_true pdfViewer page png :
  renderedPng pdfViewer page = Some png → renders pdfViewer page = true.
Proof. intros H. unfold renders. rewrite H. by apply bool_decide_eq_true_2. Qed.

Lemma renders_false pdfViewer page :
  renderedPng pdfViewer page = None → renders pdfViewer page = false.
Proof.
  intros H. unfold renders. rewrite H. apply bool_decide_eq_false_2.
  by intros [? ?].
Qed.

(** One iteration of the loop, by the way its page completes. *)
Lemma zipPages_skip pdfViewer totalPages onProgress page rest zip filesAdded :
  getMergedCanvasForPage pdfViewer page = Normal None →
  zipPages pdfViewer totalPages onProgress (page :: rest) zip filesAdded =
    (CallGetMergedCanvasForPage page :: ConsoleWarn (SkippingPage page) ::
       events (zipPages pdfViewer totalPages onProgress rest zip filesAdded),
     completion (zipPages pdfViewer totalPages onProgress rest zip filesAdded)).
Proof.
  intros Hc. simpl. rewrite Hc. simpl.
  unfold events, completion.
  by destruct (zipPages pdfViewer totalPages onProgress rest zip filesAdded).
Qed.

Lemma zipPages_add pdfViewer totalPages onProgress page rest zip filesAdded canvas png :
  getMergedCanvasForPage pdfViewer page = Normal (Some canvas) →
  toBlob_png canvas = Some png →
  zipPages pdfViewer totalPages onProgress (page :: rest) zip filesAdded =
    (CallGetMergedCanvasForPage page ::
       (if onProgress then [OnProgress (pagePercent page totalPages)] else []) ++
       events (zipPages pdfViewer totalPages onProgress rest
                 (<[pageEntryName page := png]> zip) (filesAdded + 1)),
     completion (zipPages pdfViewer totalPages onProgress rest
                   (<[pageEntryName page := png]> zip) (filesAdded + 1))).
Proof.
  intros Hc Hpng. simpl. rewrite Hc. simpl.
  unfold canvasToPngBlob, events, completion. rewrite Hpng. simpl.
  destruct (zipPages pdfViewer totalPages onProgress rest _ _).
  by destruct onProgress.
Qed.

Lemma zipPages_encode_throws pdfViewer totalPages onProgress page rest zip filesAdded canvas :
  getMergedCanvasForPage pdfViewer page = Normal (Some canvas) →
  toBlob_png canvas = None →
  zipPages pdfViewer totalPages onProgress (page :: rest) zip filesAdded =
    ([CallGetMergedCanvasForPage page], Throw CanvasToBlobFailed).
Proof.
  intros Hc Hpng. simpl. rewrite Hc. simpl.
  unfold canvasToPngBlob. by rewrite Hpng.
Qed.

Lemma zipPages_viewer_throws pdfViewer totalPages onProgress page rest zip filesAdded e :
  getMergedCanvasForPage pdfViewer page = Throw e →
  zipPages pdfViewer totalPages onProgress (page :: rest) zip filesAdded =
    ([CallGetMergedCanvasForPage page], Throw e).
Proof. intros Hc. simpl. by rewrite Hc. Qed.

(** When every page settles, the loop returns normally and its events,
    archive and counter are those of the pure description. *)
Lemma zipPages_settled pdfViewer totalPages onProgress pages :
  Forall (page_settles pdfViewer) pages →
  ∀ zip filesAdded,
    zipPages pdfViewer totalPages onProgress pages zip filesAdded =
      (pages ≫= iterationEvents pdfViewer totalPages onProgress,
       Normal (foldl (addPage pdfViewer) zip pages,
               filesAdded + Z.of_nat (length (filter (λ p, renders pdfViewer p = true) pages)))).
Proof.
  induction 1 as [|page pages Hpage _ IH]; intros zip filesAdded.
  - simpl. by rewrite Z.add_0_r.
  - rewrite bind_cons, filter_cons. cbn [foldl].
    unfold iterationEvents at 1, addPage at 2.
    apply page_settles_cases in Hpage as [[Hc Hr]|(canvas & png & Hc & Hpng & Hr)].
    + rewrite (zipPages_skip _ _ _ _ _ _ _ Hc), IH, Hr, (renders_false _ _ Hr).
      by rewrite decide_False by done.
    + rewrite (zipPages_add _ _ _ _ _ _ _ _ _ Hc Hpng), IH, Hr, (renders_true _ _ _ Hr).
      rewrite decide_True by done.
      unfold events, completion. cbn [fst snd length].
      by rewrite Nat2Z.inj_succ, <- Z.add_1_l, Z.add_assoc.
Qed.

(** ** Percentages *)

Lemma pagePercent_mono totalPages p q :
  0 < totalPages → p ≤ q → pagePercent p totalPages ≤ pagePercent q totalPages.
Proof.
  intros HT Hpq. unfold pagePercent, Math_round.
  apply Qfloor_resp_le, Qplus_le_l.
  apply Qmult_le_compat_r; [|done].
  apply Qmult_le_compat_r; [by rewrite <- Zle_Qle|].
  apply Qinv_le_0_compat. rewrite <- (Zle_Qle 0). lia.
Qed.

Lemma pagePercent_full totalPages : 0 < totalPages → pagePercent totalPages totalPages = 80.
Proof.
  intros HT. unfold pagePercent, Math_round.
  assert (Heq : (inject_Z totalPages / inject_Z totalPages * inject_Z 80 + (1 # 2)
                 == inject_Z 80 + (1 # 2))%Q).
  { unfold Qdiv. rewrite Qmult_inv_r; [ring|].
    unfold Qeq. simpl. lia. }
  by rewrite Heq.
Qed.

Lemma pagePercent_le_80 totalPages p :
  0 < totalPages → p ≤ totalPages → pagePercent p totalPages ≤ 80.
Proof.
  intros HT Hp. rewrite <- (pagePercent_full totalPages HT).
  by apply pagePercent_mono.
Qed.

(** ** What the loop reports and what it never does *)

Lemma zipPages_cases pdfViewer totalPages onProgress page rest zip filesAdded :
  let run := zipPages pdfViewer totalPages onProgress (page :: rest) zip filesAdded in
  (∃ zip' filesAdded' reported,
      let run' := zipPages pdfViewer totalPages onProgress rest zip' filesAdded' in
      events run = reported ++ events run' ∧ completion run = completion run' ∧
      archives reported = [] ∧ exportFileCalls reported = [] ∧
      (progressReports reported = [] ∨
       progressReports reported = [pagePercent page totalPages])) ∨
  (∃ e, run = ([CallGetMergedCanvasForPage page], Throw e)).
Proof.
  intros run. subst run.
  destruct (getMergedCanvasForPage pdfViewer page) as [[canvas|]|e] eqn:Hc.
  - destruct (toBlob_png canvas) as [png|] eqn:Hpng.
    + left. rewrite (zipPages_add _ _ _ _ _ _ _ _ _ Hc Hpng).
      eexists _, _, (_ :: if onProgress then _ else _).
      cbn [events completion fst snd]. split_and!; [done|done|..]; destruct onProgress; auto.
    + right. rewrite (zipPages_encode_throws _ _ _ _ _ _ _ _ Hc Hpng). by eexists.
  - left. rewrite (zipPages_skip _ _ _ _ _ _ _ Hc).
    eexists zip, filesAdded, [_; _]. cbn [events completion fst snd].
    split_and!; [done..|by left].
  - right. rewrite (zipPages_viewer_throws _ _ _ _ _ _ _ _ Hc). by eexists.
Qed.

Lemma zipPages_no_sink pdfViewer totalPages onProgress pages :
  ∀ zip filesAdded,
    let run := zipPages pdfViewer totalPages onProgress pages zip filesAdded in
    archives (events run) = [] ∧ exportFileCalls (events run) = [].
Proof.
  induction pages as [|page rest IH]; intros zip filesAdded; [done|].
  destruct (zipPages_cases pdfViewer totalPages onProgress page rest zip filesAdded)
    as [(zip' & n' & reported & Hev & _ & Ha & Hx & _)|[e He]]; cbn zeta in *.
  - rewrite Hev. unfold archives, exportFileCalls in *. rewrite !omap_app, Ha, Hx.
    apply IH.
  - by rewrite He.
Qed.

Lemma zipPages_reports_from_pages pdfViewer totalPages onProgress pages :
  ∀ zip filesAdded,
    Forall (λ v, ∃ p, p ∈ pages ∧ v = pagePercent p totalPages)
      (progressReports (events (zipPages pdfViewer totalPages onProgress pages zip filesAdded))).
Proof.
  induction pages as [|page rest IH]; intros zip filesAdded; [by constructor|].
  destruct (zipPages_cases pdfViewer totalPages onProgress page rest zip filesAdded)
    as [(zip' & n' & reported & Hev & _ & _ & _ & Hrep)|[e He]]; cbn zeta in *.
  - rewrite Hev. unfold progressReports in *. rewrite omap_app.
    apply Forall_app. split.
    + destruct Hrep as [->| ->]; [by constructor|].
      repeat constructor. exists page. split; [by left|done].
    + eapply Forall_impl; [apply IH|].
      intros v (p & Hp & ->). exists p. split; [by right|done].
  - rewrite He. by constructor.
Qed.

Lemma zipPages_reports_sorted pdfViewer totalPages onProgress pages :
  0 < totalPages → StronglySorted Z.le pages →
  ∀ zip filesAdded,
    StronglySorted Z.le
      (progressReports (events (zipPages pdfViewer totalPages onProgress pages zip filesAdded))).
Proof.
  intros HT. induction 1 as [|page rest _ IH Hle]; intros zip filesAdded; [by constructor|].
  destruct (zipPages_cases pdfViewer totalPages onProgress page rest zip filesAdded)
    as [(zip' & n' & reported & Hev & _ & _ & _ & Hrep)|[e He]]; cbn zeta in *.
  - rewrite Hev. unfold progressReports in *. rewrite omap_app.
    destruct Hrep as [->| ->]; [apply IH|].
    constructor; [apply IH|].
    eapply Forall_impl; [apply zipPages_reports_from_pages|].
    intros v (p & Hp & ->). apply pagePercent_mono; [done|].
    rewrite Forall_forall in Hle. by apply Hle.
  - rewrite He. by constructor.
Qed.

Lemma StronglySorted_seqZ m n : StronglySorted Z.le (seqZ m n).
Proof.
  destruct (decide (0 ≤ n)) as [Hn|Hn]; [|rewrite seqZ_nil by lia; constructor].
  rewrite <- (Z2Nat.id n Hn). clear Hn. generalize (Z.to_nat n). clear n. intros n.
  revert m. induction n as [|n IH]; intros m; [constructor|].
  rewrite seqZ_cons by lia.
  replace (Z.pred (Z.of_nat (S n))) with (Z.of_nat n) by lia.
  constructor; [apply IH|].
  apply Forall_seqZ. lia.
Qed.

(** ** The steps after the loop *)

Lemma exportAllPagesAsPngZip_loop_throws P pdfViewer totalPages baseName onProgress t e :
  zipPages pdfViewer totalPages onProgress (seqZ 1 totalPages) ∅ 0 = (t, Throw e) →
  exportAllPagesAsPngZip P pdfViewer totalPages baseName onProgress = (t, Throw e).
Proof. intros Hloop. unfold exportAllPagesAsPngZip. by rewrite Hloop. Qed.

Lemma exportAllPagesAsPngZip_after_loop P pdfViewer totalPages baseName onProgress
    t zip filesAdded :
  zipPages pdfViewer totalPages onProgress (seqZ 1 totalPages) ∅ 0 =
    (t, Normal (zip, filesAdded)) →
  exportAllPagesAsPngZip P pdfViewer totalPages baseName onProgress =
    if filesAdded =? 0 then (t, Throw EmptyZip)
    else
      let assembled := t ++ CallGenerateAsync zip :: [] in
      match JSZip_generateAsync P zip with
      | Throw e => (assembled, Throw e)
      | Normal zipBytes =>
          let filename := baseName +:+ "_pages.zip" in
          let handed := assembled ++ (if onProgress then [OnProgress 95] else []) ++
                        [CallExportFile zipBytes filename "application/zip"] in
          match PDFExporter_exportFile P zipBytes filename "application/zip" with
          | Throw e => (handed, Throw e)
          | Normal saved =>
              (handed ++ (if saved && onProgress then [OnProgress 100] else []),
               Normal saved)
          end
      end.
Proof.
  intros Hloop. unfold exportAllPagesAsPngZip. rewrite Hloop. simpl.
  destruct (filesAdded =? 0); simpl; [by rewrite app_nil_r|].
  destruct (JSZip_generateAsync P zip) as [zipBytes|e]; simpl; [|done].
  destruct (PDFExporter_exportFile P zipBytes _ _) as [saved|e]; simpl.
  - destruct saved, onProgress; simpl; by rewrite <- ?app_assoc, ?app_nil_r.
  - destruct onProgress; simpl; by rewrite <- ?app_assoc.
Qed.

(** ** Entry names *)

Lemma string_length_app (s1 s2 : string) :
  String.length (s1 +:+ s2) = (String.length s1 + String.length s2)%nat.
Proof. induction s1 as [|c s1 IH]; simpl; [done|]. by rewrite IH. Qed.

Lemma string_app_inj_r (t s1 s2 : string) : s1 +:+ t = s2 +:+ t → s1 = s2.
Proof.
  revert s2. induction s1 as [|c s1 IH]; intros [|d s2] Heq.
  - done.
  - apply (f_equal String.length) in Heq.
    rewrite !string_length_app in Heq. simpl in Heq. lia.
  - apply (f_equal String.length) in Heq.
    rewrite !string_length_app in Heq. simpl in Heq. lia.
  - change (String c (s1 +:+ t) = String d (s2 +:+ t)) in Heq.
    injection Heq as -> Heq. f_equal. by apply IH.
Qed.

Lemma pageEntryName_inj : Inj (=) (=) pageEntryName.
Proof.
  intros p q Heq. unfold pageEntryName in Heq.
  apply (inj (String.append "page")) in Heq.
  apply string_app_inj_r in Heq.
  by apply (inj pretty) in Heq.
Qed.

(** ** The pure description of the loop *)



Lemma page_skipped_not_rendered pdfViewer page :
  page_skipped pdfViewer page → renders pdfViewer page = false.
Proof.
  unfold page_skipped. intros Hc. apply renders_false.
  unfold renderedPng. by rewrite Hc.
Qed.


Lemma dom_addPages pdfViewer pages : ∀ zip,
  dom (foldl (addPage pdfViewer) zip pages) =
    dom zip ∪ list_to_set (pageEntryName <$> filter (λ p, renders pdfViewer p = true) pages).
Proof.
  induction pages as [|page pages IH]; intros zip; simpl.
  { by rewrite (right_id_L ∅ (∪)). }
  rewrite IH, filter_cons. unfold addPage.
  destruct (renderedPng pdfViewer page) as [png|] eqn:Hr.
  - rewrite (renders_true _ _ _ Hr), decide_True by done.
    rewrite dom_insert_L, fmap_cons, list_to_set_cons.
    by rewrite (assoc_L (∪)), (comm_L (∪) (dom zip)).
  - rewrite (renders_false _ _ Hr), decide_False by done. done.
Qed.

Lemma lookup_addPages_keep pdfViewer pages page png : ∀ zip,
  renderedPng pdfViewer page = Some png →
  zip !! pageEntryName page = Some png →
  foldl (addPage pdfViewer) zip pages !! pageEntryName page = Some png.
Proof.
  induction pages as [|q pages IH]; intros zip Hr Hzip; simpl; [done|].
  apply IH; [done|]. unfold addPage.
  destruct (renderedPng pdfViewer q) as [png'|] eqn:Hq; [|done].
  destruct (decide (q = page)) as [->|Hne].
  - rewrite lookup_insert_eq. congruence.
  - rewrite lookup_insert_ne; [done|]. intros Heq. by apply pageEntryName_inj in Heq.
Qed.

Lemma lookup_addPages pdfViewer pages page png zip :
  page ∈ pages →
  renderedPng pdfViewer page = Some png →
  foldl (addPage pdfViewer) zip pages !! pageEntryName page = Some png.
Proof.
  revert zip. induction pages as [|q pages IH]; intros zip Hin Hr; [by inversion Hin|].
  simpl. apply elem_of_cons in Hin as [->|Hin]; [|by apply IH].
  apply lookup_addPages_keep; [done|].
  unfold addPage. rewrite Hr. by rewrite lookup_insert_eq.
Qed.

Lemma size_addPages pdfViewer pages :
  NoDup pages →
  size (foldl (addPage pdfViewer) (∅ : gmap string Bytes) pages) =
    length (filter (λ p, renders pdfViewer p = true) pages).
Proof.
  intros Hnd. rewrite <- size_dom, dom_addPages, dom_empty_L, (left_id_L ∅ (∪)).
  rewrite size_list_to_set, length_fmap; [done|].
  apply (@NoDup_fmap_2 _ _ pageEntryName pageEntryName_inj). by apply NoDup_filter.
Qed.

(** ** Observations on a whole export *)

Lemma zipPages_all_settle pdfViewer totalPages onProgress :
  (∀ page, 1 ≤ page ≤ totalPages → page_settles pdfViewer page) →
  zipPages pdfViewer totalPages onProgress (seqZ 1 totalPages) ∅ 0 =
    (seqZ 1 totalPages ≫= iterationEvents pdfViewer totalPages onProgress,
     Normal (foldl (addPage pdfViewer) ∅ (seqZ 1 totalPages),
             Z.of_nat (length (filter (λ p, renders pdfViewer p = true) (seqZ 1 totalPages))))).
Proof.
  intros Hsettle. rewrite zipPages_settled; [done|].
  apply Forall_seqZ. intros page Hpage. apply Hsettle. lia.
Qed.

Lemma filter_renders_none pdfViewer pages :
  Forall (page_skipped pdfViewer) pages →
  filter (λ p, renders pdfViewer p = true) pages = [].
Proof.
  induction 1 as [|page pages Hpage _ IH]; [done|].
  rewrite filter_cons, decide_False; [done|].
  by rewrite (page_skipped_not_rendered _ _ Hpage).
Qed.


(** Once the loop has returned with at least one file, the export hands
    exactly one archive to JSZip; what follows depends on JSZip and on the
    file sink only. *)
Lemma exportAllPagesAsPngZip_observed P pdfViewer totalPages baseName onProgress
    t zip filesAdded :
  zipPages pdfViewer totalPages onProgress (seqZ 1 totalPages) ∅ 0 =
    (t, Normal (zip, filesAdded)) →
  filesAdded ≠ 0 →
  let run := exportAllPagesAsPngZip P pdfViewer totalPages baseName onProgress in
  let at95 := if onProgress then [95] else [] in
  archives (events run) = [zip] ∧
  ((is_thrown (completion run) ∧
    progressReports (events run) = progressReports t ∧
    exportFileCalls (events run) = []) ∨
   (∃ zipBytes, let call := (zipBytes, baseName +:+ "_pages.zip", "application/zip") in
      exportFileCalls (events run) = [call] ∧
      ((is_thrown (PDFExporter_exportFile P call.1.1 call.1.2 call.2) ∧
        is_thrown (completion run) ∧
        progressReports (events run) = progressReports t ++ at95) ∨
       (∃ saved, PDFExporter_exportFile P call.1.1 call.1.2 call.2 = Normal saved ∧
          completion run = Normal saved ∧
          progressReports (events run) =
            progressReports t ++ at95 ++ (if saved && onProgress then [100] else []))))).
Proof.
  intros Hloop Hn run at95. subst run at95.
  destruct (zipPages_no_sink pdfViewer totalPages onProgress (seqZ 1 totalPages) ∅ 0)
    as [Ha Hx]. rewrite Hloop in Ha, Hx. cbn [events fst] in Ha, Hx.
  rewrite (exportAllPagesAsPngZip_after_loop _ _ _ _ _ _ _ _ Hloop).
  apply Z.eqb_neq in Hn. rewrite Hn. cbn zeta.
  unfold archives, exportFileCalls, progressReports in *.
  destruct (JSZip_generateAsync P zip) as [zipBytes|e].
  - destruct (PDFExporter_exportFile P zipBytes _ _) as [saved|e] eqn:Hsink;
      cbn [events completion fst snd];
      rewrite ?omap_app, ?Ha, ?Hx.
    + split; [destruct onProgress, saved; reflexivity|]. right. exists zipBytes. cbn zeta.
      split; [destruct onProgress, saved; reflexivity|]. right. exists saved.
      cbn [fst snd]. split_and!; [done..|]. destruct onProgress, saved; simpl; by rewrite ?app_nil_r, <- ?app_assoc.
    + split; [destruct onProgress; reflexivity|]. right. exists zipBytes. cbn zeta.
      split; [destruct onProgress; reflexivity|]. left. cbn [fst snd].
      split_and!; [by eexists..|]. destruct onProgress; simpl; by rewrite ?app_nil_r, <- ?app_assoc.
  - cbn [events completion fst snd]. rewrite ?omap_app, ?Ha, ?Hx.
    split; [done|]. left. split_and!; [by eexists| |done].
    simpl. by rewrite app_nil_r.
Qed.

(** * The archive export *)

(** C4. If the viewer returns [null] for every page 1..totalPages, the
    export fails with the empty-archive error and the file sink
    ([PDFExporter.exportFile]) is never called. *)
Theorem exportAllPagesAsPngZip_all_pages_fail
    (P : Platform) (pdfViewer : PdfViewer) (totalPages : Z) (baseName : string)
    (onProgress : bool) :
  (∀ page, 1 ≤ page ≤ totalPages → getMergedCanvasForPage pdfViewer page = Normal None) →
  let run := exportAllPagesAsPngZip P pdfViewer totalPages baseName onProgress in
  completion run = Throw EmptyZip ∧ exportFileCalls (events run) = [].
Proof.
  intros Hnull run. subst run.
  assert (Hskip : Forall (page_skipped pdfViewer) (seqZ 1 totalPages)).
  { apply Forall_seqZ. intros page Hpage. apply Hnull. lia. }
  assert (Hloop := zipPages_all_settle pdfViewer totalPages onProgress).
  rewrite (filter_renders_none _ _ Hskip) in Hloop.
  specialize (Hloop (λ page Hpage, or_introl (Hnull page Hpage))).
  destruct (zipPages_no_sink pdfViewer totalPages onProgress (seqZ 1 totalPages) ∅ 0)
    as [_ Hx].
  rewrite Hloop in Hx.
  by rewrite (exportAllPagesAsPngZip_after_loop _ _ _ _ _ _ _ _ Hloop).
Qed.


(** ** Progress *)

Lemma zipPages_reports_facts pdfViewer totalPages onProgress :
  let reports :=
    progressReports (events (zipPages pdfViewer totalPages onProgress
                               (seqZ 1 totalPages) ∅ 0)) in
  StronglySorted Z.le reports ∧ Forall (λ v, v ≤ 80) reports.
Proof.
  cbn zeta. destruct (decide (0 < totalPages)) as [HT|HT].
  - split.
    + apply zipPages_reports_sorted; [done|apply StronglySorted_seqZ].
    + eapply Forall_impl; [apply zipPages_reports_from_pages|].
      intros v (p & Hp & ->). apply elem_of_seqZ in Hp.
      apply pagePercent_le_80; lia.
  - rewrite seqZ_nil by lia. split; constructor.
Qed.

Lemma sinkReports_nil P t saved : exportFileCalls t = [] → ¬ sinkReports P t saved.
Proof. intros Hx (data & filename & mime & Hin & _). rewrite Hx in Hin. by inversion Hin. Qed.

Lemma sinkReports_singleton P t data filename mime saved :
  exportFileCalls t = [(data, filename, mime)] →
  sinkReports P t saved ↔ PDFExporter_exportFile P data filename mime = Normal saved.
Proof.
  intros Hx. unfold sinkReports. rewrite Hx. split.
  - intros (d & f & m & Hin & Hsink). apply list_elem_of_singleton in Hin. congruence.
  - intros Hsink. exists data, filename, mime. split; [by apply list_elem_of_singleton|done].
Qed.

Lemma last_le_80_not_100 (reports : list Z) :
  Forall (λ v, v ≤ 80) reports → last reports ≠ Some 100.
Proof.
  intros Hle Hlast. apply last_Some_elem_of in Hlast.
  rewrite Forall_forall in Hle. specialize (Hle _ Hlast). lia.
Qed.

Lemma StronglySorted_snoc_95 (reports : list Z) :
  StronglySorted Z.le reports → Forall (λ v, v ≤ 80) reports →
  StronglySorted Z.le (reports ++ [95]).
Proof.
  intros Hs Hle. apply StronglySorted_app_2; [|done|repeat constructor].
  intros x1 x2 Hx1 Hx2. apply list_elem_of_singleton in Hx2 as ->.
  rewrite Forall_forall in Hle. specialize (Hle _ Hx1). lia.
Qed.

Lemma StronglySorted_snoc_95_100 (reports : list Z) :
  StronglySorted Z.le reports → Forall (λ v, v ≤ 80) reports →
  StronglySorted Z.le (reports ++ [95; 100]).
Proof.
  intros Hs Hle. apply StronglySorted_app_2; [|done|repeat constructor; lia].
  intros x1 x2 Hx1 Hx2. rewrite Forall_forall in Hle. specialize (Hle _ Hx1).
  apply elem_of_cons in Hx2 as [->|Hx2]; [lia|].
  apply list_elem_of_singleton in Hx2 as ->. lia.
Qed.

(** A run that stops before the sink is called meets the contract. *)
Lemma progressContract_before_sink P t c :
  StronglySorted Z.le (progressReports t) →
  Forall (λ v, v ≤ 80) (progressReports t) →
  exportFileCalls t = [] →
  progressContract P (t, c).
Proof.
  intros Hs Hle Hx. unfold progressContract. cbn [events completion fst snd].
  split_and!; [done| |].
  - split; [intros Hlast|intros Hsink].
    + by destruct (last_le_80_not_100 _ Hle).
    + by destruct (sinkReports_nil P t true Hx).
  - intros Hsink. by destruct (sinkReports_nil P t false Hx).
Qed.

(** C5. With a progress callback, the progress values reported by an
    archive export never decrease; the sequence ends at 100 if and only if
    the file sink reports success; and if the file sink reports
    cancellation the export returns [false] and the last reported value is
    95. *)
Theorem exportAllPagesAsPngZip_progress
    (P : Platform) (pdfViewer : PdfViewer) (totalPages : Z) (baseName : string) :
  let run := exportAllPagesAsPngZip P pdfViewer totalPages baseName true in
  let reports := progressReports (events run) in
  StronglySorted Z.le reports ∧
  (last reports = Some 100 ↔ sinkReports P (events run) true) ∧
  (sinkReports P (events run) false →
     completion run = Normal false ∧ last reports = Some 95).
Proof.
  change (progressContract P (exportAllPagesAsPngZip P pdfViewer totalPages baseName true)).
  destruct (zipPages_reports_facts pdfViewer totalPages true) as [Hs Hle].
  destruct (zipPages_no_sink pdfViewer totalPages true (seqZ 1 totalPages) ∅ 0) as [_ Hx].
  cbn zeta in Hs, Hle, Hx.
  destruct (zipPages pdfViewer totalPages true (seqZ 1 totalPages) ∅ 0)
    as [t [[zip filesAdded]|e]] eqn:Hloop; cbn [events fst] in Hs, Hle, Hx.
  2: { rewrite (exportAllPagesAsPngZip_loop_throws _ _ _ _ _ _ _ Hloop).
       by apply progressContract_before_sink. }
  destruct (decide (filesAdded = 0)) as [->|Hn].
  { rewrite (exportAllPagesAsPngZip_after_loop _ _ _ _ _ _ _ _ Hloop).
    by apply progressContract_before_sink. }
  destruct (exportAllPagesAsPngZip_observed P _ _ baseName _ _ _ _ Hloop Hn)
    as [_ [(Hthrown & Hrep & Hcalls)|(zipBytes & Hcalls & Hsink)]]; cbn zeta in *.
  - destruct (exportAllPagesAsPngZip P pdfViewer totalPages baseName true) as [t' c'].
    cbn [events completion fst snd] in *.
    apply progressContract_before_sink; by rewrite ?Hrep.
  - unfold progressContract. cbn [fst snd] in Hsink.
    rewrite !(sinkReports_singleton _ _ _ _ _ _ Hcalls).
    destruct Hsink as [([e He] & _ & ->)|(saved & Hsaved & -> & ->)].
    + rewrite He, last_snoc. split_and!.
      * by apply StronglySorted_snoc_95.
      * split; intros; congruence.
      * intros; congruence.
    + rewrite Hsaved. destruct saved; cbn [andb].
      * rewrite (app_assoc _ [95] [100]), last_snoc, <- app_assoc. split_and!.
        -- by apply StronglySorted_snoc_95_100.
        -- done.
        -- intros; congruence.
      * rewrite app_nil_r, last_snoc. split_and!.
        -- by apply StronglySorted_snoc_95.
        -- split; intros; congruence.
        -- done.
Qed.






(** * The annotation merger *)

Lemma capturePages_cases pdfViewer captureAll pageNumber rest exporter :
  let run := capturePages pdfViewer captureAll (pageNumber :: rest) exporter in
  (∃ e, run = ([CallPageHasAnnotations pageNumber], Throw e) ∧
        pageHasAnnotations pdfViewer pageNumber = Throw e) ∨
  (∃ e, run = ([CallPageHasAnnotations pageNumber;
                CallGetMergedCanvasForPage pageNumber], Throw e) ∧
        needsCapture pdfViewer captureAll pageNumber ∧
        getMergedCanvasForPage pdfViewer pageNumber = Throw e) ∨
  (let run' := capturePages pdfViewer captureAll rest exporter in
   events run = CallPageHasAnnotations pageNumber :: events run' ∧
   completion run = completion run' ∧
   captureAll = false ∧ pageHasAnnotations pdfViewer pageNumber = Normal false) ∨
  (let run' := capturePages pdfViewer captureAll rest
                 (captured pdfViewer exporter pageNumber) in
   events run = CallPageHasAnnotations pageNumber ::
                CallGetMergedCanvasForPage pageNumber :: events run' ∧
   completion run = completion run' ∧
   needsCapture pdfViewer captureAll pageNumber ∧
   ¬ is_thrown (getMergedCanvasForPage pdfViewer pageNumber)).
Proof.
  cbn zeta. unfold needsCapture, captured, mergedCanvas, events, completion. simpl.
  destruct (pageHasAnnotations pdfViewer pageNumber) as [has|e] eqn:Hhas; simpl;
    [|left; by exists e].
  right.
  assert (Hneed : has || captureAll = true → captureAll = true ∨ Normal has = Normal true).
  { destruct has, captureAll; auto. }
  destruct (has || captureAll) eqn:Hor; simpl.
  - specialize (Hneed eq_refl).
    destruct (getMergedCanvasForPage pdfViewer pageNumber) as [[canvas|]|e] eqn:Hc; simpl.
    + right; right.
      destruct (capturePages pdfViewer captureAll rest _). split_and!; [done..|].
      by intros [? ?].
    + right; right.
      destruct (capturePages pdfViewer captureAll rest _). split_and!; [done..|].
      by intros [? ?].
    + left. by exists e.
  - right; left. apply orb_false_iff in Hor as [-> ->].
    by destruct (capturePages pdfViewer false rest _).
Qed.

(** The loop asks for the canvas of pages that need capture only, and
    touches the mapping at those pages only. *)
Lemma capturePages_frame pdfViewer captureAll pageNumbers : ∀ exporter,
  let run := capturePages pdfViewer captureAll pageNumbers exporter in
  (∀ page, CallGetMergedCanvasForPage page ∈ events run →
           page ∈ pageNumbers ∧ needsCapture pdfViewer captureAll page) ∧
  (∀ exporter', completion run = Normal exporter' →
     originalPDF exporter' = originalPDF exporter ∧
     ∀ page, pageCanvases exporter' !! page = pageCanvases exporter !! page ∨
             (page ∈ pageNumbers ∧ needsCapture pdfViewer captureAll page)).
Proof.
  induction pageNumbers as [|pageNumber rest IH]; intros exporter; cbn zeta.
  { split.
    - intros page Hin. by inversion Hin.
    - intros exporter' [= <-]. auto. }
  destruct (capturePages_cases pdfViewer captureAll pageNumber rest exporter)
    as [(e & -> & _)|[(e & -> & Hneed & _)|[(Hev & Hc & _ & _)|(Hev & Hc & Hneed & _)]]];
    cbn zeta in *.
  - split; [|done]. intros page Hin. apply list_elem_of_singleton in Hin. done.
  - split; [|done]. intros page Hin.
    apply elem_of_cons in Hin as [?|Hin]; [done|].
    apply list_elem_of_singleton in Hin as [= ->]. split; [by left|done].
  - rewrite Hev, Hc. destruct (IH exporter) as [IHev IHc]. split.
    + intros page Hin. apply elem_of_cons in Hin as [?|Hin]; [done|].
      destruct (IHev page Hin). split; [by right|done].
    + intros exporter' Hex. destruct (IHc exporter' Hex) as [Ho Hmap].
      split; [done|]. intros page.
      destruct (Hmap page) as [?|[? ?]]; [by left|right]. split; [by right|done].
  - rewrite Hev, Hc.
    destruct (IH (captured pdfViewer exporter pageNumber)) as [IHev IHc]. split.
    + intros page Hin. apply elem_of_cons in Hin as [?|Hin]; [done|].
      apply elem_of_cons in Hin as [[= ->]|Hin]; [split; [by left|done]|].
      destruct (IHev page Hin). split; [by right|done].
    + intros exporter' Hex. destruct (IHc exporter' Hex) as [Ho Hmap].
      split.
      { rewrite Ho. unfold captured. by destruct (mergedCanvas pdfViewer pageNumber). }
      intros page. destruct (Hmap page) as [Heq|[? ?]]; [|right; split; [by right|done]].
      rewrite Heq. unfold captured.
      destruct (mergedCanvas pdfViewer pageNumber) as [canvas|]; [|by left].
      destruct (decide (pageNumber = page)) as [->|Hne].
      * right. split; [by left|done].
      * left. simpl. by rewrite lookup_insert_ne.
Qed.

(** C10. With the capture-all-pages flag unset, a page for which
    [pageHasAnnotations] answers false never has its merged canvas
    requested and is absent from the exporter's page-to-canvas mapping.
    And in every build, whatever the viewer answers and whatever the flag,
    only pages within 1..totalPages appear in that mapping. *)
Theorem buildAnnotatedPdfExporter_skips_unannotated_pages
    (bytes : Bytes) (pdfViewer : PdfViewer) (totalPages : Z)
    (options : option BuildOptions) :
  let run := buildAnnotatedPdfExporter bytes pdfViewer totalPages options in
  (captureAllPagesOf options = false →
   ∀ page, pageHasAnnotations pdfViewer page = Normal false →
     (CallGetMergedCanvasForPage page ∉ events run) ∧
     ∀ exporter, completion run = Normal exporter →
       pageCanvases exporter !! page = None) ∧
  (∀ exporter q, completion run = Normal exporter →
     is_Some (pageCanvases exporter !! q) → 1 ≤ q ≤ totalPages).
Proof.
  intros run. subst run. unfold buildAnnotatedPdfExporter.
  destruct (capturePages_frame pdfViewer (captureAllPagesOf options) (seqZ 1 totalPages)
              (setOriginalPDF bytes new_PDFExporter)) as [Hev Hc]. cbn zeta in Hev, Hc.
  split.
  - intros Hflag page Hhas. rewrite Hflag in Hev, Hc |- *.
    assert (Hnot : ¬ needsCapture pdfViewer false page).
    { intros [?|?]; congruence. }
    split.
    + intros Hin. by destruct (Hev page Hin).
    + intros exporter Hex. destruct (Hc exporter Hex) as [_ Hmap].
      by destruct (Hmap page) as [->|[_ ?]].
  - intros exporter q Hex [canvas Hq]. destruct (Hc exporter Hex) as [_ Hmap].
    destruct (Hmap q) as [Heq|[Hin _]].
    + rewrite Hq in Heq. simpl in Heq. by rewrite lookup_empty in Heq.
    + apply elem_of_seqZ in Hin. lia.
Qed.

Lemma buildAnnotatedPdfExporter_skips_unannotated_pages_witness :
  ((CallGetMergedCanvasForPage 1 ∉
      events (buildAnnotatedPdfExporter [] (sampleViewer [] [2]) 3 None)) ∧
   ∀ exporter,
     completion (buildAnnotatedPdfExporter [] (sampleViewer [] [2]) 3 None) =
       Normal exporter →
     pageCanvases exporter !! 1 = None) ∧
  (∀ exporter q,
     completion (buildAnnotatedPdfExporter [] (sampleViewer [] [1; 2; 3]) 3 None) =
       Normal exporter →
     is_Some (pageCanvases exporter !! q) → 1 ≤ q ≤ 3).
Proof.
  split.
  - apply (proj1 (buildAnnotatedPdfExporter_skips_unannotated_pages
                    [] (sampleViewer [] [2]) 3 None) eq_refl 1 eq_refl).
  - apply (proj2 (buildAnnotatedPdfExporter_skips_unannotated_pages
                    [] (sampleViewer [] [1; 2; 3]) 3 None)).
Defined.

(** ** Capturing all pages *)

Lemma capturePages_capture_all pdfViewer pageNumbers :
  Forall (λ page, ¬ is_thrown (pageHasAnnotations pdfViewer page) ∧
                  ¬ is_thrown (getMergedCanvasForPage pdfViewer page)) pageNumbers →
  ∀ exporter,
    capturePages pdfViewer true pageNumbers exporter =
      (pageNumbers ≫= (λ page, [CallPageHasAnnotations page;
                                 CallGetMergedCanvasForPage page]),
       Normal (foldl (captured pdfViewer) exporter pageNumbers)).
Proof.
  induction 1 as [|pageNumber rest [Hhas Hget] _ IH]; intros exporter; [done|].
  destruct (capturePages_cases pdfViewer true pageNumber rest exporter)
    as [(e & _ & He)|[(e & _ & _ & He)|[(_ & _ & ? & _)|(Hev & Hc & _ & _)]]];
    cbn zeta in *.
  - destruct Hhas. by exists e.
  - destruct Hget. by exists e.
  - done.
  - rewrite IH in Hev, Hc. cbn [events completion fst snd] in Hev, Hc.
    rewrite bind_cons. cbn [foldl].
    destruct (capturePages pdfViewer true (pageNumber :: rest) exporter) as [t c].
    cbn [events completion fst snd] in Hev, Hc. by subst.
Qed.

Lemma lookup_captured_keep pdfViewer pageNumbers page canvas : ∀ exporter,
  mergedCanvas pdfViewer page = Some canvas →
  pageCanvases exporter !! page = Some canvas →
  pageCanvases (foldl (captured pdfViewer) exporter pageNumbers) !! page = Some canvas.
Proof.
  induction pageNumbers as [|q rest IH]; intros exporter Hm Hex; [done|].
  cbn [foldl]. apply IH; [done|]. unfold captured.
  destruct (mergedCanvas pdfViewer q) as [canvas'|] eqn:Hq; [|done]. simpl.
  destruct (decide (q = page)) as [->|Hne].
  - rewrite lookup_insert_eq. congruence.
  - by rewrite lookup_insert_ne.
Qed.

Lemma lookup_captured_in pdfViewer pageNumbers page canvas : ∀ exporter,
  page ∈ pageNumbers →
  mergedCanvas pdfViewer page = Some canvas →
  pageCanvases (foldl (captured pdfViewer) exporter pageNumbers) !! page = Some canvas.
Proof.
  induction pageNumbers as [|q rest IH]; intros exporter Hin Hm; [by inversion Hin|].
  cbn [foldl]. apply elem_of_cons in Hin as [->|Hin]; [|by apply IH].
  apply lookup_captured_keep; [done|].
  unfold captured. rewrite Hm. simpl. by rewrite lookup_insert_eq.
Qed.

Lemma lookup_captured_out pdfViewer pageNumbers page : ∀ exporter,
  page ∉ pageNumbers ∨ mergedCanvas pdfViewer page = None →
  pageCanvases (foldl (captured pdfViewer) exporter pageNumbers) !! page =
    pageCanvases exporter !! page.
Proof.
  induction pageNumbers as [|q rest IH]; intros exporter Hout; [done|].
  cbn [foldl]. rewrite IH.
  - unfold captured. destruct (mergedCanvas pdfViewer q) as [canvas|] eqn:Hq; [|done].
    simpl. rewrite lookup_insert_ne; [done|].
    intros ->. destruct Hout as [Hout|Hout]; [|congruence].
    apply Hout. by left.
  - destruct Hout as [Hout|Hout]; [left|by right].
    intros Hin. apply Hout. by right.
Qed.

Lemma originalPDF_captured pdfViewer pageNumbers : ∀ exporter,
  originalPDF (foldl (captured pdfViewer) exporter pageNumbers) = originalPDF exporter.
Proof.
  induction pageNumbers as [|q rest IH]; intros exporter; [done|].
  cbn [foldl]. rewrite IH. unfold captured. by destruct (mergedCanvas pdfViewer q).
Qed.

(** C6, as stated, fails: with the flag set the annotation query is still
    made, once per page, before each canvas request. *)
Lemma captureAllRun_queries_annotations :
  events captureAllRun =
    [CallPageHasAnnotations 1; CallGetMergedCanvasForPage 1;
     CallPageHasAnnotations 2; CallGetMergedCanvasForPage 2] ∧
  ¬ (∀ page, CallPageHasAnnotations page ∉ events captureAllRun).
Proof.
  assert (Hev : events captureAllRun =
    [CallPageHasAnnotations 1; CallGetMergedCanvasForPage 1;
     CallPageHasAnnotations 2; CallGetMergedCanvasForPage 2]) by reflexivity.
  split; [exact Hev|].
  intros Hnone. apply (Hnone 1). rewrite Hev. by left.
Qed.

(** C6, amended.  With the capture-all-pages flag set, [pageHasAnnotations]
    is still called for every page 1..totalPages, but its answer is not
    used: provided no call throws, each query is followed by the request of
    that page's merged canvas, and the mapping holds exactly the pages
    1..totalPages for which a canvas was returned. *)
Theorem buildAnnotatedPdfExporter_capture_all
    (bytes : Bytes) (pdfViewer : PdfViewer) (totalPages : Z)
    (options : option BuildOptions) :
  captureAllPagesOf options = true →
  (∀ page, 1 ≤ page ≤ totalPages →
     ¬ is_thrown (pageHasAnnotations pdfViewer page) ∧
     ¬ is_thrown (getMergedCanvasForPage pdfViewer page)) →
  let run := buildAnnotatedPdfExporter bytes pdfViewer totalPages options in
  events run = seqZ 1 totalPages ≫= (λ page, [CallPageHasAnnotations page;
                                               CallGetMergedCanvasForPage page]) ∧
  ∃ exporter,
    completion run = Normal exporter ∧
    originalPDF exporter = Some bytes ∧
    ∀ page, pageCanvases exporter !! page =
              if bool_decide (1 ≤ page ≤ totalPages)
              then mergedCanvas pdfViewer page else None.
Proof.
  intros Hflag Hsettle run. subst run. unfold buildAnnotatedPdfExporter.
  rewrite Hflag, capturePages_capture_all.
  2: { apply Forall_seqZ. intros page Hpage. apply Hsettle. lia. }
  split; [done|]. eexists. split; [done|]. split.
  - by rewrite originalPDF_captured.
  - intros page. case_bool_decide as Hpage.
    + destruct (mergedCanvas pdfViewer page) as [canvas|] eqn:Hm.
      * apply lookup_captured_in; [|done]. apply elem_of_seqZ. lia.
      * rewrite lookup_captured_out by by right. done.
    + rewrite lookup_captured_out; [done|].
      left. rewrite elem_of_seqZ. lia.
Qed.

Lemma buildAnnotatedPdfExporter_capture_all_witness :
  events captureAllRun =
    seqZ 1 2 ≫= (λ page, [CallPageHasAnnotations page; CallGetMergedCanvasForPage page]) ∧
  ∃ exporter,
    completion captureAllRun = Normal exporter ∧
    originalPDF exporter = Some [] ∧
    ∀ page, pageCanvases exporter !! page =
              if bool_decide (1 ≤ page ≤ 2)
              then mergedCanvas (sampleViewer [] []) page else None.
Proof.
  apply (buildAnnotatedPdfExporter_capture_all
           [] (sampleViewer [] []) 2 (Some {| captureAllPages := Some true |})).
  - reflexivity.
  - intros page _. split; intros [e He]; discriminate He.
Defined.

(** * The source resolver *)

Lemma replace_pdf_suffix_spec (s : string) :
  ∃ ext, s = replace_pdf_suffix s +:+ ext ∧
         ((ext = "" ∧ pdfExtensionFree s) ∨ toLowerCase ext = ".pdf").
Proof.
  unfold pdfExtensionFree.
  induction s as [|c rest (ext & Hext & Hcase)].
  - exists "". split; [done|]. left. by split.
  - cbn [replace_pdf_suffix].
    destruct (is_dot_pdf (String c rest)) eqn:Hdot.
    + exists (String c rest). split; [done|]. right.
      by apply String.eqb_eq in Hdot.
    + exists ext. split.
      * change (String c rest = String c (replace_pdf_suffix rest +:+ ext)).
        by f_equal.
      * destruct Hcase as [[-> Hfree]|Hext']; [left|by right].
        split; [done|]. unfold is_dot_pdf in Hdot.
        cbn [toLowerCase endsWith] in *. by rewrite Hdot.
Qed.

Lemma getPdfBytesAndName_originalName P currentFile filenameExtractor result :
  completion (getPdfBytesAndName P currentFile filenameExtractor) = Normal result →
  originalName result = replace_pdf_suffix (sourceName P currentFile filenameExtractor).
Proof.
  unfold getPdfBytesAndName, sourceName, completion.
  destruct currentFile as [file|url]; simpl.
  - destruct (file_arrayBuffer file) as [bytes|e]; simpl; [|done].
    by intros [= <-].
  - destruct (fetch P url) as [response|e]; simpl; [|done].
    destruct (ok response); simpl; [|done].
    destruct (response_arrayBuffer response) as [bytes|e]; simpl; [|done].
    by intros [= <-].
Qed.

(** C7, as stated, fails: a file named scan.pdf.pdf resolves to the base
    name scan.pdf, which still ends in an extension. *)
Lemma scanFile_keeps_an_extension :
  completion (getPdfBytesAndName (samplePlatform true) (IsFile scanFile) None) =
    Normal {| pdfBytes := []; originalName := "scan.pdf" |} ∧
  ¬ pdfExtensionFree "scan.pdf".
Proof. split; [reflexivity|]. unfold pdfExtensionFree. by vm_compute. Qed.

(** C7, amended.  For every source that [getPdfBytesAndName] accepts, the
    base name is the source's file name with one trailing [.pdf], in any
    letter case, removed: either the name has no such suffix and is returned
    as it is, or the name is the base name followed by that suffix. *)
Theorem getPdfBytesAndName_strips_one_suffix
    (P : Platform) (currentFile : CurrentFile)
    (filenameExtractor : option (string → string)) (result : PdfBytesAndName) :
  completion (getPdfBytesAndName P currentFile filenameExtractor) = Normal result →
  ∃ ext,
    sourceName P currentFile filenameExtractor = originalName result +:+ ext ∧
    ((ext = "" ∧ pdfExtensionFree (sourceName P currentFile filenameExtractor)) ∨
     toLowerCase ext = ".pdf").
Proof.
  intros Hrun. rewrite (getPdfBytesAndName_originalName _ _ _ _ Hrun).
  apply replace_pdf_suffix_spec.
Qed.

Lemma getPdfBytesAndName_strips_one_suffix_witness :
  ∃ ext,
    "scan.pdf.pdf" = "scan.pdf" +:+ ext ∧
    ((ext = "" ∧ pdfExtensionFree "scan.pdf.pdf") ∨ toLowerCase ext = ".pdf").
Proof.
  apply (getPdfBytesAndName_strips_one_suffix (samplePlatform true) (IsFile scanFile) None
           {| pdfBytes := []; originalName := "scan.pdf" |}).
  reflexivity.
Defined.

Lemma split_trailing_separator (sep : ascii) (dir : string) :
  ∃ seg segs, split sep (dir +:+ String sep "") = seg :: segs ++ [""].
Proof.
  induction dir as [|c dir (seg & segs & IH)].
  - exists "", []. change ("" +:+ String sep "") with (String sep "").
    cbn [split]. by rewrite Ascii.eqb_refl.
  - change (String c dir +:+ String sep "") with (String c (dir +:+ String sep "")).
    cbn [split]. rewrite IH.
    destruct (Ascii.eqb c sep).
    + by exists "", (seg :: segs).
    + by exists (String c seg), segs.
Qed.

Lemma defaultFilenameExtractor_no_final_segment P url dir :
  URL_pathname P url = Normal (dir +:+ "/") →
  defaultFilenameExtractor P url = "document.pdf".
Proof.
  intros Hpath. unfold defaultFilenameExtractor. rewrite Hpath.
  destruct (split_trailing_separator "/" dir) as (seg & segs & ->).
  change (seg :: segs ++ [""]) with ((seg :: segs) ++ [""]).
  by rewrite last_snoc.
Qed.

(** C8. With the default filename extractor, the URL
    https://x/y/report.PDF (whose path is /y/report.PDF) resolves to the
    base name report, the suffix being matched in any letter case; and a
    URL whose path ends in a slash, so has no final segment, resolves to
    the base name document. *)
Theorem getPdfBytesAndName_default_extractor (P : Platform) :
  (∀ bytes,
     URL_pathname P "https://x/y/report.PDF" = Normal "/y/report.PDF" →
     fetched P "https://x/y/report.PDF" bytes →
     completion (getPdfBytesAndName P (IsString "https://x/y/report.PDF") None) =
       Normal {| pdfBytes := bytes; originalName := "report" |}) ∧
  (∀ url dir bytes,
     URL_pathname P url = Normal (dir +:+ "/") →
     fetched P url bytes →
     completion (getPdfBytesAndName P (IsString url) None) =
       Normal {| pdfBytes := bytes; originalName := "document" |}).
Proof.
  split.
  - intros bytes Hpath (response & Hfetch & Hok & Hbody).
    unfold getPdfBytesAndName, completion. rewrite Hfetch. simpl.
    rewrite Hok, Hbody. simpl.
    unfold defaultFilenameExtractor. by rewrite Hpath.
  - intros url dir bytes Hpath (response & Hfetch & Hok & Hbody).
    unfold getPdfBytesAndName, completion. rewrite Hfetch. simpl.
    rewrite Hok, Hbody. simpl.
    by rewrite (defaultFilenameExtractor_no_final_segment _ _ _ Hpath).
Qed.

Lemma getPdfBytesAndName_default_extractor_witness :
  completion (getPdfBytesAndName (samplePlatform true)
                (IsString "https://x/y/report.PDF") None) =
    Normal {| pdfBytes := []; originalName := "report" |} ∧
  completion (getPdfBytesAndName (samplePlatform true) (IsString "https://x/y/") None) =
    Normal {| pdfBytes := []; originalName := "document" |}.
Proof.
  destruct (getPdfBytesAndName_default_extractor (samplePlatform true)) as [Hreport Hnone].
  split.
  - apply Hreport; [reflexivity|]. by eexists.
  - apply (Hnone "https://x/y/" "/y"); [reflexivity|]. by eexists.
Defined.

(** * Checks of the model on concrete inputs *)

Example split_pathname : split "/" "/y/report.PDF" = [""; "y"; "report.PDF"].
Proof. reflexivity. Qed.

Example replace_pdf_suffix_once : replace_pdf_suffix "a.pdf.PDF" = "a.pdf".
Proof. reflexivity. Qed.

Example replace_pdf_suffix_inner : replace_pdf_suffix "a.pdf.txt" = "a.pdf.txt".
Proof. reflexivity. Qed.

(** 1 / 32 * 80 = 2.5 rounds up. *)
Example pagePercent_half_up : pagePercent 1 32 = 3.
Proof. reflexivity. Qed.

Example pagePercent_third : pagePercent 1 3 = 27.
Proof. reflexivity. Qed.

Example pageEntryName_12 : pageEntryName 12 = "page12.png".
Proof. reflexivity. Qed.

Example exportCurrentPageAsPng_filename :
  exportCurrentPageAsPng (samplePlatform true) (sampleViewer [] []) 3 "Report" =
    ([CallGetMergedCanvasForPage 3;
      CallExportFile [ToUint8 3] "Report_page3.png" "image/png"],
     Normal true).
Proof. reflexivity. Qed.

Example exportCurrentPageAsPng_no_canvas :
  exportCurrentPageAsPng (samplePlatform true) (sampleViewer [3] []) 3 "Report" =
    ([CallGetMergedCanvasForPage 3], Throw (PageRenderFailed 3)).
Proof. reflexivity. Qed.

Example compressPdfBytes_native :
  compressPdfBytes
    {| isTauri := true;
       invoke_compress_pdf := λ content _, Normal (300 :: content);
       PDFDocument_load := λ _, Throw (Rejected "unused");
       PDFDocument_save := λ _, Throw (Rejected "unused");
       fetch := λ _, Throw (Rejected "unused");
       URL_pathname := λ _, Throw (Rejected "unused");
       JSZip_generateAsync := λ _, Throw (Rejected "unused");
       PDFExporter_exportFile := λ _ _ _, Throw (Rejected "unused") |}
    [Byte.x25] None =
    ([CallInvokeCompressPdf [37] 75], Normal [Byte.x2c; Byte.x25]).
Proof. reflexivity. Qed.

(** * Instances *)

Lemma compressPdfBytes_passthrough_witness :
  completion (compressPdfBytes failingHostPlatform [Byte.x25; Byte.x50] (Some 60)) =
    Normal [Byte.x25; Byte.x50].
Proof.
  apply compressPdfBytes_passthrough.
  - right. by eexists.
  - right. exists (pdfDocument 0). split; [reflexivity|]. by eexists.
Defined.

Lemma exportAllPagesAsPngZip_all_pages_fail_witness :
  completion (exportAllPagesAsPngZip (samplePlatform true)
                (sampleViewer [1; 2; 3] []) 3 "doc" true) = Throw EmptyZip ∧
  exportFileCalls (events (exportAllPagesAsPngZip (samplePlatform true)
                             (sampleViewer [1; 2; 3] []) 3 "doc" true)) = [].
Proof.
  apply (exportAllPagesAsPngZip_all_pages_fail
           (samplePlatform true) (sampleViewer [1; 2; 3] []) 3 "doc" true).
  intros page Hpage.
  assert (Hcases : page = 1 ∨ page = 2 ∨ page = 3) by lia.
  destruct Hcases as [-> | [-> | ->]]; reflexivity.
Defined.


Lemma exportAllPagesAsPngZip_progress_witness :
  completion (fivePageRun false) = Normal false ∧
  last (progressReports (events (fivePageRun false))) = Some 95.
Proof.
  apply (exportAllPagesAsPngZip_progress
           (samplePlatform false) (sampleViewer [2; 4] []) 5 "doc").
  exists [], "doc_pages.zip", "application/zip". split; [|reflexivity].
  assert (Hcalls : exportFileCalls (events (fivePageRun false)) =
                     [([], "doc_pages.zip", "application/zip")])
    by (vm_compute; reflexivity).
  unfold fivePageRun in Hcalls. rewrite Hcalls. by left.
Defined.

(** * Further properties of the export handlers *)

(** ** Compression tiers *)

(** X1. The tiers are tried in strict order.  The host is invoked exactly
    when running under Tauri, and then with the input bytes as a number
    array and the given quality (75 by default); pdf-lib is asked to load
    the document exactly when the native tier is unavailable or threw. *)
Theorem compressPdfBytes_tier_order (P : Platform) (bytes : Bytes) (quality : option Z) :
  let run := compressPdfBytes P bytes quality in
  ((∃ content q, CallInvokeCompressPdf content q ∈ events run) ↔ isTauri P = true) ∧
  (∀ content q, CallInvokeCompressPdf content q ∈ events run →
                content = Array_from bytes ∧ q = default 75 quality) ∧
  ((∃ loaded, CallPdfLibLoad loaded ∈ events run) ↔
     native_tier_fails P bytes (default 75 quality)) ∧
  (∀ loaded, CallPdfLibLoad loaded ∈ events run → loaded = bytes).
Proof.
  cbn zeta. unfold native_tier_fails, is_thrown.
  unfold compressPdfBytes, events, try_catch, await, emit, mbind, mret, Run_bind, Run_ret.
  destruct (isTauri P); simpl.
  - destruct (invoke_compress_pdf P _ _) as [ns|e]; simpl.
    + split_and!.
      * split; [done|]. intros _. eexists _, _. by left.
      * intros content q Hin. apply list_elem_of_singleton in Hin. by injection Hin.
      * split; [|by intros [?|[? ?]]].
        intros [loaded Hin]. apply list_elem_of_singleton in Hin. done.
      * intros loaded Hin. apply list_elem_of_singleton in Hin. done.
    + destruct (PDFDocument_load P bytes) as [doc|e1]; simpl;
        [destruct (PDFDocument_save P doc); simpl|].
      all: split_and!;
        [ split; [done|]; intros _; eexists _, _; by left
        | intros content q Hin; apply elem_of_cons in Hin as [Hin|Hin];
          [by injection Hin|];
          repeat (apply elem_of_cons in Hin as [Hin|Hin]; [done|]); by inversion Hin
        | split; [intros _; right; by eexists|]; intros _; exists bytes;
          do 2 right; by left
        | intros loaded Hin;
          repeat (apply elem_of_cons in Hin as [Hin|Hin]; [by (done || injection Hin)|]);
          by inversion Hin ].
  - destruct (PDFDocument_load P bytes) as [doc|e1]; simpl;
      [destruct (PDFDocument_save P doc); simpl|].
    all: split_and!;
      [ split; [|done]; intros (content & q & Hin);
        repeat (apply elem_of_cons in Hin as [Hin|Hin]; [done|]); by inversion Hin
      | intros content q Hin;
        repeat (apply elem_of_cons in Hin as [Hin|Hin]; [done|]); by inversion Hin
      | split; [intros _; by left|]; intros _; exists bytes; by left
      | intros loaded Hin;
        repeat (apply elem_of_cons in Hin as [Hin|Hin]; [by (done || injection Hin)|]);
        by inversion Hin ].
Qed.

Lemma ToUint8_to_N (b : Byte.byte) : ToUint8 (Z.of_N (Byte.to_N b)) = b.
Proof. by destruct b. Qed.

Lemma Uint8Array_of_Array_from (bytes : Bytes) : Uint8Array_of (Array_from bytes) = bytes.
Proof.
  unfold Uint8Array_of, Array_from. induction bytes as [|b bytes IH]; [done|].
  rewrite !fmap_cons, IH. by rewrite ToUint8_to_N.
Qed.

(** X2. The number-array encoding used to talk to the host loses nothing:
    under Tauri, a host command that hands its content back unchanged makes
    [compressPdfBytes] return exactly the input bytes, without touching
    pdf-lib. *)
Theorem compressPdfBytes_host_echo (P : Platform) (bytes : Bytes) (quality : option Z) :
  isTauri P = true →
  invoke_compress_pdf P (Array_from bytes) (default 75 quality) = Normal (Array_from bytes) →
  compressPdfBytes P bytes quality =
    ([CallInvokeCompressPdf (Array_from bytes) (default 75 quality)], Normal bytes).
Proof.
  intros Htauri Hecho.
  unfold compressPdfBytes, try_catch, await, emit, mbind, mret, Run_bind, Run_ret.
  rewrite Htauri, Hecho. simpl. by rewrite Uint8Array_of_Array_from.
Qed.

Lemma compressPdfBytes_host_echo_witness :
  compressPdfBytes echoHostPlatform [Byte.x25; Byte.xff] None =
    ([CallInvokeCompressPdf [37; 255] 75], Normal [Byte.x25; Byte.xff]).
Proof.
  apply (compressPdfBytes_host_echo echoHostPlatform [Byte.x25; Byte.xff] None);
    reflexivity.
Defined.

(** ** Single-page export *)

(** X3. Single-page export has no degraded path.  If the page renders, the
    sink is called once, with the page's PNG bytes, the name
    [{baseName}_page{N}.png] and MIME type image/png, and its answer is the
    result; otherwise the export throws, with the page-render error when the
    viewer has no canvas, and the sink is never called. *)
Theorem exportCurrentPageAsPng_outcomes
    (P : Platform) (pdfViewer : PdfViewer) (currentPage : Z) (baseName : string) :
  let run := exportCurrentPageAsPng P pdfViewer currentPage baseName in
  let filename := baseName +:+ "_page" +:+ pretty currentPage +:+ ".png" in
  match renderedPng pdfViewer currentPage with
  | Some png =>
      events run = [CallGetMergedCanvasForPage currentPage;
                    CallExportFile png filename "image/png"] ∧
      completion run = PDFExporter_exportFile P png filename "image/png"
  | None =>
      is_thrown (completion run) ∧
      exportFileCalls (events run) = [] ∧
      (page_skipped pdfViewer currentPage →
         completion run = Throw (PageRenderFailed currentPage))
  end.
Proof.
  cbn zeta. unfold renderedPng, page_skipped, exportCurrentPageAsPng, canvasToPngBlob.
  unfold events, completion, is_thrown. simpl.
  destruct (getMergedCanvasForPage pdfViewer currentPage) as [[canvas|]|e]; simpl.
  - destruct (toBlob_png canvas) as [png|]; simpl.
    + by destruct (PDFExporter_exportFile P png _ _).
    + split_and!; [by eexists|done|done].
  - split_and!; [by eexists|done|done].
  - split_and!; [by eexists|done|done].
Qed.

(** X4. For one base name, two single-page exports are saved under the
    same file name only if they export the same page. *)
Theorem exportCurrentPageAsPng_distinct_filenames
    (P : Platform) (pdfViewer : PdfViewer) (baseName : string) (p q : Z)
    (call1 call2 : Bytes * string * string) :
  call1 ∈ exportFileCalls (events (exportCurrentPageAsPng P pdfViewer p baseName)) →
  call2 ∈ exportFileCalls (events (exportCurrentPageAsPng P pdfViewer q baseName)) →
  call1.1.2 = call2.1.2 ↔ p = q.
Proof.
  intros H1 H2.
  assert (Hname : ∀ page call,
    call ∈ exportFileCalls (events (exportCurrentPageAsPng P pdfViewer page baseName)) →
    call.1.2 = baseName +:+ "_page" +:+ pretty page +:+ ".png").
  { intros page call Hin.
    assert (Hout := exportCurrentPageAsPng_outcomes P pdfViewer page baseName).
    cbn zeta in Hout. destruct (renderedPng pdfViewer page) as [png|].
    - destruct Hout as [Hev _]. rewrite Hev in Hin. simpl in Hin.
      apply list_elem_of_singleton in Hin. by subst.
    - destruct Hout as (_ & Hnone & _). rewrite Hnone in Hin. by inversion Hin. }
  rewrite (Hname p call1 H1), (Hname q call2 H2). split; [|by intros ->].
  intros Heq.
  apply (inj (String.append baseName)) in Heq.
  apply (inj (String.append "_page")) in Heq.
  apply string_app_inj_r in Heq. by apply (inj pretty) in Heq.
Qed.

Lemma exportCurrentPageAsPng_distinct_filenames_witness :
  ([ToUint8 1], "Report_page1.png", "image/png").1.2 =
  ([ToUint8 2], "Report_page2.png", "image/png").1.2 ↔ 1 = 2.
Proof.
  apply (exportCurrentPageAsPng_distinct_filenames
           (samplePlatform true) (sampleViewer [] []) "Report" 1 2).
  - by left.
  - by left.
Defined.

(** ** Source resolution *)

Lemma toLowerCase_app (s t : string) :
  toLowerCase (s +:+ t) = toLowerCase s +:+ toLowerCase t.
Proof.
  induction s as [|c s IH]; [done|].
  change (String (toLowerCase_ascii c) (toLowerCase (s +:+ t)) =
          String (toLowerCase_ascii c) (toLowerCase s +:+ toLowerCase t)).
  by rewrite IH.
Qed.

Lemma endsWith_app (s t : string) : endsWith (s +:+ t) t = true.
Proof.
  induction s as [|c s IH].
  - change ("" +:+ t) with t. destruct t; cbn [endsWith]; by rewrite String.eqb_refl.
  - change (String c s +:+ t) with (String c (s +:+ t)). cbn [endsWith].
    rewrite IH. by destruct (String.eqb _ _).
Qed.

Lemma toLowerCase_length (s : string) : String.length (toLowerCase s) = String.length s.
Proof. induction s as [|c s IH]; simpl; [done|]. by rewrite IH. Qed.

Lemma is_dot_pdf_length (s : string) : is_dot_pdf s = true → String.length s = 4%nat.
Proof.
  unfold is_dot_pdf. intros Heq. apply String.eqb_eq in Heq.
  rewrite <- toLowerCase_length, Heq. done.
Qed.

(** Cutting after appending: a suffix that is [.pdf] in any letter case is
    cut off again. *)
Lemma replace_pdf_suffix_app (s ext : string) :
  is_dot_pdf ext = true → replace_pdf_suffix (s +:+ ext) = s.
Proof.
  intros Hext. induction s as [|c s IH].
  - change ("" +:+ ext) with ext. destruct ext; [done|].
    cbn [replace_pdf_suffix]. by rewrite Hext.
  - change (String c s +:+ ext) with (String c (s +:+ ext)).
    cbn [replace_pdf_suffix].
    destruct (is_dot_pdf (String c (s +:+ ext))) eqn:Hdot; [|by rewrite IH].
    apply is_dot_pdf_length in Hdot, Hext. simpl in Hdot.
    rewrite string_length_app in Hdot. lia.
Qed.

Lemma replace_pdf_suffix_free (s : string) :
  pdfExtensionFree s → replace_pdf_suffix s = s.
Proof.
  unfold pdfExtensionFree. induction s as [|c s IH]; [done|].
  cbn [toLowerCase endsWith replace_pdf_suffix]. unfold is_dot_pdf. cbn [toLowerCase].
  destruct (String.eqb _ _); [done|]. intros Hfree. by rewrite IH.
Qed.

(** X5. The default extractor ensures the [.pdf] extension: whatever the
    URL, and whether or not it parses, the name it returns ends in [.pdf]
    (in some letter case). *)
Theorem defaultFilenameExtractor_ensures_pdf (P : Platform) (url : string) :
  endsWith (toLowerCase (defaultFilenameExtractor P url)) ".pdf" = true.
Proof.
  unfold defaultFilenameExtractor.
  destruct (URL_pathname P url) as [pathname|e]; [|done].
  cbn zeta.
  set (filename := match last (split "/" pathname) with
                   | Some (String c seg) => String c seg
                   | _ => "document.pdf"
                   end).
  destruct (endsWith (toLowerCase filename) ".pdf") eqn:Hends; [done|].
  rewrite toLowerCase_app. apply endsWith_app.
Qed.

(** X6. With the default extractor, the base name of a fetched URL is its
    last path segment with one [.pdf] suffix cut: the [.pdf] that the
    extractor appends to a segment without the suffix is cut off again, so
    such a segment is returned as it is. *)
Theorem getPdfBytesAndName_last_segment
    (P : Platform) (url pathname segment : string) (bytes : Bytes) :
  URL_pathname P url = Normal pathname →
  last (split "/" pathname) = Some segment →
  segment ≠ "" →
  fetched P url bytes →
  completion (getPdfBytesAndName P (IsString url) None) =
    Normal {| pdfBytes := bytes; originalName := replace_pdf_suffix segment |} ∧
  (pdfExtensionFree segment → replace_pdf_suffix segment = segment).
Proof.
  intros Hpath Hlast Hne (response & Hfetch & Hok & Hbody).
  split; [|apply replace_pdf_suffix_free].
  unfold getPdfBytesAndName, completion. rewrite Hfetch. simpl.
  rewrite Hok, Hbody. simpl. do 2 f_equal.
  unfold defaultFilenameExtractor. rewrite Hpath, Hlast.
  destruct segment as [|c segment]; [done|]. cbn zeta.
  destruct (endsWith (toLowerCase (String c segment)) ".pdf") eqn:Hends; [done|].
  rewrite replace_pdf_suffix_app by done.
  symmetry. by apply replace_pdf_suffix_free.
Qed.

Lemma getPdfBytesAndName_last_segment_witness :
  completion (getPdfBytesAndName
                {| isTauri := false;
                   invoke_compress_pdf := λ _ _, Throw (Rejected "no host");
                   PDFDocument_load := λ _, Throw (Rejected "not a PDF");
                   PDFDocument_save := λ _, Throw (Rejected "not a PDF");
                   fetch := λ _, Normal {| ok := true; statusText := "OK";
                                            response_arrayBuffer := Normal [Byte.x25] |};
                   URL_pathname := λ _, Normal "/files/notes.v2";
                   JSZip_generateAsync := λ _, Normal [];
                   PDFExporter_exportFile := λ _ _ _, Normal true |}
                (IsString "https://x/files/notes.v2") None) =
    Normal {| pdfBytes := [Byte.x25]; originalName := replace_pdf_suffix "notes.v2" |} ∧
  (pdfExtensionFree "notes.v2" → replace_pdf_suffix "notes.v2" = "notes.v2").
Proof.
  apply (getPdfBytesAndName_last_segment _ "https://x/files/notes.v2" "/files/notes.v2").
  - reflexivity.
  - reflexivity.
  - done.
  - by eexists.
Defined.

(** X7. Resolving an in-memory file makes no network request; resolving a
    URL makes exactly one fetch, and a response that is not ok is fatal: the
    call throws the fetch error with the response's status text, whatever
    the extractor. *)
Theorem getPdfBytesAndName_network
    (P : Platform) (currentFile : CurrentFile)
    (filenameExtractor : option (string → string)) :
  let run := getPdfBytesAndName P currentFile filenameExtractor in
  events run = match currentFile with
               | IsFile _ => []
               | IsString url => [CallFetch url]
               end ∧
  ∀ url response,
    currentFile = IsString url → fetch P url = Normal response → ok response = false →
    completion run = Throw (FetchFailed (statusText response)).
Proof.
  cbn zeta. unfold getPdfBytesAndName, events, completion.
  destruct currentFile as [file|url]; simpl.
  - split; [|done]. by destruct (file_arrayBuffer file).
  - split.
    + destruct (fetch P url) as [response|e]; simpl; [|done].
      destruct (ok response); simpl; [|done].
      by destruct (response_arrayBuffer response).
    + intros url' response [= <-] Hfetch Hok. rewrite Hfetch. simpl. by rewrite Hok.
Qed.

(** ** The annotation loop, page by page *)

Lemma capturePages_step pdfViewer captureAll pageNumber rest exporter :
  capturePages pdfViewer captureAll (pageNumber :: rest) exporter =
    match pageHasAnnotations pdfViewer pageNumber with
    | Throw e => ([CallPageHasAnnotations pageNumber], Throw e)
    | Normal hasAnnotations =>
        if hasAnnotations || captureAll then
          match getMergedCanvasForPage pdfViewer pageNumber with
          | Throw e => ([CallPageHasAnnotations pageNumber;
                         CallGetMergedCanvasForPage pageNumber], Throw e)
          | Normal _ =>
              prepend [CallPageHasAnnotations pageNumber;
                       CallGetMergedCanvasForPage pageNumber]
                (capturePages pdfViewer captureAll rest
                   (captured pdfViewer exporter pageNumber))
          end
        else prepend [CallPageHasAnnotations pageNumber]
               (capturePages pdfViewer captureAll rest exporter)
    end.
Proof.
  unfold prepend, captured, mergedCanvas. simpl.
  destruct (pageHasAnnotations pdfViewer pageNumber) as [has|e]; simpl; [|done].
  destruct (has || captureAll); simpl.
  - destruct (getMergedCanvasForPage pdfViewer pageNumber) as [[canvas|]|e]; simpl;
      [| |done]; by destruct (capturePages pdfViewer captureAll rest _).
  - by destruct (capturePages pdfViewer captureAll rest exporter).
Qed.

(** While no call throws, the loop goes on and its effect is that of the
    pure description. *)
Lemma capturePages_settled pdfViewer captureAll pageNumbers :
  Forall (λ page, captureFailure pdfViewer captureAll page = None) pageNumbers →
  ∀ exporter,
    capturePages pdfViewer captureAll pageNumbers exporter =
      (pageNumbers ≫= captureEvents pdfViewer captureAll,
       Normal (foldl (capturedIf pdfViewer captureAll) exporter pageNumbers)).
Proof.
  induction 1 as [|page rest Hpage _ IH]; intros exporter; [done|].
  rewrite capturePages_step, bind_cons. cbn [foldl].
  unfold captureFailure in Hpage. unfold captureEvents at 1, capturedIf at 2, wantsCapture.
  destruct (pageHasAnnotations pdfViewer page) as [has|e]; [|done].
  destruct (has || captureAll).
  - destruct (getMergedCanvasForPage pdfViewer page) as [canvas|e]; [|done].
    by rewrite IH.
  - by rewrite IH.
Qed.

(** The first call that throws ends the loop with its error. *)
Lemma capturePages_first_failure pdfViewer captureAll before page after e :
  Forall (λ page, captureFailure pdfViewer captureAll page = None) before →
  captureFailure pdfViewer captureAll page = Some e →
  ∀ exporter,
    capturePages pdfViewer captureAll (before ++ page :: after) exporter =
      ((before ++ [page]) ≫= captureEvents pdfViewer captureAll, Throw e).
Proof.
  intros Hbefore Hfail. induction Hbefore as [|p rest Hp _ IH]; intros exporter.
  - cbn [app]. rewrite capturePages_step, bind_cons.
    unfold captureFailure in Hfail. unfold captureEvents.
    destruct (pageHasAnnotations pdfViewer page) as [has|e']; [|by injection Hfail as ->].
    destruct (has || captureAll); [|done].
    destruct (getMergedCanvasForPage pdfViewer page) as [canvas|e']; [done|].
    by injection Hfail as ->.
  - rewrite <- !app_comm_cons, capturePages_step, bind_cons.
    unfold captureFailure in Hp. unfold captureEvents at 1.
    destruct (pageHasAnnotations pdfViewer p) as [has|e']; [|done].
    destruct (has || captureAll).
    + destruct (getMergedCanvasForPage pdfViewer p) as [canvas|e']; [|done].
      by rewrite IH.
    + by rewrite IH.
Qed.

(** A loop that returns has met no throwing call. *)
Lemma capturePages_normal pdfViewer captureAll pageNumbers : ∀ exporter exporter',
  completion (capturePages pdfViewer captureAll pageNumbers exporter) = Normal exporter' →
  Forall (λ page, captureFailure pdfViewer captureAll page = None) pageNumbers.
Proof.
  induction pageNumbers as [|page rest IH]; intros exporter exporter'; [by constructor|].
  rewrite capturePages_step. unfold completion, prepend.
  destruct (pageHasAnnotations pdfViewer page) as [has|e] eqn:Hhas; [|done].
  destruct (has || captureAll) eqn:Hor.
  - destruct (getMergedCanvasForPage pdfViewer page) as [canvas|e] eqn:Hc; [|done].
    cbn [snd]. intros Hrest. constructor; [|by eapply IH].
    unfold captureFailure. by rewrite Hhas, Hor, Hc.
  - cbn [snd]. intros Hrest. constructor; [|by eapply IH].
    unfold captureFailure. by rewrite Hhas, Hor.
Qed.

Lemma lookup_capturedIf_out pdfViewer captureAll pageNumbers page : ∀ exporter,
  page ∉ pageNumbers ∨ wantsCapture pdfViewer captureAll page = false ∨
    mergedCanvas pdfViewer page = None →
  pageCanvases (foldl (capturedIf pdfViewer captureAll) exporter pageNumbers) !! page =
    pageCanvases exporter !! page.
Proof.
  induction pageNumbers as [|q rest IH]; intros exporter Hout; [done|].
  cbn [foldl]. rewrite IH.
  - unfold capturedIf, captured.
    destruct (wantsCapture pdfViewer captureAll q) eqn:Hq; [|done].
    destruct (mergedCanvas pdfViewer q) as [canvas|] eqn:Hm; [|done].
    simpl. rewrite lookup_insert_ne; [done|].
    intros ->. destruct Hout as [Hout|[Hout|Hout]]; [|congruence..].
    apply Hout. by left.
  - destruct Hout as [Hout|Hout]; [left|by right].
    intros Hin. apply Hout. by right.
Qed.

Lemma lookup_capturedIf_keep pdfViewer captureAll pageNumbers page canvas : ∀ exporter,
  mergedCanvas pdfViewer page = Some canvas →
  pageCanvases exporter !! page = Some canvas →
  pageCanvases (foldl (capturedIf pdfViewer captureAll) exporter pageNumbers) !! page =
    Some canvas.
Proof.
  induction pageNumbers as [|q rest IH]; intros exporter Hm Hex; [done|].
  cbn [foldl]. apply IH; [done|]. unfold capturedIf, captured.
  destruct (wantsCapture pdfViewer captureAll q); [|done].
  destruct (mergedCanvas pdfViewer q) as [canvas'|] eqn:Hq; [|done]. simpl.
  destruct (decide (q = page)) as [->|Hne].
  - rewrite lookup_insert_eq. congruence.
  - by rewrite lookup_insert_ne.
Qed.

Lemma lookup_capturedIf_in pdfViewer captureAll pageNumbers page canvas : ∀ exporter,
  page ∈ pageNumbers →
  wantsCapture pdfViewer captureAll page = true →
  mergedCanvas pdfViewer page = Some canvas →
  pageCanvases (foldl (capturedIf pdfViewer captureAll) exporter pageNumbers) !! page =
    Some canvas.
Proof.
  induction pageNumbers as [|q rest IH]; intros exporter Hin Hw Hm; [by inversion Hin|].
  cbn [foldl]. apply elem_of_cons in Hin as [->|Hin]; [|by apply IH].
  apply lookup_capturedIf_keep; [done|].
  unfold capturedIf, captured. rewrite Hw, Hm. simpl. by rewrite lookup_insert_eq.
Qed.

Lemma originalPDF_capturedIf pdfViewer captureAll pageNumbers : ∀ exporter,
  originalPDF (foldl (capturedIf pdfViewer captureAll) exporter pageNumbers) =
    originalPDF exporter.
Proof.
  induction pageNumbers as [|q rest IH]; intros exporter; [done|].
  cbn [foldl]. rewrite IH. unfold capturedIf, captured.
  destruct (wantsCapture pdfViewer captureAll q); [|done].
  by destruct (mergedCanvas pdfViewer q).
Qed.

(** X8. What a completed build holds, for either setting of the flag: the
    exporter owns the input bytes; every page 1..totalPages was queried
    once, in page order, each query followed by the canvas request exactly
    when the page is annotated or the flag is set; and a page is in the
    mapping, with the canvas the viewer returned for it, exactly when it is
    in range, was captured, and the viewer had a canvas. *)
Theorem buildAnnotatedPdfExporter_completed
    (bytes : Bytes) (pdfViewer : PdfViewer) (totalPages : Z)
    (options : option BuildOptions) (exporter : PDFExporter) :
  let run := buildAnnotatedPdfExporter bytes pdfViewer totalPages options in
  let captureAll := captureAllPagesOf options in
  completion run = Normal exporter →
  originalPDF exporter = Some bytes ∧
  events run = seqZ 1 totalPages ≫= captureEvents pdfViewer captureAll ∧
  annotationQueries (events run) = seqZ 1 totalPages ∧
  ∀ page, pageCanvases exporter !! page =
            if bool_decide (1 ≤ page ≤ totalPages) && wantsCapture pdfViewer captureAll page
            then mergedCanvas pdfViewer page else None.
Proof.
  intros run captureAll Hrun. subst run. unfold buildAnnotatedPdfExporter in *.
  fold captureAll in Hrun |- *.
  assert (Hsettled := capturePages_normal _ _ _ _ _ Hrun).
  rewrite capturePages_settled in Hrun |- * by done.
  injection Hrun as <-. cbn [events fst]. split_and!.
  - by rewrite originalPDF_capturedIf.
  - done.
  - clear. induction (seqZ 1 totalPages) as [|p l IH]; [done|].
    rewrite bind_cons. unfold annotationQueries in *. rewrite omap_app, IH.
    unfold captureEvents. destruct (pageHasAnnotations pdfViewer p) as [has|e]; [|done].
    by destruct (has || captureAll).
  - intros page. case_bool_decide as Hpage; cbn [andb].
    + destruct (wantsCapture pdfViewer captureAll page) eqn:Hw.
      * destruct (mergedCanvas pdfViewer page) as [canvas|] eqn:Hm.
        -- apply lookup_capturedIf_in; [|done..]. apply elem_of_seqZ. lia.
        -- rewrite lookup_capturedIf_out by (right; by right). done.
      * rewrite lookup_capturedIf_out by (right; by left). done.
    + rewrite lookup_capturedIf_out; [done|]. left. rewrite elem_of_seqZ. lia.
Qed.

Lemma buildAnnotatedPdfExporter_completed_witness :
  originalPDF {| originalPDF := Some [Byte.x25];
                 pageCanvases := <[2 := sampleCanvas 2]> ∅ |} = Some [Byte.x25] ∧
  events (buildAnnotatedPdfExporter [Byte.x25] (sampleViewer [3] [2; 3]) 3 None) =
    seqZ 1 3 ≫= captureEvents (sampleViewer [3] [2; 3]) (captureAllPagesOf None) ∧
  annotationQueries
    (events (buildAnnotatedPdfExporter [Byte.x25] (sampleViewer [3] [2; 3]) 3 None)) =
    seqZ 1 3 ∧
  ∀ page, pageCanvases {| originalPDF := Some [Byte.x25];
                          pageCanvases := <[2 := sampleCanvas 2]> ∅ |} !! page =
            if bool_decide (1 ≤ page ≤ 3) &&
               wantsCapture (sampleViewer [3] [2; 3]) (captureAllPagesOf None) page
            then mergedCanvas (sampleViewer [3] [2; 3]) page else None.
Proof.
  apply (buildAnnotatedPdfExporter_completed
           [Byte.x25] (sampleViewer [3] [2; 3]) 3 None).
  reflexivity.
Defined.

Lemma seqZ_snoc_at (k : Z) : 1 ≤ k → seqZ 1 (k - 1) ++ [k] = seqZ 1 k.
Proof.
  intros Hk. assert (H := seqZ_app 1 (k - 1) 1 ltac:(lia) ltac:(lia)).
  replace (k - 1 + 1) with k in H by lia.
  replace (1 + (k - 1)) with k in H by lia.
  rewrite H. by f_equal.
Qed.

Lemma seqZ_split_at (totalPages k : Z) :
  1 ≤ k ≤ totalPages →
  seqZ 1 totalPages = seqZ 1 (k - 1) ++ k :: seqZ (k + 1) (totalPages - k).
Proof.
  intros Hk.
  assert (H := seqZ_app 1 (k - 1) (1 + (totalPages - k)) ltac:(lia) ltac:(lia)).
  replace (k - 1 + (1 + (totalPages - k))) with totalPages in H by lia.
  replace (1 + (k - 1)) with k in H by lia.
  rewrite H. f_equal. rewrite seqZ_cons by lia. f_equal. f_equal; lia.
Qed.

(** X9. The first viewer call that throws aborts the build with that
    error: if page k is the first page of 1..totalPages on which the
    annotation query or the canvas request throws, the build throws the same
    error and makes no call for any later page. *)
Theorem buildAnnotatedPdfExporter_first_failure
    (bytes : Bytes) (pdfViewer : PdfViewer) (totalPages : Z)
    (options : option BuildOptions) (k : Z) (e : Error) :
  let captureAll := captureAllPagesOf options in
  1 ≤ k ≤ totalPages →
  (∀ page, 1 ≤ page < k → captureFailure pdfViewer captureAll page = None) →
  captureFailure pdfViewer captureAll k = Some e →
  buildAnnotatedPdfExporter bytes pdfViewer totalPages options =
    (seqZ 1 k ≫= captureEvents pdfViewer captureAll, Throw e).
Proof.
  intros captureAll Hk Hbefore Hfail. unfold buildAnnotatedPdfExporter.
  fold captureAll.
  rewrite (seqZ_split_at totalPages k Hk).
  rewrite (capturePages_first_failure _ _ _ _ _ e).
  - rewrite seqZ_snoc_at by lia. done.
  - apply Forall_seqZ. intros page Hpage. apply Hbefore. lia.
  - done.
Qed.

Lemma buildAnnotatedPdfExporter_first_failure_witness :
  buildAnnotatedPdfExporter [] rejectingViewer 3 None =
    ([CallPageHasAnnotations 1; CallGetMergedCanvasForPage 1; CallPageHasAnnotations 2],
     Throw (Rejected "store closed")).
Proof.
  assert (Hbefore : ∀ page, 1 ≤ page < 2 →
            captureFailure rejectingViewer (captureAllPagesOf None) page = None).
  { intros page Hpage. assert (page = 1) as -> by lia. reflexivity. }
  exact (buildAnnotatedPdfExporter_first_failure [] rejectingViewer 3 None 2
           (Rejected "store closed") ltac:(lia) Hbefore eq_refl).
Defined.

(** ** The archive loop, page by page *)





(** A loop that returns has met no failing page. *)
Lemma zipPages_normal pdfViewer totalPages onProgress pages : ∀ zip filesAdded result,
  completion (zipPages pdfViewer totalPages onProgress pages zip filesAdded) = Normal result →
  Forall (page_settles pdfViewer) pages.
Proof.
  induction pages as [|page rest IH]; intros zip filesAdded result; [by constructor|].
  destruct (getMergedCanvasForPage pdfViewer page) as [[canvas|]|e] eqn:Hc.
  - destruct (toBlob_png canvas) as [png|] eqn:Hpng.
    + rewrite (zipPages_add _ _ _ _ _ _ _ _ _ Hc Hpng). cbn [completion snd].
      intros Hrest. constructor; [|by eapply IH]. right. by exists canvas, png.
    + by rewrite (zipPages_encode_throws _ _ _ _ _ _ _ _ Hc Hpng).
  - rewrite (zipPages_skip _ _ _ _ _ _ _ Hc). cbn [completion snd].
    intros Hrest. constructor; [by left|by eapply IH].
  - by rewrite (zipPages_viewer_throws _ _ _ _ _ _ _ _ Hc).
Qed.

(** ** The progress callback is an observer *)

Lemma withoutProgress_call (ev : Event) (t : list Event) :
  isProgress ev = false → withoutProgress (ev :: t) = ev :: withoutProgress t.
Proof. intros Hev. unfold withoutProgress. by rewrite filter_cons_True. Qed.

Lemma withoutProgress_report (percent : Z) (t : list Event) :
  withoutProgress (OnProgress percent :: t) = withoutProgress t.
Proof. unfold withoutProgress. by rewrite filter_cons_False. Qed.

Lemma withoutProgress_app (t1 t2 : list Event) :
  withoutProgress (t1 ++ t2) = withoutProgress t1 ++ withoutProgress t2.
Proof. apply filter_app. Qed.

Lemma Callback_firstThrow_app callback reports1 reports2 :
  Callback.firstThrow callback reports1 = None →
  Callback.firstThrow callback (reports1 ++ reports2) =
    Callback.firstThrow callback reports2.
Proof.
  induction reports1 as [|percent rest IH]; [done|]. cbn.
  destruct (callback percent); [exact IH|done].
Qed.

Lemma Callback_firstThrow_app_None callback reports1 reports2 :
  Callback.firstThrow callback (reports1 ++ reports2) = None →
  Callback.firstThrow callback reports1 = None ∧
  Callback.firstThrow callback reports2 = None.
Proof.
  induction reports1 as [|percent rest IH]; [done|]. cbn.
  destruct (callback percent); [exact IH|done].
Qed.

Lemma progressReports_app t1 t2 :
  progressReports (t1 ++ t2) = progressReports t1 ++ progressReports t2.
Proof. apply omap_app. Qed.

(** Sequencing keeps the relation. *)
Lemma Callback_follows_bind {A B} callback (reporting silent : Run A)
    (f g : A → Run B) :
  Callback.follows callback reporting silent →
  (∀ a, Callback.follows callback (f a) (g a)) →
  Callback.follows callback (@mbind Run Run_bind A B f reporting)
                            (@mbind Run Run_bind A B g silent).
Proof.
  destruct reporting as [t c], silent as [t' c'].
  intros [(Hnone & Hc & Ht)|(t0 & percent & e & Ht & Hnone & Hthrow & Hc & Hprefix)] Hrest;
    cbn [events completion fst snd] in *.
  - subst c' t'. destruct c as [a|e]; [|by left].
    specialize (Hrest a). unfold mbind, Run_bind, Trace_bind.
    destruct (f a) as [tf cf], (g a) as [tg cg].
    destruct Hrest as [(Hnone' & Hc' & Ht')|
                       (t0 & percent & e & Ht' & Hnone' & Hthrow & Hc' & Hprefix)];
      cbn [events completion fst snd] in *.
    + left. cbn [events completion fst snd].
      rewrite progressReports_app, withoutProgress_app, Ht'.
      by rewrite Callback_firstThrow_app.
    + right. exists (t ++ t0), percent, e. cbn [events completion fst snd].
      rewrite Ht', app_assoc, progressReports_app, withoutProgress_app.
      split_and!; [done| |done|done|by apply prefix_app].
      by rewrite Callback_firstThrow_app.
  - subst c t. right. exists t0, percent, e. unfold mbind, Run_bind, Trace_bind.
    cbn [events completion fst snd]. split_and!; [done..|].
    destruct c' as [a|e']; [|done]. destruct (g a) as [tg cg]. cbn [events fst].
    by apply prefix_app_r.
Qed.

(** A run that makes no report is the same with and without callback. *)
Lemma Callback_follows_refl {A} callback (r : Run A) :
  progressReports (events r) = [] →
  Callback.follows callback r r.
Proof.
  intros Hquiet. left. rewrite Hquiet. split_and!; [done..|].
  destruct r as [t c]. cbn [events fst] in *. unfold withoutProgress.
  induction t as [|ev t IH]; [done|].
  destruct ev; try discriminate Hquiet; rewrite filter_cons_True by done;
    f_equal; by apply IH.
Qed.

Lemma Callback_follows_report callback percent :
  Callback.follows callback (Callback.reportProgress (Some callback) percent)
                            (Callback.reportProgress None percent).
Proof.
  unfold Callback.reportProgress, await.
  destruct (callback percent) as [[]|e] eqn:Hcall.
  - left. cbn. by rewrite Hcall.
  - right. exists [], percent, e. split_and!; [done..|]. apply prefix_nil.
Qed.

Lemma Callback_follows_zipPages callback pdfViewer totalPages pages :
  ∀ zip filesAdded,
    Callback.follows callback
      (Callback.zipPages pdfViewer totalPages (Some callback) pages zip filesAdded)
      (Callback.zipPages pdfViewer totalPages None pages zip filesAdded).
Proof.
  induction pages as [|page rest IH]; intros zip filesAdded.
  { by apply Callback_follows_refl. }
  cbn [Callback.zipPages]. apply Callback_follows_bind.
  { by apply Callback_follows_refl. }
  intros [canvas|].
  - apply Callback_follows_bind.
    { apply Callback_follows_refl. unfold canvasToPngBlob.
      by destruct (toBlob_png canvas). }
    intros arrayBuffer. cbn zeta. apply Callback_follows_bind.
    { apply Callback_follows_report. }
    intros _. apply IH.
  - apply Callback_follows_bind; [by apply Callback_follows_refl|]. intros _. apply IH.
Qed.

Lemma Callback_follows_export callback P pdfViewer totalPages baseName :
  Callback.follows callback
    (Callback.exportAllPagesAsPngZip P pdfViewer totalPages baseName (Some callback))
    (Callback.exportAllPagesAsPngZip P pdfViewer totalPages baseName None).
Proof.
  unfold Callback.exportAllPagesAsPngZip. apply Callback_follows_bind.
  { apply Callback_follows_zipPages. }
  intros [zip filesAdded]. destruct (filesAdded =? 0).
  { by apply Callback_follows_refl. }
  apply Callback_follows_bind; [by apply Callback_follows_refl|]. intros zipBytes.
  apply Callback_follows_bind; [apply Callback_follows_report|]. intros _. cbn zeta.
  apply Callback_follows_bind; [by apply Callback_follows_refl|]. intros saved.
  apply Callback_follows_bind; [|intros _; by apply Callback_follows_refl].
  destruct saved; [apply Callback_follows_report|by apply Callback_follows_refl].
Qed.

(** The events of a sequence. *)
Lemma Run_events_bind {A B} (m : Run A) (f : A → Run B) :
  (@mbind Run Run_bind A B f m).1 =
    m.1 ++ match m.2 with
           | Normal a => (f a).1
           | Throw _ => []
           end.
Proof.
  destruct m as [t [a|e]]; unfold mbind, Run_bind; cbn [fst snd].
  - by destruct (f a).
  - by rewrite app_nil_r.
Qed.

Lemma Callback_reportProgress_run onProgress percent :
  Callback.reportProgress onProgress percent =
    match onProgress with
    | Some callback => ([OnProgress percent], callback percent)
    | None => ([], Normal tt)
    end.
Proof. by destruct onProgress. Qed.

(** Reduces the events of a sequence of calls. *)
Ltac run_events :=
  repeat first [ rewrite Run_events_bind
               | progress unfold await, emit, throw
               | progress cbn [fst snd mret Run_ret] ].

(** The loop makes no report without a callback, and never calls the
    sink. *)
Lemma Callback_zipPages_quiet pdfViewer totalPages onProgress pages :
  ∀ zip filesAdded,
    let run := Callback.zipPages pdfViewer totalPages onProgress pages zip filesAdded in
    exportFileCalls (events run) = [] ∧
    (onProgress = None → progressReports (events run) = []).
Proof.
  unfold exportFileCalls, progressReports, events.
  induction pages as [|page rest IH]; intros zip filesAdded; [done|].
  cbn zeta. cbn [Callback.zipPages]. rewrite Run_events_bind, !omap_app.
  unfold await at 1 2 3 4. cbn [fst snd omap app].
  destruct (getMergedCanvasForPage pdfViewer page) as [[canvas|]|e]; [| |done].
  - rewrite Run_events_bind, !omap_app. unfold canvasToPngBlob.
    destruct (toBlob_png canvas) as [png|]; unfold mret, Run_ret, throw;
      cbn [fst snd omap app]; [|done].
    rewrite Run_events_bind, !omap_app, Callback_reportProgress_run.
    destruct (IH (<[pageEntryName page := png]> zip) (filesAdded + 1)) as [Hx Hq].
    cbn zeta in Hx, Hq.
    destruct onProgress as [callback|]; cbn [fst snd omap app].
    + destruct (callback _); [|done]. by rewrite Hx.
    + by rewrite Hx, Hq.
  - rewrite Run_events_bind, !omap_app. unfold emit. cbn [fst snd omap app].
    apply IH.
Qed.

(** Where the sink call stands in a run: nowhere, last, or last but for the
    report of 100. *)
Lemma Callback_export_sink_last P pdfViewer totalPages baseName onProgress :
  let run := Callback.exportAllPagesAsPngZip P pdfViewer totalPages baseName onProgress in
  (onProgress = None → progressReports (events run) = []) ∧
  (exportFileCalls (events run) = [] ∨
   (∃ data filename mime, last (events run) = Some (CallExportFile data filename mime)) ∨
   last (events run) = Some (OnProgress 100)).
Proof.
  cbn zeta.
  destruct (Callback_zipPages_quiet pdfViewer totalPages onProgress (seqZ 1 totalPages) ∅ 0)
    as [Hx Hq]. cbn zeta in Hx, Hq.
  unfold exportFileCalls, progressReports, events in *.
  unfold Callback.exportAllPagesAsPngZip. rewrite Run_events_bind.
  destruct (Callback.zipPages _ _ _ _ _ _) as [t [[zip filesAdded]|e]];
    cbn [fst snd] in *.
  2: { rewrite app_nil_r. auto. }
  destruct (filesAdded =? 0).
  { unfold throw. cbn [fst]. rewrite app_nil_r. auto. }
  run_events.
  destruct (JSZip_generateAsync P zip) as [zipBytes|e].
  2: { rewrite !omap_app, Hx. split; [|by left]. intros Hnone. by rewrite Hq. }
  rewrite !Callback_reportProgress_run.
  destruct onProgress as [callback|]; run_events.
  - split; [done|]. destruct (callback 95) as [[]|e].
    2: { left. by rewrite !omap_app, Hx. }
    right. destruct (PDFExporter_exportFile P zipBytes _ _) as [[]|e].
    + right.
      destruct (callback 100) as [[]|e]; run_events;
        by rewrite ?app_nil_r, !app_assoc, last_snoc.
    + left. eexists _, _, _. run_events. by rewrite !app_nil_r, !app_assoc, last_snoc.
    + left. eexists _, _, _. by rewrite !app_nil_r, !app_assoc, last_snoc.
  - split.
    + intros _. rewrite !omap_app, Hq by done.
      by destruct (PDFExporter_exportFile P zipBytes _ _) as [[]|e].
    + right. left. eexists _, _, _.
      destruct (PDFExporter_exportFile P zipBytes _ _) as [[]|e]; run_events;
        by rewrite ?app_nil_r, !app_assoc, last_snoc.
Qed.

(** With a callback that returns, and without callback, the export is the
    one of the model that keeps only whether a callback was passed. *)
Lemma Callback_zipPages_returning pdfViewer totalPages onProgress pages :
  (∀ callback percent, onProgress = Some callback → callback percent = Normal tt) →
  ∀ zip filesAdded,
    Callback.zipPages pdfViewer totalPages onProgress pages zip filesAdded =
    zipPages pdfViewer totalPages (bool_decide (is_Some onProgress)) pages zip filesAdded.
Proof.
  intros Hreturns.
  assert (Hreport : ∀ percent,
            Callback.reportProgress onProgress percent =
            reportProgress (bool_decide (is_Some onProgress)) percent).
  { intros percent. destruct onProgress as [callback|]; [|done].
    unfold Callback.reportProgress, await. by rewrite (Hreturns callback percent). }
  induction pages as [|page rest IH]; intros zip filesAdded; [done|].
  cbn [Callback.zipPages zipPages]. unfold mbind, Run_bind, await.
  destruct (getMergedCanvasForPage pdfViewer page) as [[canvas|]|e]; [| |done].
  - destruct (canvasToPngBlob canvas) as [t [png|e]]; [|done].
    cbn zeta. by rewrite Hreport, IH.
  - by rewrite IH.
Qed.

Lemma Callback_export_returning P pdfViewer totalPages baseName onProgress :
  (∀ callback percent, onProgress = Some callback → callback percent = Normal tt) →
  Callback.exportAllPagesAsPngZip P pdfViewer totalPages baseName onProgress =
  exportAllPagesAsPngZip P pdfViewer totalPages baseName (bool_decide (is_Some onProgress)).
Proof.
  intros Hreturns. unfold Callback.exportAllPagesAsPngZip, exportAllPagesAsPngZip.
  rewrite (Callback_zipPages_returning _ _ _ _ Hreturns).
  unfold mbind, Run_bind, await.
  destruct (zipPages _ _ _ _ _ _) as [t [[zip filesAdded]|e]]; [|done].
  destruct (filesAdded =? 0); [done|].
  destruct (JSZip_generateAsync P zip) as [zipBytes|e]; [|done].
  destruct onProgress as [callback|].
  - unfold Callback.reportProgress, await. rewrite !(Hreturns callback) by done.
    by destruct (PDFExporter_exportFile P zipBytes _ _) as [[]|e].
  - by destruct (PDFExporter_exportFile P zipBytes _ _) as [[]|e].
Qed.

(** X11. What the progress callback can do to an archive export.  The
    callback is called outside any [try].  While it returns it only
    observes: if it returns on every value it is given, the export completes
    as the export without callback does and makes the same calls in the same
    order (viewer requests, warnings, archive assembly, file sink), the
    reports apart.  The first report on which it throws ends the export with
    the callback's error: that report is the last event, what was done until
    then is what the export without callback does first, and the file sink
    has not been called unless the report is the final 100.  An export
    without callback reports nothing; and without callback, or with a
    callback that always returns, the export is the one of the model that
    keeps only whether a callback was passed. *)
Theorem exportAllPagesAsPngZip_callback_is_observer
    (P : Platform) (pdfViewer : PdfViewer) (totalPages : Z) (baseName : string)
    (callback : Z → Completion unit) :
  let silent := Callback.exportAllPagesAsPngZip P pdfViewer totalPages baseName None in
  let reporting :=
    Callback.exportAllPagesAsPngZip P pdfViewer totalPages baseName (Some callback) in
  match Callback.firstThrow callback (progressReports (events reporting)) with
  | None =>
      completion reporting = completion silent ∧
      withoutProgress (events reporting) = events silent
  | Some (percent, e) =>
      completion reporting = Throw e ∧
      last (events reporting) = Some (OnProgress percent) ∧
      withoutProgress (events reporting) `prefix_of` events silent ∧
      (percent ≠ 100 → exportFileCalls (events reporting) = [])
  end ∧
  progressReports (events silent) = [] ∧
  silent = exportAllPagesAsPngZip P pdfViewer totalPages baseName false ∧
  ((∀ percent, callback percent = Normal tt) →
   reporting = exportAllPagesAsPngZip P pdfViewer totalPages baseName true).
Proof.
  cbn zeta. split_and!.
  - destruct (Callback_follows_export callback P pdfViewer totalPages baseName)
      as [(Hnone & Hc & Ht)|(t & percent & e & Ht & Hnone & Hthrow & Hc & Hprefix)].
    + by rewrite Hnone.
    + rewrite Ht, progressReports_app, (Callback_firstThrow_app _ _ _ Hnone).
      cbn. rewrite Hthrow. rewrite <- Ht. split_and!; [done|by rewrite Ht, last_snoc| |].
      * rewrite Ht, withoutProgress_app. cbn. by rewrite app_nil_r.
      * intros Hnot.
        destruct (Callback_export_sink_last P pdfViewer totalPages baseName (Some callback))
          as [_ [Hnone'|[(d & f & m & Hlast)|Hlast]]]; [done|..];
          rewrite Ht, last_snoc in Hlast; congruence.
  - by apply Callback_export_sink_last.
  - by apply (Callback_export_returning P pdfViewer totalPages baseName None).
  - intros Hreturns.
    apply (Callback_export_returning P pdfViewer totalPages baseName (Some callback)).
    by intros ? percent [= <-].
Qed.

Lemma exportAllPagesAsPngZip_callback_is_observer_witness :
  let reporting :=
    Callback.exportAllPagesAsPngZip (samplePlatform true) (sampleViewer [2; 4] []) 5 "doc"
      (Some failingListener) in
  completion reporting = Throw (Rejected "listener failed") ∧
  last (events reporting) = Some (OnProgress 48) ∧
  withoutProgress (events reporting) `prefix_of`
    events (Callback.exportAllPagesAsPngZip (samplePlatform true) (sampleViewer [2; 4] [])
              5 "doc" None) ∧
  exportFileCalls (events reporting) = [].
Proof.
  cbn zeta.
  assert (Hfirst : Callback.firstThrow failingListener
                     (progressReports
                        (events (Callback.exportAllPagesAsPngZip (samplePlatform true)
                                   (sampleViewer [2; 4] []) 5 "doc" (Some failingListener)))) =
                   Some (48, Rejected "listener failed")) by (vm_compute; reflexivity).
  destruct (exportAllPagesAsPngZip_callback_is_observer (samplePlatform true)
              (sampleViewer [2; 4] []) 5 "doc" failingListener) as [Hends _].
  cbv zeta in Hends. rewrite Hfirst in Hends.
  destruct Hends as (Hthrows & Hlast & Hprefix & Hsink).
  split_and!; [exact Hthrows|exact Hlast|exact Hprefix|apply Hsink; lia].
Defined.

(** ** The archive and the file sink *)

(** X12. The file sink is called at most once per archive export, and only
    with what JSZip assembled from the one archive of the run, under the
    name [{baseName}_pages.zip] and MIME type application/zip; and a value
    the export returns is the answer the sink gave. *)
Theorem exportAllPagesAsPngZip_sink_call
    (P : Platform) (pdfViewer : PdfViewer) (totalPages : Z) (baseName : string)
    (onProgress : bool) :
  let run := exportAllPagesAsPngZip P pdfViewer totalPages baseName onProgress in
  (∀ call, call ∈ exportFileCalls (events run) →
     exportFileCalls (events run) = [call] ∧
     call.1.2 = baseName +:+ "_pages.zip" ∧ call.2 = "application/zip" ∧
     ∃ files, archives (events run) = [files] ∧
              JSZip_generateAsync P files = Normal call.1.1) ∧
  (∀ saved, completion run = Normal saved → sinkReports P (events run) saved).
Proof.
  cbn zeta.
  destruct (zipPages_no_sink pdfViewer totalPages onProgress (seqZ 1 totalPages) ∅ 0)
    as [Ha Hx]. cbn zeta in Ha, Hx.
  destruct (zipPages pdfViewer totalPages onProgress (seqZ 1 totalPages) ∅ 0)
    as [t [[zip filesAdded]|e]] eqn:Hloop; cbn [events fst] in Ha, Hx.
  2: { rewrite (exportAllPagesAsPngZip_loop_throws _ _ _ _ _ _ _ Hloop).
       cbn [events completion fst snd]. rewrite Hx. split; [|done].
       intros call Hin. by inversion Hin. }
  rewrite (exportAllPagesAsPngZip_after_loop _ _ _ _ _ _ _ _ Hloop).
  destruct (filesAdded =? 0).
  { cbn [events completion fst snd]. rewrite Hx. split; [|done].
    intros call Hin. by inversion Hin. }
  cbn zeta. unfold sinkReports, archives, exportFileCalls in *.
  destruct (JSZip_generateAsync P zip) as [zipBytes|e] eqn:Hgen.
  2: { cbn [events completion fst snd]. rewrite omap_app, Hx. split; [|done].
       intros call Hin. by inversion Hin. }
  assert (Hcalls : ∀ tail, omap (λ ev, match ev with
                                     | CallExportFile d f m => Some (d, f, m)
                                     | _ => None
                                     end)
            (((t ++ [CallGenerateAsync zip]) ++
              (if onProgress then [OnProgress 95] else []) ++
              [CallExportFile zipBytes (baseName +:+ "_pages.zip") "application/zip"]) ++
             (if tail && onProgress then [OnProgress 100] else [])) =
            [(zipBytes, baseName +:+ "_pages.zip", "application/zip")]).
  { intros tail. rewrite !omap_app, Hx. by destruct onProgress, tail. }
  assert (Harch : ∀ tail, omap (λ ev, match ev with
                                    | CallGenerateAsync files => Some files
                                    | _ => None
                                    end)
            (((t ++ [CallGenerateAsync zip]) ++
              (if onProgress then [OnProgress 95] else []) ++
              [CallExportFile zipBytes (baseName +:+ "_pages.zip") "application/zip"]) ++
             (if tail && onProgress then [OnProgress 100] else [])) = [zip]).
  { intros tail. rewrite !omap_app, Ha. by destruct onProgress, tail. }
  destruct (PDFExporter_exportFile P zipBytes _ _) as [saved|e] eqn:Hsink;
    cbn [events completion fst snd].
  - rewrite Hcalls, Harch. split.
    + intros call Hin. apply list_elem_of_singleton in Hin as ->.
      split_and!; [done..|]. by exists zip.
    + intros saved' [= <-]. eexists _, _, _. split; [by left|done].
  - specialize (Hcalls false). specialize (Harch false).
    rewrite app_nil_r in Hcalls, Harch. rewrite Hcalls, Harch. split; [|done].
    intros call Hin. apply list_elem_of_singleton in Hin as ->.
    split_and!; [done..|]. by exists zip.
Qed.

Lemma pagePercent_nonneg totalPages p : 0 < totalPages → 0 ≤ p → 0 ≤ pagePercent p totalPages.
Proof.
  intros HT Hp. transitivity (pagePercent 0 totalPages); [|by apply pagePercent_mono].
  unfold pagePercent, Math_round.
  assert (Heq : (inject_Z 0 / inject_Z totalPages * inject_Z 80 + (1 # 2) == 1 # 2)%Q).
  { unfold Qdiv. change (inject_Z 0) with 0%Q. ring. }
  by rewrite Heq.
Qed.

(** X13. Every value handed to the progress callback is a percentage: it
    lies between 0 and 100. *)
Theorem exportAllPagesAsPngZip_progress_range
    (P : Platform) (pdfViewer : PdfViewer) (totalPages : Z) (baseName : string)
    (onProgress : bool) :
  Forall (λ percent, 0 ≤ percent ≤ 100)
    (progressReports
       (events (exportAllPagesAsPngZip P pdfViewer totalPages baseName onProgress))).
Proof.
  assert (Hloop : Forall (λ percent, 0 ≤ percent ≤ 100)
            (progressReports (events (zipPages pdfViewer totalPages onProgress
                                        (seqZ 1 totalPages) ∅ 0)))).
  { eapply Forall_impl; [apply zipPages_reports_from_pages|].
    intros v (p & Hp & ->). apply elem_of_seqZ in Hp. split.
    - apply pagePercent_nonneg; lia.
    - etrans; [apply pagePercent_le_80; lia|lia]. }
  destruct (zipPages pdfViewer totalPages onProgress (seqZ 1 totalPages) ∅ 0)
    as [t [[zip filesAdded]|e]] eqn:Hrun; cbn [events fst] in Hloop.
  2: by rewrite (exportAllPagesAsPngZip_loop_throws _ _ _ _ _ _ _ Hrun).
  rewrite (exportAllPagesAsPngZip_after_loop _ _ _ _ _ _ _ _ Hrun).
  destruct (filesAdded =? 0); [done|]. cbn zeta. unfold progressReports in *.
  destruct (JSZip_generateAsync P zip) as [zipBytes|e]; cbn [events fst].
  2: { rewrite omap_app. apply Forall_app. split; [done|constructor]. }
  destruct (PDFExporter_exportFile P zipBytes _ _) as [saved|e]; cbn [events fst];
    rewrite !omap_app; repeat (apply Forall_app; split); try done;
    try (by constructor).
  all: try (destruct onProgress; repeat constructor; lia).
  destruct saved, onProgress; repeat constructor; lia.
Qed.

Lemma lookup_addPages_none pdfViewer pages page : ∀ zip,
  page ∉ pages ∨ renderedPng pdfViewer page = None →
  foldl (addPage pdfViewer) zip pages !! pageEntryName page = zip !! pageEntryName page.
Proof.
  induction pages as [|q rest IH]; intros zip Hout; [done|].
  cbn [foldl]. rewrite IH.
  - unfold addPage. destruct (renderedPng pdfViewer q) as [png|] eqn:Hq; [|done].
    rewrite lookup_insert_ne; [done|]. intros Heq. apply pageEntryName_inj in Heq as ->.
    destruct Hout as [Hout|Hout]; [|congruence]. apply Hout. by left.
  - destruct Hout as [Hout|Hout]; [left|by right].
    intros Hin. apply Hout. by right.
Qed.

Lemma iterationEvents_requests pdfViewer totalPages onProgress pages :
  canvasRequests (pages ≫= iterationEvents pdfViewer totalPages onProgress) = pages ∧
  warnings (pages ≫= iterationEvents pdfViewer totalPages onProgress) =
    SkippingPage <$> filter (λ p, renders pdfViewer p = false) pages.
Proof.
  unfold canvasRequests, warnings.
  induction pages as [|page pages [IHr IHw]]; [done|].
  rewrite bind_cons, !omap_app, IHr, IHw, filter_cons. unfold iterationEvents.
  destruct (renderedPng pdfViewer page) as [png|] eqn:Hr.
  - rewrite (renders_true _ _ _ Hr), decide_False by done.
    by destruct onProgress.
  - rewrite (renders_false _ _ Hr), decide_True by done. done.
Qed.

(** What follows the loop calls neither the viewer nor the console, and
    assembles the archive the loop built, if anything. *)
Lemma exportAllPagesAsPngZip_tail P pdfViewer totalPages baseName onProgress
    t zip filesAdded :
  zipPages pdfViewer totalPages onProgress (seqZ 1 totalPages) ∅ 0 =
    (t, Normal (zip, filesAdded)) →
  ∃ tail,
    events (exportAllPagesAsPngZip P pdfViewer totalPages baseName onProgress) = t ++ tail ∧
    canvasRequests tail = [] ∧ warnings tail = [] ∧
    (archives tail = [] ∨ archives tail = [zip]).
Proof.
  intros Hloop. rewrite (exportAllPagesAsPngZip_after_loop _ _ _ _ _ _ _ _ Hloop).
  destruct (filesAdded =? 0).
  { exists []. cbn [events fst]. rewrite app_nil_r. split_and!; [done..|by left]. }
  cbn zeta.
  destruct (JSZip_generateAsync P zip) as [zipBytes|e]; cbn [events fst].
  - destruct (PDFExporter_exportFile P zipBytes _ _) as [saved|e]; cbn [events fst];
      rewrite <- ?app_assoc; eexists; (split; [reflexivity|]).
    + destruct onProgress, saved; (split_and!; [reflexivity..|right; reflexivity]).
    + destruct onProgress; (split_and!; [reflexivity..|right; reflexivity]).
  - eexists. split; [reflexivity|]. split_and!; [reflexivity..|right; reflexivity].
Qed.

(** X14. In an archive export that assembles an archive, every page
    1..totalPages was requested from the viewer exactly once, in page
    order; each page without a canvas left one skip warning and nothing
    else; and the archive holds, under [page{N}.png], the PNG bytes of each
    page N that rendered, and no entry for a page that did not. *)
Theorem exportAllPagesAsPngZip_archive_contents
    (P : Platform) (pdfViewer : PdfViewer) (totalPages : Z) (baseName : string)
    (onProgress : bool) (files : gmap string Bytes) :
  let run := exportAllPagesAsPngZip P pdfViewer totalPages baseName onProgress in
  files ∈ archives (events run) →
  canvasRequests (events run) = seqZ 1 totalPages ∧
  warnings (events run) =
    SkippingPage <$> filter (λ p, renders pdfViewer p = false) (seqZ 1 totalPages) ∧
  ∀ page, files !! pageEntryName page =
            if bool_decide (1 ≤ page ≤ totalPages) then renderedPng pdfViewer page else None.
Proof.
  intros run Hfiles. subst run.
  destruct (zipPages_no_sink pdfViewer totalPages onProgress (seqZ 1 totalPages) ∅ 0)
    as [Ha _]. cbn zeta in Ha.
  destruct (zipPages pdfViewer totalPages onProgress (seqZ 1 totalPages) ∅ 0)
    as [t [[zip filesAdded]|e]] eqn:Hloop; cbn [events fst] in Ha.
  2: { rewrite (exportAllPagesAsPngZip_loop_throws _ _ _ _ _ _ _ Hloop) in Hfiles.
       cbn [events fst] in Hfiles. rewrite Ha in Hfiles. by inversion Hfiles. }
  assert (Hsettle : ∀ page, 1 ≤ page ≤ totalPages → page_settles pdfViewer page).
  { intros page Hpage.
    assert (Hall := zipPages_normal pdfViewer totalPages onProgress (seqZ 1 totalPages) ∅ 0
                      (zip, filesAdded)).
    rewrite Hloop in Hall. specialize (Hall eq_refl).
    rewrite Forall_seqZ in Hall. apply Hall. lia. }
  assert (Hpure := zipPages_all_settle pdfViewer totalPages onProgress Hsettle).
  rewrite Hloop in Hpure. injection Hpure as Ht Hzip _.
  destruct (iterationEvents_requests pdfViewer totalPages onProgress (seqZ 1 totalPages))
    as [Hreq Hwarn]. rewrite <- Ht in Hreq, Hwarn.
  destruct (exportAllPagesAsPngZip_tail P _ _ baseName _ _ _ _ Hloop)
    as (tail & Hev & Hr & Hw & Harch).
  rewrite Hev in Hfiles |- *.
  unfold archives, canvasRequests, warnings in *.
  rewrite omap_app, Ha in Hfiles. rewrite !omap_app.
  rewrite Hreq, Hwarn, Hr, Hw, !app_nil_r. split_and!; [done..|].
  assert (files = zip) as ->.
  { destruct Harch as [Hnone|Hone]; rewrite ?Hnone, ?Hone in Hfiles;
      [by inversion Hfiles|]. by apply list_elem_of_singleton in Hfiles. }
  intros page. rewrite Hzip. case_bool_decide as Hpage.
  - destruct (renderedPng pdfViewer page) as [png|] eqn:Hpng.
    + apply lookup_addPages; [|done]. apply elem_of_seqZ. lia.
    + rewrite lookup_addPages_none by by right. done.
  - rewrite lookup_addPages_none; [done|]. left. rewrite elem_of_seqZ. lia.
Qed.

Lemma exportAllPagesAsPngZip_archive_contents_witness :
  canvasRequests (events (fivePageRun true)) = seqZ 1 5 ∧
  warnings (events (fivePageRun true)) =
    SkippingPage <$> filter (λ p, renders (sampleViewer [2; 4] []) p = false) (seqZ 1 5) ∧
  ∀ page, (<["page5.png" := [ToUint8 5]]>
            (<["page3.png" := [ToUint8 3]]>
              (<["page1.png" := [ToUint8 1]]> (∅ : gmap string Bytes)))) !! pageEntryName page =
            if bool_decide (1 ≤ page ≤ 5)
            then renderedPng (sampleViewer [2; 4] []) page else None.
Proof.
  assert (Harch : archives (events (fivePageRun true)) =
            [<["page5.png" := [ToUint8 5]]>
              (<["page3.png" := [ToUint8 3]]>
                (<["page1.png" := [ToUint8 1]]> (∅ : gmap string Bytes)))])
    by (vm_compute; reflexivity).
  apply (exportAllPagesAsPngZip_archive_contents
           (samplePlatform true) (sampleViewer [2; 4] []) 5 "doc" true).
  fold (fivePageRun true). rewrite Harch. by left.
Defined.

(** X15. An archive export never assembles an empty archive: whatever the
    viewer does, an archive handed to JSZip has at least one entry, and as
    many entries as pages rendered. *)
Theorem exportAllPagesAsPngZip_archive_nonempty
    (P : Platform) (pdfViewer : PdfViewer) (totalPages : Z) (baseName : string)
    (onProgress : bool) (files : gmap string Bytes) :
  files ∈ archives (events (exportAllPagesAsPngZip P pdfViewer totalPages baseName
                              onProgress)) →
  (0 < size files)%nat ∧
  size files = length (filter (λ p, renders pdfViewer p = true) (seqZ 1 totalPages)).
Proof.
  intros Hfiles.
  destruct (zipPages_no_sink pdfViewer totalPages onProgress (seqZ 1 totalPages) ∅ 0)
    as [Ha _]. cbn zeta in Ha.
  destruct (zipPages pdfViewer totalPages onProgress (seqZ 1 totalPages) ∅ 0)
    as [t [[zip filesAdded]|e]] eqn:Hloop; cbn [events fst] in Ha.
  2: { rewrite (exportAllPagesAsPngZip_loop_throws _ _ _ _ _ _ _ Hloop) in Hfiles.
       cbn [events fst] in Hfiles. rewrite Ha in Hfiles. by inversion Hfiles. }
  assert (Hsettle : ∀ page, 1 ≤ page ≤ totalPages → page_settles pdfViewer page).
  { intros page Hpage.
    assert (Hall := zipPages_normal pdfViewer totalPages onProgress (seqZ 1 totalPages) ∅ 0
                      (zip, filesAdded)).
    rewrite Hloop in Hall. specialize (Hall eq_refl).
    rewrite Forall_seqZ in Hall. apply Hall. lia. }
  assert (Hpure := zipPages_all_settle pdfViewer totalPages onProgress Hsettle).
  rewrite Hloop in Hpure. injection Hpure as _ Hzip Hcount.
  destruct (decide (filesAdded = 0)) as [Hzero|Hn].
  { rewrite (exportAllPagesAsPngZip_after_loop _ _ _ _ _ _ _ _ Hloop) in Hfiles.
    rewrite Hzero in Hfiles. cbn [Z.eqb events fst] in Hfiles.
    rewrite Ha in Hfiles. by inversion Hfiles. }
  destruct (exportAllPagesAsPngZip_observed P _ _ baseName _ _ _ _ Hloop Hn) as [Harch _].
  rewrite Harch in Hfiles. apply list_elem_of_singleton in Hfiles as ->.
  rewrite Hzip, size_addPages by apply NoDup_seqZ. split; [lia|done].
Qed.

Lemma exportAllPagesAsPngZip_archive_nonempty_witness :
  (0 < size (<["page5.png" := [ToUint8 5]]>
              (<["page3.png" := [ToUint8 3]]>
                (<["page1.png" := [ToUint8 1]]> (∅ : gmap string Bytes)))))%nat ∧
  size (<["page5.png" := [ToUint8 5]]>
         (<["page3.png" := [ToUint8 3]]>
           (<["page1.png" := [ToUint8 1]]> (∅ : gmap string Bytes)))) =
    length (filter (λ p, renders (sampleViewer [2; 4] []) p = true) (seqZ 1 5)).
Proof.
  assert (Harch : archives (events (fivePageRun true)) =
            [<["page5.png" := [ToUint8 5]]>
              (<["page3.png" := [ToUint8 3]]>
                (<["page1.png" := [ToUint8 1]]> (∅ : gmap string Bytes)))])
    by (vm_compute; reflexivity).
  apply (exportAllPagesAsPngZip_archive_nonempty
           (samplePlatform true) (sampleViewer [2; 4] []) 5 "doc" true).
  fold (fivePageRun true). rewrite Harch. by left.
Defined.

(** * Touch gestures *)

Lemma map_set_ids key value entries :
  (Gesture.map_set key value entries).*1 =
    if bool_decide (key ∈ entries.*1) then entries.*1 else entries.*1 ++ [key].
Proof.
  induction entries as [|[key' value'] rest IH]; [done|].
  cbn [Gesture.map_set fmap list_fmap fst]. destruct (decide (key' = key)) as [->|Hne].
  - rewrite bool_decide_eq_true_2 by by left. done.
  - cbn [fmap list_fmap fst]. fold (rest.*1). rewrite IH.
    destruct (decide (key ∈ rest.*1)) as [Hin|Hnin].
    + rewrite !bool_decide_eq_true_2; [done|by right|done].
    + rewrite !bool_decide_eq_false_2; [done| |done].
      intros Hin. apply elem_of_cons in Hin as [?|?]; congruence.
Qed.

Lemma map_get_set key value entries id :
  Gesture.map_get id (Gesture.map_set key value entries) =
    if decide (id = key) then Some value else Gesture.map_get id entries.
Proof.
  induction entries as [|[key' value'] rest IH]; cbn [Gesture.map_set Gesture.map_get].
  - destruct (decide (key = id)), (decide (id = key)); congruence.
  - destruct (decide (key' = key)) as [->|Hne]; cbn [Gesture.map_get].
    + destruct (decide (key = id)), (decide (id = key)); congruence.
    + rewrite IH. destruct (decide (key' = id)), (decide (id = key)); congruence.
Qed.

(** X16. Tracking a pointer is an update in place or an append.  After
    [track(e)] the tracker returns [e] for [e]'s id and what it returned
    before for every other id; a pointer that was tracked keeps its place in
    the order (so a [pointermove] neither reorders nor adds pointers), a new
    pointer goes last and raises the count by one; and ids stay unique. *)
Theorem GestureTracker_track (e : Gesture.PointerEvent) (this : Gesture.GestureTracker) :
  let id := Gesture.pointerId e in
  let after := Gesture.track e this in
  (∀ other, Gesture.tracked other after =
              if decide (other = id) then Some e else Gesture.tracked other this) ∧
  Gesture.pointerIds after =
    (if bool_decide (id ∈ Gesture.pointerIds this) then Gesture.pointerIds this
     else Gesture.pointerIds this ++ [id]) ∧
  Gesture.count after =
    (if bool_decide (id ∈ Gesture.pointerIds this) then Gesture.count this
     else S (Gesture.count this)) ∧
  (NoDup (Gesture.pointerIds this) → NoDup (Gesture.pointerIds after)).
Proof.
  cbn zeta. unfold Gesture.tracked, Gesture.pointerIds, Gesture.count, Gesture.track.
  cbn [Gesture.activePointers].
  assert (Hids := map_set_ids (Gesture.pointerId e) e (Gesture.activePointers this)).
  split_and!.
  - intros other. apply map_get_set.
  - done.
  - rewrite <- !(length_fmap fst), Hids. case_bool_decide; [done|].
    rewrite length_app. simpl. lia.
  - intros Hnd. rewrite Hids. case_bool_decide as Hin; [done|].
    apply NoDup_app. split_and!; [done| |apply NoDup_singleton].
    intros k Hk Hk'. apply list_elem_of_singleton in Hk' as ->. done.
Qed.

Lemma map_delete_set_fresh key value entries :
  key ∉ entries.*1 →
  Gesture.map_delete key (Gesture.map_set key value entries) = entries.
Proof.
  induction entries as [|[key' value'] rest IH]; intros Hfresh.
  - cbn [Gesture.map_set Gesture.map_delete]. by rewrite decide_True.
  - cbn [Gesture.map_set]. apply not_elem_of_cons in Hfresh as [Hne Hrest].
    cbn [fst] in Hne. rewrite decide_False by congruence.
    cbn [Gesture.map_delete]. rewrite decide_False by congruence.
    by rewrite IH.
Qed.

(** X17. A finger that lands and lifts again leaves no trace: untracking a
    pointer right after tracking it, when it was not tracked before, gives
    back the tracker as it was. *)
Theorem GestureTracker_untrack_track
    (e : Gesture.PointerEvent) (this : Gesture.GestureTracker) :
  Gesture.pointerId e ∉ Gesture.pointerIds this →
  Gesture.untrack e (Gesture.track e this) = this.
Proof.
  intros Hfresh. unfold Gesture.untrack, Gesture.track. cbn [Gesture.activePointers].
  rewrite map_delete_set_fresh by done. by destruct this.
Qed.

Lemma GestureTracker_untrack_track_witness :
  Gesture.untrack {| Gesture.pointerId := 7; Gesture.clientX := 10; Gesture.clientY := 20 |}
    (Gesture.track {| Gesture.pointerId := 7; Gesture.clientX := 10; Gesture.clientY := 20 |}
       (Gesture.track {| Gesture.pointerId := 3; Gesture.clientX := 1; Gesture.clientY := 2 |}
          Gesture.new)) =
  Gesture.track {| Gesture.pointerId := 3; Gesture.clientX := 1; Gesture.clientY := 2 |}
    Gesture.new.
Proof.
  apply (GestureTracker_untrack_track
           {| Gesture.pointerId := 7; Gesture.clientX := 10; Gesture.clientY := 20 |}).
  intros Hin. apply list_elem_of_singleton in Hin. discriminate Hin.
Defined.

Lemma map_delete_ids key entries :
  (Gesture.map_delete key entries).*1 ⊆ entries.*1.
Proof.
  induction entries as [|[key' value'] rest IH]; [done|].
  cbn [Gesture.map_delete]. destruct (decide (key' = key)).
  - intros k Hk. by right.
  - cbn [fmap list_fmap fst]. intros k Hk.
    apply elem_of_cons in Hk as [->|Hk]; [by left|]. right. by apply IH.
Qed.

Lemma map_get_fresh key entries :
  key ∉ entries.*1 → Gesture.map_get key entries = None.
Proof.
  induction entries as [|[k v] rest IH]; intros Hfresh; [done|].
  apply not_elem_of_cons in Hfresh as [Hk Hrest].
  cbn [Gesture.map_get]. rewrite decide_False by (intros ->; by apply Hk). by apply IH.
Qed.

Lemma map_get_delete key entries id :
  NoDup entries.*1 →
  Gesture.map_get id (Gesture.map_delete key entries) =
    if decide (id = key) then None else Gesture.map_get id entries.
Proof.
  induction entries as [|[key' value'] rest IH]; intros Hnd.
  - cbn. by destruct (decide (id = key)).
  - apply NoDup_cons in Hnd as [Hfresh Hnd].
    cbn [Gesture.map_delete Gesture.map_get].
    destruct (decide (key' = key)) as [->|Hne].
    + destruct (decide (id = key)) as [->|Hid].
      * by apply map_get_fresh.
      * by rewrite decide_False by congruence.
    + cbn [Gesture.map_get]. rewrite IH by done.
      destruct (decide (key' = id)) as [->|?]; [|done].
      by rewrite decide_False by congruence.
Qed.

Lemma map_delete_NoDup key entries :
  NoDup entries.*1 → NoDup (Gesture.map_delete key entries).*1.
Proof.
  induction entries as [|[key' value'] rest IH]; intros Hnd; [done|].
  apply NoDup_cons in Hnd as [Hfresh Hnd]. cbn [fst] in Hfresh.
  cbn [Gesture.map_delete]. destruct (decide (key' = key)); [done|].
  cbn [fmap list_fmap fst]. apply NoDup_cons. split; [|by apply IH].
  intros Hin. apply Hfresh. by apply (map_delete_ids key rest).
Qed.

(** X18. Untracking forgets exactly one pointer.  In a tracker with unique
    ids, after [untrack(e)] the pointer of [e] is not tracked, every other
    pointer is tracked as before, and the ids stay unique; so a lifted
    finger can never take part in a later pinch. *)
Theorem GestureTracker_untrack (e : Gesture.PointerEvent) (this : Gesture.GestureTracker) :
  NoDup (Gesture.pointerIds this) →
  let after := Gesture.untrack e this in
  (∀ other, Gesture.tracked other after =
              if decide (other = Gesture.pointerId e) then None
              else Gesture.tracked other this) ∧
  NoDup (Gesture.pointerIds after).
Proof.
  intros Hnd. cbn zeta. unfold Gesture.tracked, Gesture.pointerIds, Gesture.untrack.
  cbn [Gesture.activePointers]. split.
  - intros other. by apply map_get_delete.
  - by apply map_delete_NoDup.
Qed.

Lemma GestureTracker_untrack_witness :
  (∀ other,
     Gesture.tracked other
       (Gesture.untrack
          {| Gesture.pointerId := 3; Gesture.clientX := 1; Gesture.clientY := 2 |}
          (Gesture.track
             {| Gesture.pointerId := 3; Gesture.clientX := 1; Gesture.clientY := 2 |}
             Gesture.new)) =
     if decide (other = 3) then None
     else Gesture.tracked other
            (Gesture.track
               {| Gesture.pointerId := 3; Gesture.clientX := 1; Gesture.clientY := 2 |}
               Gesture.new)) ∧
  NoDup (Gesture.pointerIds
           (Gesture.untrack
              {| Gesture.pointerId := 3; Gesture.clientX := 1; Gesture.clientY := 2 |}
              (Gesture.track
                 {| Gesture.pointerId := 3; Gesture.clientX := 1; Gesture.clientY := 2 |}
                 Gesture.new))).
Proof.
  apply (GestureTracker_untrack
           {| Gesture.pointerId := 3; Gesture.clientX := 1; Gesture.clientY := 2 |}).
  apply NoDup_singleton.
Defined.

(** X19. A pinch is read off the two earliest pointers still tracked.  A
    third finger that lands or moves changes neither the pinch distance nor
    the pinch midpoint nor the first pointer. *)
Theorem GestureTracker_pinch_ignores_other_pointers
    (Math_sqrt : Q → Q) (e a b : Gesture.PointerEvent) (ka kb : Z)
    (rest : list (Z * Gesture.PointerEvent)) :
  let this := {| Gesture.activePointers := (ka, a) :: (kb, b) :: rest |} in
  Gesture.pointerId e ≠ ka → Gesture.pointerId e ≠ kb →
  Gesture.getPinchDistance Math_sqrt (Gesture.track e this) =
    Gesture.getPinchDistance Math_sqrt this ∧
  Gesture.getPinchMidpoint (Gesture.track e this) = Gesture.getPinchMidpoint this ∧
  Gesture.getFirstPointer (Gesture.track e this) = Gesture.getFirstPointer this.
Proof.
  intros this Ha Hb. subst this.
  unfold Gesture.getPinchDistance, Gesture.getPinchMidpoint, Gesture.getFirstPointer,
    Gesture.firstTwo, Gesture.count, Gesture.track.
  cbn [Gesture.activePointers Gesture.map_set].
  rewrite !decide_False by congruence. done.
Qed.

Lemma GestureTracker_pinch_ignores_other_pointers_witness :
  Gesture.getPinchDistance (λ q, q)
    (Gesture.track {| Gesture.pointerId := 9; Gesture.clientX := 5; Gesture.clientY := 5 |}
       {| Gesture.activePointers :=
            [(1, {| Gesture.pointerId := 1; Gesture.clientX := 0; Gesture.clientY := 0 |});
             (2, {| Gesture.pointerId := 2; Gesture.clientX := 3; Gesture.clientY := 4 |})] |}) =
  Gesture.getPinchDistance (λ q, q)
    {| Gesture.activePointers :=
         [(1, {| Gesture.pointerId := 1; Gesture.clientX := 0; Gesture.clientY := 0 |});
          (2, {| Gesture.pointerId := 2; Gesture.clientX := 3; Gesture.clientY := 4 |})] |} ∧
  Gesture.getPinchMidpoint
    (Gesture.track {| Gesture.pointerId := 9; Gesture.clientX := 5; Gesture.clientY := 5 |}
       {| Gesture.activePointers :=
            [(1, {| Gesture.pointerId := 1; Gesture.clientX := 0; Gesture.clientY := 0 |});
             (2, {| Gesture.pointerId := 2; Gesture.clientX := 3; Gesture.clientY := 4 |})] |}) =
  Gesture.getPinchMidpoint
    {| Gesture.activePointers :=
         [(1, {| Gesture.pointerId := 1; Gesture.clientX := 0; Gesture.clientY := 0 |});
          (2, {| Gesture.pointerId := 2; Gesture.clientX := 3; Gesture.clientY := 4 |})] |} ∧
  Gesture.getFirstPointer
    (Gesture.track {| Gesture.pointerId := 9; Gesture.clientX := 5; Gesture.clientY := 5 |}
       {| Gesture.activePointers :=
            [(1, {| Gesture.pointerId := 1; Gesture.clientX := 0; Gesture.clientY := 0 |});
             (2, {| Gesture.pointerId := 2; Gesture.clientX := 3; Gesture.clientY := 4 |})] |}) =
  Gesture.getFirstPointer
    {| Gesture.activePointers :=
         [(1, {| Gesture.pointerId := 1; Gesture.clientX := 0; Gesture.clientY := 0 |});
          (2, {| Gesture.pointerId := 2; Gesture.clientX := 3; Gesture.clientY := 4 |})] |}.
Proof.
  apply (GestureTracker_pinch_ignores_other_pointers (λ q, q)
           {| Gesture.pointerId := 9; Gesture.clientX := 5; Gesture.clientY := 5 |}
           {| Gesture.pointerId := 1; Gesture.clientX := 0; Gesture.clientY := 0 |}
           {| Gesture.pointerId := 2; Gesture.clientX := 3; Gesture.clientY := 4 |}
           1 2 []); done.
Defined.

(** X20. [start] throws the sampled velocity away.  It calls [cancel]
    first, which zeroes the velocity, so whatever samples were added
    before, the one frame it requests finds both speeds under the
    threshold: the animation ends there and [onFrame] is never called. *)
Theorem PanInertia_start_discards_velocity
    (this : Inertia.PanInertia) (id nextId : nat) :
  (Inertia.start id this).2 =
    (match Inertia.rafId this with
     | Some pending => [Inertia.CancelAnimationFrame pending]
     | None => []
     end) ++ [Inertia.RequestAnimationFrame id] ∧
  Inertia.frame nextId (Inertia.start id this).1 = (Inertia.new, []).
Proof. by destruct this as [vx vy [pending|]]. Qed.

Lemma Inertia_lt_spec (a b : Q) : Inertia.lt a b = true ↔ (a < b)%Q.
Proof.
  unfold Inertia.lt. rewrite negb_true_iff. split.
  - intros Hle. apply Qnot_le_lt. intros H. apply Qle_bool_iff in H. congruence.
  - intros Hlt. destruct (Qle_bool b a) eqn:Hle; [|done].
    apply Qle_bool_iff in Hle. lra.
Qed.

Lemma Inertia_frames_idle ids this :
  Inertia.rafId this = None → Inertia.frames ids this = (this, []).
Proof.
  intros Hidle. induction ids as [|id rest IH]; [done|].
  cbn [Inertia.frames]. unfold Inertia.frame. rewrite Hidle. by rewrite IH.
Qed.

Lemma Inertia_frames_end ids : ∀ this,
  ids ≠ [] →
  (2 * (Qabs (Inertia.vx this) + Qabs (Inertia.vy this)) <
     (92 # 100) + (8 # 100) * inject_Z (Z.of_nat (length ids)))%Q →
  Inertia.rafId (Inertia.frames ids this).1 = None.
Proof.
  induction ids as [|id rest IH]; intros this Hne Hbound; [done|].
  cbn [Inertia.frames]. unfold Inertia.frame.
  destruct (Inertia.rafId this) as [pending|] eqn:Hpending.
  2: { rewrite Inertia_frames_idle by done. done. }
  unfold Inertia.tick, Inertia.decay, Inertia.minSpeed.
  assert (Hx : (Qabs (Inertia.vx this * (92 # 100)) == Qabs (Inertia.vx this) * (92 # 100))%Q).
  { rewrite Qabs_Qmult. by rewrite (Qabs_pos (92 # 100)). }
  assert (Hy : (Qabs (Inertia.vy this * (92 # 100)) == Qabs (Inertia.vy this) * (92 # 100))%Q).
  { rewrite Qabs_Qmult. by rewrite (Qabs_pos (92 # 100)). }
  assert (Hax := Qabs_nonneg (Inertia.vx this)).
  assert (Hay := Qabs_nonneg (Inertia.vy this)).
  assert (Hlen : (inject_Z (Z.of_nat (length (id :: rest))) ==
                  inject_Z (Z.of_nat (length rest)) + 1)%Q).
  { cbn [length]. rewrite Nat2Z.inj_succ, <- Z.add_1_r, inject_Z_plus. done. }
  rewrite Hlen in Hbound.
  assert (Hnonneg : (0 <= inject_Z (Z.of_nat (length rest)))%Q).
  { change 0%Q with (inject_Z 0). rewrite <- Zle_Qle. lia. }
  destruct (Inertia.lt (Qabs (Inertia.vx this * (92 # 100))) (1 # 2) &&
            Inertia.lt (Qabs (Inertia.vy this * (92 # 100))) (1 # 2)) eqn:Hstop.
  { rewrite Inertia_frames_idle by done. done. }
  destruct rest as [|id' rest].
  { exfalso. apply andb_false_iff in Hstop.
    cbn [length] in Hbound.
    destruct Hstop as [Hstop|Hstop];
      (destruct (Inertia.lt _ _) eqn:Hlt in Hstop; [done|]);
      apply not_true_iff_false in Hlt; apply Hlt, Inertia_lt_spec;
      rewrite ?Hx, ?Hy; change (inject_Z (Z.of_nat 0)) with 0%Q in Hbound; lra. }
  specialize (IH {| Inertia.vx := Inertia.vx this * (92 # 100);
                    Inertia.vy := Inertia.vy this * (92 # 100);
                    Inertia.rafId := Some id |} ltac:(done)).
  cbn [Inertia.vx Inertia.vy] in IH.
  destruct (Inertia.frames (id' :: rest) _) as [final later] eqn:Hframes.
  cbn [fst] in *. apply IH. rewrite Hx, Hy.
  assert (H1 : (1 <= inject_Z (Z.of_nat (length (id' :: rest))))%Q).
  { change 1%Q with (inject_Z 1). rewrite <- Zle_Qle. cbn [length]. lia. }
  lra.
Qed.

(** X22. Left alone, the inertia animation stops.  With velocity
    ([vx],[vy]) and no further sample, more than 25 (|vx| + |vy|) animation
    frames always bring the animation to an end: no frame is pending any
    more. *)
Theorem PanInertia_animation_ends (this : Inertia.PanInertia) (ids : list nat) :
  (25 * (Qabs (Inertia.vx this) + Qabs (Inertia.vy this)) <
     inject_Z (Z.of_nat (length ids)))%Q →
  Inertia.rafId (Inertia.frames ids this).1 = None.
Proof.
  intros Hmany. apply Inertia_frames_end.
  - intros ->. cbn [length] in Hmany. change (inject_Z (Z.of_nat 0)) with 0%Q in Hmany.
    assert (Hax := Qabs_nonneg (Inertia.vx this)).
    assert (Hay := Qabs_nonneg (Inertia.vy this)). lra.
  - lra.
Qed.

Lemma PanInertia_animation_ends_witness :
  Inertia.rafId
    (Inertia.frames (seq 0 26)
       {| Inertia.vx := 1; Inertia.vy := 0; Inertia.rafId := Some 0%nat |}).1 = None.
Proof.
  apply (PanInertia_animation_ends
           {| Inertia.vx := 1; Inertia.vy := 0; Inertia.rafId := Some 0%nat |} (seq 0 26)).
  by vm_compute.
Defined.

(** * Image import *)

Lemma test_pdf_suffix_app (s ext : string) :
  is_dot_pdf ext = true → test_pdf_suffix (s +:+ ext) = true.
Proof.
  intros Hext. induction s as [|c s IH].
  - change ("" +:+ ext) with ext. destruct ext; cbn [test_pdf_suffix]; by rewrite Hext.
  - change (String c s +:+ ext) with (String c (s +:+ ext)). cbn [test_pdf_suffix].
    rewrite IH. by destruct (is_dot_pdf (String c (s +:+ ext))).
Qed.

Lemma is_image_ext_cases (s : string) :
  is_image_ext s = true →
  toLowerCase s = ".png" ∨ toLowerCase s = ".jpg" ∨ toLowerCase s = ".jpeg" ∨
  toLowerCase s = ".webp".
Proof.
  unfold is_image_ext. cbn zeta. rewrite !orb_true_iff, !String.eqb_eq. tauto.
Qed.

Lemma is_image_ext_length (s : string) :
  is_image_ext s = true → (4 ≤ String.length s ≤ 5)%nat.
Proof.
  intros Hs. rewrite <- toLowerCase_length.
  destruct (is_image_ext_cases s Hs) as [-> | [-> | [-> | ->]]]; simpl; lia.
Qed.

(** No image extension sits one character inside another. *)
Lemma is_image_ext_not_nested (c : ascii) (ext : string) :
  is_image_ext ext = true → is_image_ext (String c ext) = false.
Proof.
  intros Hext. destruct (is_image_ext (String c ext)) eqn:Hc; [|done].
  apply is_image_ext_cases in Hext, Hc. cbn [toLowerCase] in Hc.
  destruct Hext as [Hext | [Hext | [Hext | Hext]]]; rewrite Hext in Hc;
    destruct Hc as [Hc | [Hc | [Hc | Hc]]]; discriminate Hc.
Qed.

Lemma replace_image_suffix_app (stem ext : string) :
  is_image_ext ext = true → replace_image_suffix (stem +:+ ext) = stem +:+ ".pdf".
Proof.
  intros Hext. induction stem as [|c stem IH].
  - change ("" +:+ ext) with ext. destruct ext; [done|].
    cbn [replace_image_suffix]. by rewrite Hext.
  - change (String c stem +:+ ext) with (String c (stem +:+ ext)).
    cbn [replace_image_suffix].
    destruct (is_image_ext (String c (stem +:+ ext))) eqn:Hnested.
    + exfalso. destruct stem as [|c' stem].
      * change ("" +:+ ext) with ext in Hnested.
        by rewrite is_image_ext_not_nested in Hnested.
      * apply is_image_ext_length in Hnested, Hext. simpl in Hnested.
        rewrite string_length_app in Hnested. lia.
    + by rewrite IH.
Qed.

(** The run of a conversion that returns. *)
Lemma convertImageToPDF_returns env file pdf :
  outcome (ImageImport.convertImageToPDF env file) = Normal pdf →
  ∃ embedding image pdfBytes,
    calls (ImageImport.convertImageToPDF env file) =
      ImageImport.PDFDocument_create :: embedding ++
      [ImageImport.AddPage (ImageImport.width image) (ImageImport.height image);
       ImageImport.DrawImage 0 0 (ImageImport.width image) (ImageImport.height image);
       ImageImport.PDFDocument_save; ImageImport.Date_now] ∧
    (∃ bytes,
       (ImageImport.EmbedPng bytes ∈ embedding ∧
        ImageImport.embedPng env bytes = Normal image) ∨
       (ImageImport.EmbedJpg bytes ∈ embedding ∧
        ImageImport.embedJpg env bytes = Normal image)) ∧
    ImageImport.save env image = Normal pdfBytes ∧
    pdf = {| Upload.name :=
               if negb (test_pdf_suffix (replace_image_suffix (Upload.name file)))
               then replace_image_suffix (Upload.name file) +:+ ".pdf"
               else replace_image_suffix (Upload.name file);
             Upload.type := "application/pdf";
             Upload.size := Z.of_nat (length pdfBytes);
             Upload.lastModified := ImageImport.now env;
             Upload.arrayBuffer := Normal pdfBytes |}.
Proof.
  unfold ImageImport.convertImageToPDF, outcome, calls.
  unfold ImageImport.settle, ImageImport.await, ImageImport.emit, ImageImport.throw.
  unfold mbind, mret, Trace_bind, Trace_ret.
  destruct (Upload.arrayBuffer file) as [bytes|e]; [|done].
  destruct (ImageImport.create env) as [[]|e]; [|done].
  cbn zeta.
  set (type := if String.eqb (Upload.type file) "" then _ else _).
  set (embedded := if String.eqb type "image/png" then _ else _).
  assert (Hembedded : ∀ image, embedded.2 = Normal image →
            ∃ b, (ImageImport.EmbedPng b ∈ embedded.1 ∧
                  ImageImport.embedPng env b = Normal image) ∨
                 (ImageImport.EmbedJpg b ∈ embedded.1 ∧
                  ImageImport.embedJpg env b = Normal image)).
  { subst embedded. intros image.
    destruct (String.eqb type "image/png").
    { intros Himage. exists bytes. left. split; [by left|done]. }
    destruct (String.eqb type "image/jpeg").
    { intros Himage. exists bytes. right. split; [by left|done]. }
    destruct (String.eqb type "image/webp"); [|done].
    destruct (ImageImport.webpToPng env bytes) as [t [pngBytes|e]]; [|done].
    cbn. intros Himage. exists pngBytes. left. split; [|done].
    apply elem_of_app. right. by left. }
  destruct embedded as [t [image|e]]; [|done]. cbn [fst snd] in Hembedded.
  destruct (ImageImport.save env image) as [pdfBytes|e] eqn:Hsave; [|done].
  cbn [fst snd]. intros [= <-]. exists t, image, pdfBytes.
  split_and!; [by rewrite <- ?app_assoc|by apply Hembedded|done|done].
Qed.

(** X23. What [convertImageToPDF] returns.  Whenever it returns a file, that
    file holds the bytes that [pdfDoc.save()] returned for the document with
    the one page drawn from the image that pdf-lib embedded in this run: the
    page has the image's size, the file's content is those bytes, its size
    their number, its type application/pdf and its date [Date.now()].  Its
    name ends in [.pdf] (in some letter case); and if the image's name ends
    in [.png], [.jpg], [.jpeg] or [.webp], in any letter case, the new name
    is the old one with that extension replaced by [.pdf]. *)
Theorem convertImageToPDF_result
    (env : ImageImport.Env) (file pdf : Upload.File) :
  let run := ImageImport.convertImageToPDF env file in
  outcome run = Normal pdf →
  (∃ image pdfBytes,
     (∃ bytes,
        (ImageImport.EmbedPng bytes ∈ calls run ∧
         ImageImport.embedPng env bytes = Normal image) ∨
        (ImageImport.EmbedJpg bytes ∈ calls run ∧
         ImageImport.embedJpg env bytes = Normal image)) ∧
     ImageImport.AddPage (ImageImport.width image) (ImageImport.height image) ∈ calls run ∧
     ImageImport.DrawImage 0 0 (ImageImport.width image) (ImageImport.height image)
       ∈ calls run ∧
     ImageImport.save env image = Normal pdfBytes ∧
     Upload.arrayBuffer pdf = Normal pdfBytes ∧
     Upload.size pdf = Z.of_nat (length pdfBytes)) ∧
  Upload.type pdf = "application/pdf" ∧
  Upload.lastModified pdf = ImageImport.now env ∧
  test_pdf_suffix (Upload.name pdf) = true ∧
  ∀ stem ext, Upload.name file = stem +:+ ext → is_image_ext ext = true →
              Upload.name pdf = stem +:+ ".pdf".
Proof.
  cbn zeta. intros Hpdf.
  destruct (convertImageToPDF_returns env file pdf Hpdf)
    as (embedding & image & pdfBytes & -> & [bytes Hbytes] & Hsave & ->).
  cbn [Upload.type Upload.name Upload.arrayBuffer Upload.size Upload.lastModified].
  split_and!.
  - exists image, pdfBytes. split_and!; [|..|done|done|done].
    + exists bytes. destruct Hbytes as [[Hin Hb]|[Hin Hb]]; [left|right];
        (split; [|done]); right; apply elem_of_app; by left.
    + right. apply elem_of_app. right. by left.
    + right. apply elem_of_app. right. right. by left.
  - done.
  - done.
  - destruct (test_pdf_suffix (replace_image_suffix (Upload.name file))) eqn:Htest;
      cbn [negb]; [done|]. by apply test_pdf_suffix_app.
  - intros stem ext -> Hext. rewrite replace_image_suffix_app by done.
    by rewrite test_pdf_suffix_app.
Qed.

Lemma convertImageToPDF_result_witness :
  (∃ image pdfBytes,
     (∃ bytes,
        (ImageImport.EmbedPng bytes ∈
           calls (ImageImport.convertImageToPDF ImportSample.env
                    (ImportSample.image "Holiday.JPEG" "")) ∧
         ImageImport.embedPng ImportSample.env bytes = Normal image) ∨
        (ImageImport.EmbedJpg bytes ∈
           calls (ImageImport.convertImageToPDF ImportSample.env
                    (ImportSample.image "Holiday.JPEG" "")) ∧
         ImageImport.embedJpg ImportSample.env bytes = Normal image)) ∧
     ImageImport.AddPage (ImageImport.width image) (ImageImport.height image) ∈
       calls (ImageImport.convertImageToPDF ImportSample.env
                (ImportSample.image "Holiday.JPEG" "")) ∧
     ImageImport.DrawImage 0 0 (ImageImport.width image) (ImageImport.height image) ∈
       calls (ImageImport.convertImageToPDF ImportSample.env
                (ImportSample.image "Holiday.JPEG" "")) ∧
     ImageImport.save ImportSample.env image = Normal pdfBytes ∧
     Upload.arrayBuffer ImportSample.holidayPdf = Normal pdfBytes ∧
     Upload.size ImportSample.holidayPdf = Z.of_nat (length pdfBytes)) ∧
  Upload.type ImportSample.holidayPdf = "application/pdf" ∧
  Upload.lastModified ImportSample.holidayPdf = ImageImport.now ImportSample.env ∧
  test_pdf_suffix (Upload.name ImportSample.holidayPdf) = true ∧
  ∀ stem ext, "Holiday.JPEG" = stem +:+ ext → is_image_ext ext = true →
              Upload.name ImportSample.holidayPdf = stem +:+ ".pdf".
Proof.
  apply (convertImageToPDF_result ImportSample.env (ImportSample.image "Holiday.JPEG" "")).
  reflexivity.
Defined.

(** X24. A file that is no PNG, JPEG or WEBP is refused before anything is
    decoded.  The type is the one the browser declared, and is inferred
    from the name only when the browser declared none; if it is none of the
    three, the conversion throws the unsupported-type error naming it,
    having created the document but embedded and saved nothing. *)
Theorem convertImageToPDF_unsupported
    (env : ImageImport.Env) (file : Upload.File) (bytes : Bytes) :
  let type := if String.eqb (Upload.type file) ""
              then ImageImport.inferMimeType (Upload.name file)
              else Upload.type file in
  Upload.arrayBuffer file = Normal bytes →
  ImageImport.create env = Normal tt →
  type ≠ "image/png" → type ≠ "image/jpeg" → type ≠ "image/webp" →
  ImageImport.convertImageToPDF env file =
    ([ImageImport.PDFDocument_create],
     Throw (new_Error ("Unsupported image type: " +:+ type))).
Proof.
  intros type Hbytes Hcreate Hpng Hjpeg Hwebp.
  unfold ImageImport.convertImageToPDF.
  unfold ImageImport.settle, ImageImport.await, ImageImport.emit, ImageImport.throw.
  unfold mbind, mret, Trace_bind, Trace_ret.
  rewrite Hbytes, Hcreate. cbn zeta. fold type.
  apply String.eqb_neq in Hpng, Hjpeg, Hwebp. by rewrite Hpng, Hjpeg, Hwebp.
Qed.

Lemma convertImageToPDF_unsupported_witness :
  ImageImport.convertImageToPDF ImportSample.env (ImportSample.image "notes.png" "image/gif") =
    ([ImageImport.PDFDocument_create],
     Throw (new_Error ("Unsupported image type: " +:+ "image/gif"))).
Proof.
  apply (convertImageToPDF_unsupported ImportSample.env
           (ImportSample.image "notes.png" "image/gif") [Byte.x89]); done.
Defined.

(** X25. The WEBP conversion releases its object URL.  Outside a browser
    it throws before creating one; in a browser it creates exactly one
    object URL and, whether the image loads, the canvas has a context and
    the encoding succeeds or not, its last act is to revoke that URL. *)
Theorem webpToPng_revokes_url (env : ImageImport.Env) (webpBytes : Bytes) :
  let run := ImageImport.webpToPng env webpBytes in
  if ImageImport.inBrowser env then
    ∃ between,
      calls run =
        ImageImport.CreateObjectURL webpBytes :: between ++
        [ImageImport.RevokeObjectURL (ImageImport.createObjectURL env webpBytes)] ∧
      Forall (λ call, match call with
                      | ImageImport.CreateObjectURL _ | ImageImport.RevokeObjectURL _ => False
                      | _ => True
                      end) between
  else calls run = [] ∧ is_thrown (outcome run).
Proof.
  cbn zeta. unfold ImageImport.webpToPng, ImageImport.loadImage, try_finally, calls,
    outcome.
  unfold ImageImport.settle, ImageImport.await, ImageImport.emit, ImageImport.throw.
  unfold mbind, mret, Trace_bind, Trace_ret.
  destruct (ImageImport.inBrowser env); cbn [negb]; [|split; [done|by eexists]].
  set (url := ImageImport.createObjectURL env webpBytes).
  destruct (ImageImport.imageLoads env url) as [img|]; cbn.
  - destruct (ImageImport.hasContext env); cbn.
    + exists [ImageImport.LoadImage url;
              ImageImport.CreateCanvas (ImageImport.naturalWidth img)
                (ImageImport.naturalHeight img);
              ImageImport.GetContext; ImageImport.CanvasDrawImage;
              ImageImport.CanvasToBlob].
      destruct (ImageImport.toBlob env img); cbn; (split; [reflexivity|]);
        repeat constructor.
    + exists [ImageImport.LoadImage url;
              ImageImport.CreateCanvas (ImageImport.naturalWidth img)
                (ImageImport.naturalHeight img);
              ImageImport.GetContext].
      split; [reflexivity|]. repeat constructor.
  - exists [ImageImport.LoadImage url]. split; [reflexivity|]. repeat constructor.
Qed.

(** ** The PNG export component *)

Lemma exportAllPagesAsPngZip_sink P pdfViewer totalPages baseName onProgress :
  let run := exportAllPagesAsPngZip P pdfViewer totalPages baseName onProgress in
  let filename := baseName +:+ "_pages.zip" in
  match completion run with
  | Normal saved =>
      ∃ data, exportFileCalls (events run) = [(data, filename, "application/zip")] ∧
              PDFExporter_exportFile P data filename "application/zip" = Normal saved ∧
              (onProgress = true →
               last (progressReports (events run)) = Some (if saved then 100 else 95))
  | Throw e => ∀ saved, ¬ sinkReports P (events run) saved
  end.
Proof.
  cbn zeta.
  destruct (zipPages_no_sink pdfViewer totalPages onProgress (seqZ 1 totalPages) ∅ 0)
    as [_ Hx]. cbn zeta in Hx.
  destruct (zipPages pdfViewer totalPages onProgress (seqZ 1 totalPages) ∅ 0)
    as [t [[zip filesAdded]|e]] eqn:Hloop; cbn [events fst] in Hx.
  2: { rewrite (exportAllPagesAsPngZip_loop_throws _ _ _ _ _ _ _ Hloop).
       cbn [events completion fst snd]. intros saved (d & f & m & Hin & _).
       rewrite Hx in Hin. by inversion Hin. }
  rewrite (exportAllPagesAsPngZip_after_loop _ _ _ _ _ _ _ _ Hloop).
  destruct (filesAdded =? 0).
  { cbn [events completion fst snd]. intros saved (d & f & m & Hin & _).
    rewrite Hx in Hin. by inversion Hin. }
  cbn zeta. unfold sinkReports, exportFileCalls, progressReports in *.
  destruct (JSZip_generateAsync P zip) as [zipBytes|e].
  2: { cbn [events completion fst snd]. intros saved (d & f & m & Hin & _).
       rewrite omap_app, Hx in Hin. by inversion Hin. }
  destruct (PDFExporter_exportFile P zipBytes _ _) as [saved|e] eqn:Hsink;
    cbn [events completion fst snd].
  - exists zipBytes. rewrite !omap_app, Hx. split_and!.
    + by destruct saved, onProgress.
    + done.
    + intros ->. destruct saved; rewrite !last_app; reflexivity.
  - intros saved (d & f & m & Hin & Hd). rewrite !omap_app, Hx in Hin.
    destruct onProgress; cbn in Hin; apply list_elem_of_singleton in Hin;
      injection Hin as -> -> ->; congruence.
Qed.

Lemma exportCurrentPageAsPng_sink P pdfViewer currentPage baseName :
  let run := exportCurrentPageAsPng P pdfViewer currentPage baseName in
  let filename := baseName +:+ "_page" +:+ pretty currentPage +:+ ".png" in
  match completion run with
  | Normal saved =>
      ∃ data, exportFileCalls (events run) = [(data, filename, "image/png")] ∧
              PDFExporter_exportFile P data filename "image/png" = Normal saved
  | Throw e => ∀ saved, ¬ sinkReports P (events run) saved
  end.
Proof.
  cbn zeta. unfold exportCurrentPageAsPng, canvasToPngBlob, sinkReports.
  unfold events, completion. simpl.
  destruct (getMergedCanvasForPage pdfViewer currentPage) as [[canvas|]|e]; simpl;
    try (intros saved (d & f & m & Hin & _); by inversion Hin).
  destruct (toBlob_png canvas) as [png|]; simpl;
    try (intros saved (d & f & m & Hin & _); by inversion Hin).
  destruct (PDFExporter_exportFile P png _ _) as [saved|e] eqn:Hsink; simpl.
  - by exists png.
  - intros saved (d & f & m & Hin & Hd). apply list_elem_of_singleton in Hin.
    injection Hin as -> -> ->. congruence.
Qed.

Lemma PngExport_handlerEvents_Handler (t : list Event) :
  PngExport.handlerEvents (PngExport.Handler <$> t) = t.
Proof. induction t as [|ev t IH]; [done|]. cbn. f_equal. apply IH. Qed.

Lemma PngExport_reportedFilenames_Handler (t : list Event) :
  PngExport.reportedFilenames (PngExport.Handler <$> t) = [].
Proof. induction t as [|ev t IH]; [done|]. cbn. apply IH. Qed.

Lemma PngExport_onProgress_fold (st : PngExport.State) (reports : list Z) :
  let st' := foldl PngExport.onProgress st reports in
  PngExport.isExporting st' = PngExport.isExporting st ∧
  PngExport.exportStatus st' = PngExport.exportStatus st ∧
  PngExport.exportOperation st' = PngExport.exportOperation st ∧
  PngExport.exportProgress st' = default (PngExport.exportProgress st) (last reports).
Proof.
  cbn zeta. revert st. induction reports as [|r reports IH] using rev_ind; intros st.
  - done.
  - rewrite foldl_app, last_snoc. cbn. by destruct (IH st) as (-> & -> & -> & _).
Qed.

(** What [doExport] leaves behind when the handler it called is [run]. *)
Lemma PngExport_doExport_unfold env props ctx st :
  PngExport.getExportContext props = Some ctx →
  PngExport.forceSaveAllAnnotations env = Normal tt →
  ∃ st1 run,
    PngExport.isExporting st1 = true ∧
    PngExport.exportStatus st1 = PngExport.processing ∧
    run = (if PngExport.totalPages ctx =? 1
           then exportCurrentPageAsPng (PngExport.platform env) (PngExport.pdfViewer ctx)
                  (PngExport.currentPage ctx) (PngExport.baseName ctx)
           else exportAllPagesAsPngZip (PngExport.platform env) (PngExport.pdfViewer ctx)
                  (PngExport.totalPages ctx) (PngExport.baseName ctx) true) ∧
    PngExport.exportProgress st1 =
      (if PngExport.totalPages ctx =? 1 then 30
       else default 5 (last (progressReports (events run)))) ∧
    let calls := PngExport.ForceSaveAllAnnotations :: (PngExport.Handler <$> events run) in
    let filename :=
      if PngExport.totalPages ctx =? 1
      then PngExport.baseName ctx +:+ "_page" +:+ pretty (PngExport.currentPage ctx) +:+ ".png"
      else PngExport.baseName ctx +:+ "_pages.zip" in
    PngExport.doExport env props st =
      match completion run with
      | Throw e => PngExport.failed st1 calls e
      | Normal true =>
          let done :=
            {| PngExport.isExporting := true;
               PngExport.exportOperation := "Export Complete";
               PngExport.exportStatus := PngExport.success;
               PngExport.exportMessage := filename;
               PngExport.exportProgress := 100 |} in
          let logged :=
            calls ++ [PngExport.ConsoleLog ("PNG export successful: " +:+ filename)] in
          match PngExport.onExportSuccess props with
          | None => (done, logged)
          | Some callback =>
              match callback filename with
              | Normal _ => (done, logged ++ [PngExport.OnExportSuccess filename])
              | Throw e =>
                  PngExport.failed done (logged ++ [PngExport.OnExportSuccess filename]) e
              end
          end
      | Normal false =>
          ({| PngExport.isExporting := false;
              PngExport.exportOperation := PngExport.exportOperation st1;
              PngExport.exportStatus := PngExport.processing;
              PngExport.exportMessage := PngExport.exportMessage st1;
              PngExport.exportProgress := PngExport.exportProgress st1 |},
           calls ++ [PngExport.ConsoleLog "PNG export was cancelled by user"])
      end.
Proof.
  intros Hctx Hflush. unfold PngExport.doExport. rewrite Hctx, Hflush.
  destruct (PngExport.totalPages ctx =? 1) eqn:Hsingle.
  - exists {| PngExport.isExporting := true;
              PngExport.exportOperation := "Exporting PNG";
              PngExport.exportStatus := PngExport.processing;
              PngExport.exportMessage := "Converting to PNG...";
              PngExport.exportProgress := 30 |}.
    eexists. split_and!; [reflexivity..|].
    cbn zeta. destruct (completion _) as [[]|e]; reflexivity.
  - cbv beta iota zeta.
    cbn [PngExport.isExporting PngExport.exportStatus PngExport.exportProgress
         PngExport.exportOperation PngExport.exportMessage].
    match goal with
    | |- context [foldl PngExport.onProgress ?s ?l] =>
        destruct (PngExport_onProgress_fold s l) as (Hi & Hs & Ho & Hp);
        exists (foldl PngExport.onProgress s l)
    end.
    cbn zeta in Hi, Hs, Ho, Hp. cbn [PngExport.isExporting PngExport.exportStatus
      PngExport.exportProgress PngExport.exportOperation] in Hi, Hs, Ho, Hp.
    eexists. split_and!; [exact Hi|exact Hs|reflexivity|exact Hp|].
    destruct (completion _) as [[]|e]; rewrite ?Hi, ?Hs; reflexivity.
Qed.

Lemma PngExport_handlerEvents_calls (t : list Event) (tail : list PngExport.Call) :
  PngExport.handlerEvents tail = [] →
  PngExport.handlerEvents
    ((PngExport.ForceSaveAllAnnotations :: (PngExport.Handler <$> t)) ++ tail) = t.
Proof.
  intros Htail.
  change (PngExport.handlerEvents ((PngExport.Handler <$> t) ++ tail) = t).
  unfold PngExport.handlerEvents in *.
  rewrite omap_app, Htail, app_nil_r. apply PngExport_handlerEvents_Handler.
Qed.

Lemma PngExport_reportedFilenames_calls (t : list Event) (tail : list PngExport.Call) :
  PngExport.reportedFilenames
    ((PngExport.ForceSaveAllAnnotations :: (PngExport.Handler <$> t)) ++ tail) =
  PngExport.reportedFilenames tail.
Proof.
  change (PngExport.reportedFilenames ((PngExport.Handler <$> t) ++ tail) =
          PngExport.reportedFilenames tail).
  pose proof (PngExport_reportedFilenames_Handler t) as Ht.
  unfold PngExport.reportedFilenames in *. by rewrite omap_app, Ht.
Qed.

(** The answer of the file sink behind the value the handler returns. *)
Lemma PngExport_handler_sink (P : Platform) (ctx : PngExport.ExportContext) :
  let single := PngExport.totalPages ctx =? 1 in
  let run := if single
             then exportCurrentPageAsPng P (PngExport.pdfViewer ctx)
                    (PngExport.currentPage ctx) (PngExport.baseName ctx)
             else exportAllPagesAsPngZip P (PngExport.pdfViewer ctx)
                    (PngExport.totalPages ctx) (PngExport.baseName ctx) true in
  let filename :=
    if single
    then PngExport.baseName ctx +:+ "_page" +:+ pretty (PngExport.currentPage ctx) +:+ ".png"
    else PngExport.baseName ctx +:+ "_pages.zip" in
  let mime := if single then "image/png" else "application/zip" in
  match completion run with
  | Normal saved =>
      ∃ data, exportFileCalls (events run) = [(data, filename, mime)] ∧
              PDFExporter_exportFile P data filename mime = Normal saved ∧
              (single = false →
               last (progressReports (events run)) = Some (if saved then 100 else 95))
  | Throw e => ∀ saved, ¬ sinkReports P (events run) saved
  end.
Proof.
  cbn zeta. destruct (PngExport.totalPages ctx =? 1).
  - assert (H := exportCurrentPageAsPng_sink P (PngExport.pdfViewer ctx)
                   (PngExport.currentPage ctx) (PngExport.baseName ctx)).
    cbn zeta in H. destruct (completion _) as [saved|e]; [|done].
    destruct H as (data & Hcall & Hsink). by exists data.
  - assert (H := exportAllPagesAsPngZip_sink P (PngExport.pdfViewer ctx)
                   (PngExport.totalPages ctx) (PngExport.baseName ctx) true).
    cbn zeta in H. destruct (completion _) as [saved|e]; [|done].
    destruct H as (data & Hcall & Hsink & Hlast). exists data. auto.
Qed.

(** X26. How an export ends, read off the progress card.  With an export
    context, [doExport] leaves one of three states.  Success: the card stays
    up at 100 percent and shows the file name, which is the name under which
    the file sink saved the file, and the analytics callback, if passed,
    was called once with that name and returned.  Error: the card stays up
    at 0 percent and the error is the last thing logged; then either the
    sink has reported nothing and the analytics callback was not called, or
    the file was saved and it is the analytics callback, called with the
    file's name, that threw the error.  Still processing: the card is taken
    down, the user has cancelled the save dialog, and the progress stands at
    30 (single page) or 95 (archive). *)
Theorem PngExport_doExport_outcomes
    (env : PngExport.Env) (props : PngExport.Props) (ctx : PngExport.ExportContext)
    (st : PngExport.State) :
  PngExport.getExportContext props = Some ctx →
  let st' := (PngExport.doExport env props st).1 in
  let calls := (PngExport.doExport env props st).2 in
  let single := PngExport.totalPages ctx =? 1 in
  let filename :=
    if single
    then PngExport.baseName ctx +:+ "_page" +:+ pretty (PngExport.currentPage ctx) +:+ ".png"
    else PngExport.baseName ctx +:+ "_pages.zip" in
  let saved :=
    ∃ data mime,
      exportFileCalls (PngExport.handlerEvents calls) = [(data, filename, mime)] ∧
      PDFExporter_exportFile (PngExport.platform env) data filename mime = Normal true in
  match PngExport.exportStatus st' with
  | PngExport.success =>
      PngExport.isExporting st' = true ∧
      PngExport.exportProgress st' = 100 ∧
      PngExport.exportMessage st' = filename ∧
      saved ∧
      match PngExport.onExportSuccess props with
      | Some callback =>
          PngExport.reportedFilenames calls = [filename] ∧
          ¬ is_thrown (callback filename)
      | None => PngExport.reportedFilenames calls = []
      end
  | PngExport.error =>
      PngExport.isExporting st' = true ∧
      PngExport.exportProgress st' = 0 ∧
      ∃ e, last calls = Some (PngExport.ConsoleError e) ∧
           (((∀ answer, ¬ sinkReports (PngExport.platform env)
                            (PngExport.handlerEvents calls) answer) ∧
             PngExport.reportedFilenames calls = []) ∨
            (saved ∧
             PngExport.reportedFilenames calls = [filename] ∧
             ∃ callback, PngExport.onExportSuccess props = Some callback ∧
                         callback filename = Throw e))
  | PngExport.processing =>
      PngExport.isExporting st' = false ∧
      PngExport.exportProgress st' = (if single then 30 else 95) ∧
      sinkReports (PngExport.platform env) (PngExport.handlerEvents calls) false ∧
      PngExport.reportedFilenames calls = []
  end.
Proof.
  intros Hctx. cbn zeta.
  destruct (PngExport.forceSaveAllAnnotations env) as [[]|e] eqn:Hflush.
  - destruct (PngExport_doExport_unfold env props ctx st Hctx Hflush)
      as (st1 & run & Hi & Hs & Hrun & Hp & Hdo).
    cbn zeta in Hdo. rewrite Hdo. clear Hdo.
    assert (Hsink := PngExport_handler_sink (PngExport.platform env) ctx).
    cbn zeta in Hsink. rewrite <- Hrun in Hsink.
    destruct (completion run) as [[]|e].
    + destruct Hsink as (data & Hcall & Hsaved & _).
      destruct (PngExport.onExportSuccess props) as [callback|] eqn:Hcallback.
      * destruct (callback _) as [[]|e] eqn:Hreturn; unfold PngExport.failed;
          cbn [fst snd PngExport.exportStatus PngExport.isExporting
               PngExport.exportProgress PngExport.exportMessage];
          rewrite <- !app_assoc;
          rewrite PngExport_reportedFilenames_calls, PngExport_handlerEvents_calls by done.
        -- split_and!; [done..|by eexists _, _|done|by intros [? ?]].
        -- split_and!; [done..|]. exists e. split; [by rewrite !app_assoc, last_snoc|].
           right. split_and!; [by eexists _, _|done|by eexists].
      * cbn [fst snd PngExport.exportStatus PngExport.isExporting
             PngExport.exportProgress PngExport.exportMessage].
        rewrite PngExport_reportedFilenames_calls, PngExport_handlerEvents_calls by done.
        split_and!; [done..|by eexists _, _|done].
    + destruct Hsink as (data & Hcall & Hsaved & Hlast).
      cbn [fst snd PngExport.exportStatus PngExport.isExporting PngExport.exportProgress].
      rewrite PngExport_reportedFilenames_calls, PngExport_handlerEvents_calls by done.
      split_and!; [done| |by eexists _, _, _; rewrite Hcall; split; [left|]|done].
      rewrite Hp. destruct (PngExport.totalPages ctx =? 1); [done|].
      by rewrite Hlast.
    + unfold PngExport.failed.
      cbn [fst snd PngExport.exportStatus PngExport.isExporting PngExport.exportProgress].
      rewrite PngExport_reportedFilenames_calls, PngExport_handlerEvents_calls by done.
      split_and!; [done|done|]. exists e. split; [by rewrite last_snoc|]. by left.
  - unfold PngExport.doExport. rewrite Hctx, Hflush. unfold PngExport.failed.
    cbn [fst snd PngExport.exportStatus PngExport.isExporting PngExport.exportProgress].
    split_and!; [done|done|]. exists e. split; [done|]. left. split; [|done].
    intros answer (d & f & m & Hin & _). by inversion Hin.
Qed.

Lemma PngExport_doExport_outcomes_witness :
  let result := PngExport.doExport (ExportSample.env true) (ExportSample.throwingProps 3)
                  PngExport.initial in
  PngExport.exportStatus result.1 = PngExport.error ∧
  PngExport.isExporting result.1 = true ∧
  PngExport.exportProgress result.1 = 0 ∧
  last result.2 = Some (PngExport.ConsoleError (Rejected "analytics offline")) ∧
  PngExport.reportedFilenames result.2 = ["doc_pages.zip"] ∧
  ∃ data mime,
    exportFileCalls (PngExport.handlerEvents result.2) = [(data, "doc_pages.zip", mime)] ∧
    PDFExporter_exportFile (samplePlatform true) data "doc_pages.zip" mime = Normal true.
Proof.
  cbn zeta.
  assert (Hstatus : PngExport.exportStatus
                      (PngExport.doExport (ExportSample.env true)
                         (ExportSample.throwingProps 3) PngExport.initial).1 =
                    PngExport.error) by (vm_compute; reflexivity).
  assert (Houtcome := PngExport_doExport_outcomes (ExportSample.env true)
                        (ExportSample.throwingProps 3) (ExportSample.ctx 3)
                        PngExport.initial eq_refl).
  cbv zeta in Houtcome. rewrite Hstatus in Houtcome.
  destruct Houtcome as (Hup & Hzero & e & Hlast & Hcases).
  destruct Hcases as [[_ Hnone]|(Hsaved & Hreported & callback & Hcallback & Hthrown)].
  - exfalso. revert Hnone. vm_compute. discriminate.
  - injection Hcallback as <-. injection Hthrown as <-.
    split_and!; [exact Hstatus|exact Hup|exact Hzero|exact Hlast|exact Hreported|exact Hsaved].
Defined.

(** Where [doExport] starts and whether it leaves the card up. *)
Lemma PngExport_doExport_card env props ctx st :
  PngExport.getExportContext props = Some ctx →
  let st' := (PngExport.doExport env props st).1 in
  (∃ rest, (PngExport.doExport env props st).2 = PngExport.ForceSaveAllAnnotations :: rest ∧
           (is_thrown (PngExport.forceSaveAllAnnotations env) →
            PngExport.handlerEvents rest = [])) ∧
  (PngExport.isExporting st' = true ↔ PngExport.exportStatus st' ≠ PngExport.processing).
Proof.
  intros Hctx. cbn zeta.
  destruct (PngExport.forceSaveAllAnnotations env) as [[]|e] eqn:Hflush.
  - destruct (PngExport_doExport_unfold env props ctx st Hctx Hflush)
      as (st1 & run & Hi & Hs & Hrun & Hp & Hdo).
    cbn zeta in Hdo. rewrite Hdo. clear Hdo.
    destruct (completion run) as [[]|e];
      [destruct (PngExport.onExportSuccess props) as [callback|];
         [destruct (callback _) as [[]|e]|]| |];
      unfold PngExport.failed;
      cbn [fst snd PngExport.exportStatus PngExport.isExporting];
      (split; [eexists; split; [reflexivity|by intros [? ?]]|]); split; done.
  - unfold PngExport.doExport. rewrite Hctx, Hflush. unfold PngExport.failed.
    cbn [fst snd PngExport.exportStatus PngExport.isExporting app].
    split; [by eexists|]. split; done.
Qed.

(** X27. An export started by [open()] flushes the annotations before it
    does anything else, and renders or saves nothing when the flush fails.
    A second [open()] on the state the export left is ignored, unless the
    user had cancelled the save dialog: after a success or a failure the
    component starts no export until the progress card has cleared
    [isExporting]. *)
Theorem PngExport_open_guard
    (env : PngExport.Env) (props : PngExport.Props) (ctx : PngExport.ExportContext)
    (st : PngExport.State) :
  PngExport.getExportContext props = Some ctx →
  PngExport.isExporting st = false →
  let st' := (PngExport.open env props st).1 in
  (∃ rest, (PngExport.open env props st).2 = PngExport.ForceSaveAllAnnotations :: rest ∧
           (is_thrown (PngExport.forceSaveAllAnnotations env) →
            PngExport.handlerEvents rest = [])) ∧
  (PngExport.open env props st' = (st', []) ↔
   PngExport.exportStatus st' ≠ PngExport.processing).
Proof.
  intros Hctx Hidle. cbn zeta.
  assert (Hopen : PngExport.open env props st = PngExport.doExport env props st)
    by (unfold PngExport.open; by rewrite Hctx, Hidle).
  rewrite Hopen.
  destruct (PngExport_doExport_card env props ctx st Hctx) as [Hfirst Hcard].
  cbn zeta in Hcard. split; [exact Hfirst|].
  rewrite <- Hcard. unfold PngExport.open at 1. rewrite Hctx.
  destruct (PngExport.isExporting (PngExport.doExport env props st).1) eqn:Hup.
  - done.
  - split; [|done]. intros Hnone.
    destruct (PngExport_doExport_card env props ctx
                (PngExport.doExport env props st).1 Hctx) as [(rest & Hrest & _) _].
    rewrite Hnone in Hrest. discriminate Hrest.
Qed.

Lemma PngExport_open_guard_witness :
  let st' := (PngExport.open (ExportSample.env true) (ExportSample.props 3)
                PngExport.initial).1 in
  (∃ rest, (PngExport.open (ExportSample.env true) (ExportSample.props 3)
              PngExport.initial).2 = PngExport.ForceSaveAllAnnotations :: rest ∧
           (is_thrown (Normal tt : Completion unit) → PngExport.handlerEvents rest = [])) ∧
  (PngExport.open (ExportSample.env true) (ExportSample.props 3) st' = (st', []) ↔
   PngExport.exportStatus st' ≠ PngExport.processing).
Proof.
  exact (PngExport_open_guard (ExportSample.env true) (ExportSample.props 3)
           (ExportSample.ctx 3) PngExport.initial eq_refl eq_refl).
Defined.

(** X28. Which handler an export goes to.  A one-page document is exported
    as the PNG of the current page: that page alone is requested from the
    viewer and no archive is assembled.  A document that reports no pages
    goes to the archive handler, which has nothing to put in the archive:
    the viewer and the file sink are not called and the card shows the
    error. *)
Theorem PngExport_doExport_route
    (env : PngExport.Env) (props : PngExport.Props) (ctx : PngExport.ExportContext)
    (st : PngExport.State) :
  PngExport.getExportContext props = Some ctx →
  PngExport.forceSaveAllAnnotations env = Normal tt →
  let st' := (PngExport.doExport env props st).1 in
  let handled := PngExport.handlerEvents (PngExport.doExport env props st).2 in
  (PngExport.totalPages ctx = 1 →
     canvasRequests handled = [PngExport.currentPage ctx] ∧ archives handled = []) ∧
  (PngExport.totalPages ctx ≤ 0 →
     handled = [] ∧ PngExport.exportStatus st' = PngExport.error).
Proof.
  intros Hctx Hflush. cbn zeta.
  destruct (PngExport_doExport_unfold env props ctx st Hctx Hflush)
    as (st1 & run & Hi & Hs & Hrun & Hp & Hdo).
  cbn zeta in Hdo. rewrite Hdo. clear Hdo.
  split.
  - intros Hone. rewrite Hone in Hrun. change (1 =? 1) with true in Hrun.
    cbv iota in Hrun.
    assert (Hreq : canvasRequests (events run) = [PngExport.currentPage ctx] ∧
                   archives (events run) = []).
    { rewrite Hrun. clear. unfold exportCurrentPageAsPng, canvasToPngBlob, events. simpl.
      destruct (getMergedCanvasForPage _ _) as [[canvas|]|e]; simpl; [|done..].
      destruct (toBlob_png canvas) as [png|]; simpl; [|done].
      done. }
    destruct (completion run) as [[]|e];
      [destruct (PngExport.onExportSuccess props) as [callback|];
         [destruct (callback _) as [[]|e]|]| |];
      unfold PngExport.failed; cbn [snd]; rewrite <- ?app_assoc;
      by rewrite PngExport_handlerEvents_calls.
  - intros Hzero. assert (Hsingle : (PngExport.totalPages ctx =? 1) = false) by lia.
    rewrite Hsingle in Hrun.
    assert (Hempty : run = ([], Throw EmptyZip)).
    { rewrite Hrun. unfold exportAllPagesAsPngZip. by rewrite seqZ_nil by lia. }
    rewrite Hempty. unfold PngExport.failed. cbn [completion events fst snd].
    split; [|done]. by rewrite PngExport_handlerEvents_calls.
Qed.

Lemma PngExport_doExport_route_witness :
  let result := PngExport.doExport (ExportSample.env true) (ExportSample.props 0)
                  PngExport.initial in
  PngExport.handlerEvents result.2 = [] ∧
  PngExport.exportStatus result.1 = PngExport.error.
Proof.
  refine (proj2 (PngExport_doExport_route (ExportSample.env true) (ExportSample.props 0)
                   (ExportSample.ctx 0) PngExport.initial eq_refl eq_refl) _).
  simpl. lia.
Defined.

(** ** The gesture hint *)

Lemma GestureHint_step_invariant storage st action :
  GestureHint_invariant storage st →
  GestureHint_invariant storage (GestureHint.step st action) ∧
  (GestureHint.seen st = true → GestureHint.seen (GestureHint.step st action) = true).
Proof.
  intros Hinv. pose proof Hinv as (Htimers & Hr & Hw & Hblind & Hseen).
  assert (Hshow : GestureHint_invariant storage (GestureHint.tryShow st) ∧
                  (GestureHint.seen st = true →
                   GestureHint.seen (GestureHint.tryShow st) = true)).
  { unfold GestureHint.tryShow, GestureHint.getItem.
    destruct (GestureHint.visible st) eqn:Hvisible; [by split|].
    destruct (GestureHint.readable (GestureHint.localStorage st)) eqn:Hreadable;
      [|by split].
    case_bool_decide as Hitem; [by split|].
    split; [|done]. unfold GestureHint_invariant, GestureHint.seen.
    cbn [GestureHint.visible GestureHint.timeouts GestureHint.localStorage].
    rewrite Htimers. split_and!; [done|congruence|done|congruence|].
    intros _ Hmarked. by apply bool_decide_eq_true in Hmarked. }
  destruct action as [tool maxTouchPoints|]; cbn [GestureHint.step].
  - unfold GestureHint.react. by destruct (_ && _).
  - unfold GestureHint.timeout.
    destruct (GestureHint.timeouts st) as [|delay pending] eqn:Hpending;
      [by split|].
    destruct (GestureHint.visible st); [|done]. injection Htimers as -> ->.
    unfold GestureHint_invariant, GestureHint.seen, GestureHint.setItem.
    cbn [GestureHint.visible GestureHint.timeouts GestureHint.localStorage].
    destruct (GestureHint.writable (GestureHint.localStorage st)) eqn:Hwritable;
      cbn [GestureHint.items GestureHint.readable GestureHint.writable];
      split_and!; try done; try congruence.
    intros _. apply bool_decide_eq_true. apply lookup_insert_eq.
Qed.

Lemma GestureHint_run_invariant storage st actions :
  GestureHint_invariant storage st →
  GestureHint_invariant storage (GestureHint.run st actions) ∧
  (GestureHint.seen st = true → GestureHint.seen (GestureHint.run st actions) = true).
Proof.
  revert st. induction actions as [|action actions IH]; intros st Hinv; [done|].
  destruct (GestureHint_step_invariant storage st action Hinv) as [Hstep Hkeep].
  destruct (IH _ Hstep) as [Hrun Hkeep']. split; [exact Hrun|].
  intros Hseen. apply Hkeep', Hkeep, Hseen.
Qed.

(** X30. The gesture hint never stacks timers and, where the storage works,
    shows once.  After any sequence of runs of the reactive block and of
    timeouts, from the component as mounted: one dismissal timeout is
    pending while the hint shows and none while it does not; with a storage
    that cannot be read the hint does not show; and with a storage that can
    be read and written, once the timeout has dismissed a hint that showed
    nothing that happens later shows it again. *)
Theorem GestureHint_shown_once
    (storage : GestureHint.LocalStorage) (actions : list GestureHint.Action) :
  let st := GestureHint.run (GestureHint.new storage) actions in
  GestureHint.timeouts st =
    (if GestureHint.visible st then [GestureHint.DISMISS_MS] else []) ∧
  (GestureHint.readable storage = false → GestureHint.visible st = false) ∧
  (GestureHint.readable storage = true → GestureHint.writable storage = true →
   GestureHint.visible st = true →
   ∀ later, GestureHint.visible
              (GestureHint.run (GestureHint.timeout st) later) = false).
Proof.
  cbn zeta.
  assert (Hnew : GestureHint_invariant storage (GestureHint.new storage)).
  { unfold GestureHint_invariant. cbn. split_and!; try done. }
  destruct (GestureHint_run_invariant storage _ actions Hnew) as [Hinv _].
  set (st := GestureHint.run (GestureHint.new storage) actions) in *.
  split; [apply Hinv|]. split; [apply Hinv|].
  intros Hreadable Hwritable Hvisible later.
  destruct (GestureHint_step_invariant storage st GestureHint.Timeout Hinv)
    as [Hdismissed _]. cbn [GestureHint.step] in Hdismissed.
  assert (Hmarked : GestureHint.seen (GestureHint.timeout st) = true).
  { destruct Hinv as (Htimers & _ & Hw & _). rewrite Hvisible in Htimers.
    unfold GestureHint.timeout, GestureHint.seen, GestureHint.setItem.
    rewrite Htimers, Hw, Hwritable. cbn. apply bool_decide_eq_true.
    apply lookup_insert_eq. }
  destruct (GestureHint_run_invariant storage _ later Hdismissed) as [Hlater Hkeep].
  destruct Hlater as (_ & _ & _ & _ & Hhidden). apply Hhidden; [done|].
  by apply Hkeep.
Qed.

(** ** The upload page *)

Lemma Dropzone_import_quiet {A} (r : Trace ImageImport.Call A) :
  Dropzone.stored (Dropzone.import r).1 = [] ∧
  Dropzone.navigations (Dropzone.import r).1 = [] ∧
  Dropzone.errorToasts (Dropzone.import r).1 = [].
Proof.
  destruct r as [t c]. unfold Dropzone.import. cbn [fst snd].
  induction t as [|call t IH]; [done|]. exact IH.
Qed.

(** The conversion stores nothing, navigates nowhere and shows no error;
    a file that is neither Markdown nor an image is passed on as it is. *)
Lemma Dropzone_convert_quiet env accept file :
  let run := Dropzone.convert env accept file in
  Dropzone.stored run.1 = [] ∧ Dropzone.navigations run.1 = [] ∧
  Dropzone.errorToasts run.1 = [] ∧
  (Dropzone.isMarkdown env accept file = false →
   Dropzone.isImage env accept file = false → run = ([], Normal file)).
Proof.
  cbn zeta. unfold Dropzone.convert.
  destruct (Dropzone.isMarkdown env accept file).
  - cbn. destruct (Dropzone.readMarkdownFile env file) as [content|e]; cbn; [|done].
    by destruct (Dropzone.convertMarkdownToPDF env content _).
  - destruct (Dropzone.isImage env accept file); [|done].
    destruct (Dropzone_import_quiet
                (ImageImport.convertImageToPDF (Dropzone.imageImport env) file))
      as (Hs & Hn & He).
    destruct (ImageImport.convertImageToPDF (Dropzone.imageImport env) file) as [t c].
    unfold Dropzone.import in *. cbn [fst snd] in *.
    destruct c; cbn; rewrite ?app_nil_r; done.
Qed.

(** The [try] block by cases. *)
Lemma Dropzone_process_cases env accept file st :
  let idle := {| Dropzone.dragOver := Dropzone.dragOver st;
                 Dropzone.isProcessing := false |} in
  let run := Dropzone.process env accept file st in
  match Dropzone.convert env accept file with
  | (t, Throw e) => run = (t, Throw e)
  | (t, Normal f) =>
      if Dropzone.MAX_FILE_SIZE env <? Upload.size f
      then run = (t ++ [Dropzone.ToastError "File Too Large"], Normal idle)
      else
        match Dropzone.storeUploadedFile env f with
        | Throw e => run = (t ++ [Dropzone.StoreUploadedFile f], Throw e)
        | Normal result =>
            if Dropzone.success result && Dropzone.truthy (Dropzone.id result)
            then ∃ fileId,
                   Dropzone.id result = Some fileId ∧
                   let url := "/pdf-upload?fileId=" +:+ fileId in
                   run = (t ++ [Dropzone.StoreUploadedFile f; Dropzone.Goto url],
                          match Dropzone.goto env url with
                          | Normal _ => Normal idle
                          | Throw e => Throw e
                          end)
            else run = (t ++ [Dropzone.StoreUploadedFile f;
                               Dropzone.ToastError "Storage Error"], Normal idle)
        end
  end.
Proof.
  cbn zeta. unfold Dropzone.process.
  destruct (Dropzone.convert env accept file) as [t [f|e]]; [|done].
  cbn [mbind Trace_bind].
  destruct (Dropzone.MAX_FILE_SIZE env <? Upload.size f); [done|].
  cbn [mbind Trace_bind Dropzone.await].
  destruct (Dropzone.storeUploadedFile env f) as [result|e]; [|done].
  destruct (Dropzone.success result && Dropzone.truthy (Dropzone.id result)) eqn:Hok.
  - apply andb_prop in Hok as [_ Hid].
    destruct (Dropzone.id result) as [fileId|]; [|done].
    exists fileId. split; [done|]. cbn.
    by destruct (Dropzone.goto env _).
  - done.
Qed.

(** The page's variables after an upload. *)
Lemma Dropzone_handleFileUpload_state env accept files st :
  let st' := (Dropzone.handleFileUpload env accept files st).1 in
  (Dropzone.isProcessing st' = true → Dropzone.isProcessing st = true) ∧
  (files ≠ [] → Dropzone.dragOver st' = false).
Proof.
  cbn zeta. unfold Dropzone.handleFileUpload. destruct files as [|file rest]; [done|].
  destruct (_ && _); [done|].
  destruct (Dropzone.MAX_FILE_SIZE env <? Upload.size file); [done|].
  assert (Hcases := Dropzone_process_cases env accept file
            {| Dropzone.dragOver := false;
               Dropzone.isProcessing := Dropzone.isProcessing st |}).
  cbn zeta in Hcases. cbn [Dropzone.dragOver] in Hcases |- *.
  destruct (Dropzone.convert env accept file) as [t [f|e]]; [|by rewrite Hcases].
  destruct (Dropzone.MAX_FILE_SIZE env <? Upload.size f); [by rewrite Hcases|].
  destruct (Dropzone.storeUploadedFile env f) as [result|e]; [|by rewrite Hcases].
  destruct (Dropzone.success result && Dropzone.truthy (Dropzone.id result));
    [|by rewrite Hcases].
  destruct Hcases as (fileId & _ & ->). by destruct (Dropzone.goto env _).
Qed.

(** Reads the observations off a run whose conversion part [t] is quiet. *)
Ltac upload_observe Hs Hn He :=
  cbn [fst snd];
  unfold Dropzone.stored, Dropzone.navigations, Dropzone.errorToasts in *;
  rewrite !omap_app, Hs, Hn, He; cbn.

(** X29. What an upload does.  Neither an upload nor a drop leaves the page
    busy: after [handleFileUpload] the page is busy only if it was before,
    and [handleDrop] leaves [isProcessing] as it found it.  The store is
    handed at most one file, and only when the first file passed a validator
    that the [accept] prop enables and both it and the file to store are
    within the size limit; a file that is neither Markdown nor an image is
    stored as it is.  The router is called at most once, only after the
    store reported success with an id, and with that id.  At most one error
    toast is shown, and none exactly when the navigation was made and
    completed: every upload either opens the document or tells the user
    that it failed. *)
Theorem Dropzone_handleFileUpload_outcomes
    (env : Dropzone.Env) (accept : string) (file : Upload.File)
    (rest : list Upload.File) (st : Dropzone.State) :
  let st' := (Dropzone.handleFileUpload env accept (file :: rest) st).1 in
  let calls := (Dropzone.handleFileUpload env accept (file :: rest) st).2 in
  (Dropzone.isProcessing st' = true → Dropzone.isProcessing st = true) ∧
  (∀ dropped, Dropzone.isProcessing (Dropzone.handleDrop env accept dropped st).1 =
              Dropzone.isProcessing st) ∧
  (∀ f, f ∈ Dropzone.stored calls →
     Dropzone.stored calls = [f] ∧
     Upload.size f ≤ Dropzone.MAX_FILE_SIZE env ∧
     Upload.size file ≤ Dropzone.MAX_FILE_SIZE env ∧
     Dropzone.isPDF env accept file || Dropzone.isMarkdown env accept file ||
       Dropzone.isImage env accept file = true ∧
     (Dropzone.isMarkdown env accept file = false →
      Dropzone.isImage env accept file = false → f = file)) ∧
  (∀ url, url ∈ Dropzone.navigations calls →
     Dropzone.navigations calls = [url] ∧
     ∃ f result fileId,
       Dropzone.stored calls = [f] ∧
       Dropzone.storeUploadedFile env f = Normal result ∧
       Dropzone.success result = true ∧ Dropzone.id result = Some fileId ∧
       url = "/pdf-upload?fileId=" +:+ fileId) ∧
  (length (Dropzone.errorToasts calls) ≤ 1)%nat ∧
  (Dropzone.errorToasts calls = [] ↔
   ∃ url, Dropzone.navigations calls = [url] ∧ Dropzone.goto env url = Normal tt).
Proof.
  cbn zeta. split; [apply Dropzone_handleFileUpload_state|]. split.
  { intros dropped. unfold Dropzone.handleDrop.
    destruct (Dropzone.isProcessing st) eqn:Hbusy; [done|].
    destruct dropped as [files|]; [|done].
    destruct (Dropzone_handleFileUpload_state env accept files
                {| Dropzone.dragOver := false; Dropzone.isProcessing := false |})
      as [Hidle _]. cbn zeta in Hidle.
    destruct (Dropzone.isProcessing (Dropzone.handleFileUpload env accept files _).1);
      [by specialize (Hidle eq_refl)|done]. }
  unfold Dropzone.handleFileUpload.
  destruct (negb (Dropzone.isPDF env accept file) &&
            negb (Dropzone.isMarkdown env accept file) &&
            negb (Dropzone.isImage env accept file)) eqn:Hrejected.
  { cbn. split_and!; try done; try (intros ? Hin; by inversion Hin).
    split; [done|]. by intros (url & Hnav & _). }
  destruct (Dropzone.MAX_FILE_SIZE env <? Upload.size file) eqn:Hsize.
  { cbn. split_and!; try done; try (intros ? Hin; by inversion Hin).
    split; [done|]. by intros (url & Hnav & _). }
  apply Z.ltb_ge in Hsize.
  assert (Haccepted : Dropzone.isPDF env accept file || Dropzone.isMarkdown env accept file ||
                        Dropzone.isImage env accept file = true).
  { by destruct (Dropzone.isPDF env accept file), (Dropzone.isMarkdown env accept file),
         (Dropzone.isImage env accept file). }
  clear Hrejected.
  destruct (Dropzone_convert_quiet env accept file) as (Hs & Hn & He & Hsame).
  cbn zeta in Hs, Hn, He, Hsame.
  assert (Hcases := Dropzone_process_cases env accept file
            {| Dropzone.dragOver := false;
               Dropzone.isProcessing := Dropzone.isProcessing st |}).
  cbn zeta in Hcases. cbn [Dropzone.dragOver] in Hcases |- *.
  destruct (Dropzone.convert env accept file) as [t [f|e]]; cbn [fst snd] in *.
  2: { rewrite Hcases. upload_observe Hs Hn He.
       split_and!; try done; try (intros ? Hin; by inversion Hin).
       split; [done|]. by intros (url & Hnav & _). }
  assert (Hstored : ∀ f', f' ∈ [f] →
            [f] = [f'] ∧ Upload.size f' ≤ Dropzone.MAX_FILE_SIZE env →
            [f] = [f'] ∧ Upload.size f' ≤ Dropzone.MAX_FILE_SIZE env ∧
            Upload.size file ≤ Dropzone.MAX_FILE_SIZE env ∧
            Dropzone.isPDF env accept file || Dropzone.isMarkdown env accept file ||
              Dropzone.isImage env accept file = true ∧
            (Dropzone.isMarkdown env accept file = false →
             Dropzone.isImage env accept file = false → f' = file)).
  { intros f' Hin [Hone Hsmall]. apply list_elem_of_singleton in Hin as ->.
    split_and!; try done. intros Hm Hi. by injection (Hsame Hm Hi). }
  destruct (Dropzone.MAX_FILE_SIZE env <? Upload.size f) eqn:Hsize'.
  { rewrite Hcases. upload_observe Hs Hn He.
    split_and!; try done; try (intros ? Hin; by inversion Hin).
    split; [done|]. by intros (url & Hnav & _). }
  apply Z.ltb_ge in Hsize'.
  assert (Hstore : ∀ f', f' ∈ [f] →
            [f] = [f'] ∧ Upload.size f' ≤ Dropzone.MAX_FILE_SIZE env ∧
            Upload.size file ≤ Dropzone.MAX_FILE_SIZE env ∧
            Dropzone.isPDF env accept file || Dropzone.isMarkdown env accept file ||
              Dropzone.isImage env accept file = true ∧
            (Dropzone.isMarkdown env accept file = false →
             Dropzone.isImage env accept file = false → f' = file)).
  { intros f' Hin. apply Hstored; [done|].
    by apply list_elem_of_singleton in Hin as ->. }
  clear Hstored.
  destruct (Dropzone.storeUploadedFile env f) as [result|e] eqn:Hresult.
  2: { rewrite Hcases. upload_observe Hs Hn He.
       split_and!; try done; try (intros ? Hin; by inversion Hin).
       split; [done|]. by intros (url & Hnav & _). }
  destruct (Dropzone.success result && Dropzone.truthy (Dropzone.id result)) eqn:Hok.
  2: { rewrite Hcases. upload_observe Hs Hn He.
       split_and!; try done; try (intros ? Hin; by inversion Hin).
       split; [done|]. by intros (url & Hnav & _). }
  destruct Hcases as (fileId & Hid & Hrun). cbn zeta in Hrun. rewrite Hrun.
  apply andb_prop in Hok as [Hsuccess _].
  assert (Hnavigated : ∀ url, url ∈ ["/pdf-upload?fileId=" +:+ fileId] →
            ["/pdf-upload?fileId=" +:+ fileId] = [url] ∧
            ∃ f' result' fileId',
              [f] = [f'] ∧ Dropzone.storeUploadedFile env f' = Normal result' ∧
              Dropzone.success result' = true ∧ Dropzone.id result' = Some fileId' ∧
              url = "/pdf-upload?fileId=" +:+ fileId').
  { intros url Hin. apply list_elem_of_singleton in Hin as ->.
    split; [done|]. by exists f, result, fileId. }
  destruct (Dropzone.goto env ("/pdf-upload?fileId=" +:+ fileId)) as [[]|e] eqn:Hgoto;
    upload_observe Hs Hn He.
  - split_and!; [done|done|lia|]. split; [|done]. intros _. by eexists.
  - split_and!; [done|done|done|]. split; [done|].
    intros (url & Hnav & Hret). injection Hnav as <-. congruence.
Qed.
